(** * TinyURL UI: the API client (lib/api.ts) and the page logic (App.svelte)

    A shallow embedding of the TypeScript client of the TinyURL service and
    of the Svelte component driving it, together with the parts of the
    JavaScript platform the two files call into (strings, [||],
    [encodeURIComponent], [JSON.stringify], [fetch], the URL parser).

    The backend is not among the sources; where a statement is about its
    answers, they are modelled from the specification (end of Part II).

    Layout: definitions first (platform, then [api.ts], then [App.svelte],
    then the event loop of the page), theorems afterwards. *)

From Stdlib Require Import List String Ascii NArith ZArith Bool Lia.
From Stdlib Require Import DecimalString.
Import ListNotations.

Set Implicit Arguments.

(* ================================================================== *)
(** * Part I.  The JavaScript platform                                 *)
(* ================================================================== *)

(** ** Strings

    A JavaScript string is a sequence of UTF-16 code units.  A code unit
    is written as an [N]; real code units are below [2^16], and no
    definition below depends on that bound. *)

Definition jsstring : Type := list N.

(** [js s]: the JavaScript string with the ASCII spelling [s]. *)
Definition js (s : string) : jsstring :=
  map N_of_ascii (list_ascii_of_string s).

Fixpoint jsstring_eqb (a b : jsstring) : bool :=
  match a, b with
  | [], [] => true
  | x :: a', y :: b' => N.eqb x y && jsstring_eqb a' b'
  | _, _ => false
  end.

(** ToBoolean on a string: the empty string is the only falsy one. *)
Definition truthy_string (s : jsstring) : bool :=
  match s with
  | [] => false
  | _ :: _ => true
  end.

(** [a || d] where [a : string | null | undefined] and [d : string]. *)
Definition or_string (a : option jsstring) (d : jsstring) : jsstring :=
  match a with
  | Some s => if truthy_string s then s else d
  | None => d
  end.

(** [a || undefined] where [a : string | undefined]. *)
Definition or_undefined (a : option jsstring) : option jsstring :=
  match a with
  | Some s => if truthy_string s then Some s else None
  | None => None
  end.

(** ASCII lower-casing of one code unit and of a string. *)
Definition ascii_lower (c : N) : N :=
  if ((65 <=? c) && (c <=? 90))%N then (c + 32)%N else c.

Definition lowercase (s : jsstring) : jsstring := map ascii_lower s.

Fixpoint join (sep : jsstring) (parts : list jsstring) : jsstring :=
  match parts with
  | [] => []
  | [p] => p
  | p :: rest => p ++ sep ++ join sep rest
  end.

(** [contains needle s]: [needle] occurs in [s] as a substring. *)
Fixpoint starts_with (needle s : jsstring) : bool :=
  match needle, s with
  | [], _ => true
  | _ :: _, [] => false
  | a :: needle', b :: s' => N.eqb a b && starts_with needle' s'
  end.

Fixpoint contains (needle s : jsstring) : bool :=
  starts_with needle s ||
  match s with
  | [] => false
  | _ :: s' => contains needle s'
  end.

(** ** Exceptions and completions

    Every value thrown in the two files is an Error object; it is kept as
    its [name] and [message]. *)

Record JsError : Type := mkError { err_name : jsstring; err_message : jsstring }.

Definition new_Error (msg : jsstring) : JsError := mkError (js "Error") msg.
Definition new_TypeError (msg : jsstring) : JsError := mkError (js "TypeError") msg.
Definition new_URIError (msg : jsstring) : JsError := mkError (js "URIError") msg.
Definition new_SyntaxError (msg : jsstring) : JsError := mkError (js "SyntaxError") msg.

(** Error.prototype.toString, which is what [String(e)] calls. *)
Definition Error_toString (e : JsError) : jsstring :=
  match err_name e, err_message e with
  | [], msg => msg
  | name, [] => name
  | name, msg => name ++ js ": " ++ msg
  end.

(** The outcome of evaluating an expression or awaiting a promise:
    a value, or a thrown exception (a rejected promise). *)
Inductive completion (A : Type) : Type :=
| Returned (a : A)
| Threw (e : JsError).

Arguments Returned {A} a.
Arguments Threw {A} e.

Definition bind {A B : Type} (c : completion A) (k : A -> completion B)
  : completion B :=
  match c with
  | Returned a => k a
  | Threw e => Threw e
  end.

Declare Scope completion_scope.
Delimit Scope completion_scope with completion.
Notation "x <- c ;; k" := (bind c (fun x => k))
  (at level 61, c at next level, right associativity) : completion_scope.
Local Open Scope completion_scope.

Definition is_returned {A : Type} (c : completion A) : bool :=
  match c with
  | Returned _ => true
  | Threw _ => false
  end.

(** ** encodeURIComponent

    ECMAScript, Encode(string, unreservedSet) with the unreserved set of
    encodeURIComponent: letters, digits and [-_.!~*'()]. *)

Definition is_alnum (c : N) : bool :=
  ((48 <=? c) && (c <=? 57) || (65 <=? c) && (c <=? 90) || (97 <=? c) && (c <=? 122))%N.

(** The marks [- _ . ! ~ * ' ( )]. *)
Definition uri_marks : list N := [45; 95; 46; 33; 126; 42; 39; 40; 41]%N.

Definition uri_unreserved (c : N) : bool :=
  is_alnum c || existsb (N.eqb c) uri_marks.

Definition is_leading_surrogate (c : N) : bool := ((55296 <=? c) && (c <=? 56319))%N.
Definition is_trailing_surrogate (c : N) : bool := ((56320 <=? c) && (c <=? 57343))%N.

(** UTF16SurrogatePairToCodePoint. *)
Definition surrogate_pair (lead trail : N) : N :=
  ((lead - 55296) * 1024 + (trail - 56320) + 65536)%N.

(** The UTF-8 octets of a code point: the lead octet carries the top
    bits (three of them in the four-octet form), each continuation octet
    the next six. *)
Definition utf8 (cp : N) : list N :=
  (if cp <? 128 then [cp]
   else if cp <? 2048 then [192 + cp / 64; 128 + cp mod 64]
   else if cp <? 65536 then
     [224 + cp / 4096; 128 + (cp / 64) mod 64; 128 + cp mod 64]
   else
     [240 + (cp / 262144) mod 8; 128 + (cp / 4096) mod 64;
      128 + (cp / 64) mod 64; 128 + cp mod 64])%N.

(** One hexadecimal digit, upper case, of a value below 16. *)
Definition hex_digit (n : N) : N :=
  (if n <? 10 then 48 + n else 55 + n)%N.

(** The escape %XX of one octet: the percent sign, then the digit of the
    high four bits and the digit of the low four bits. *)
Definition percent_octet (b : N) : jsstring :=
  [37; hex_digit ((b / 16) mod 16); hex_digit (b mod 16)]%N.

Definition percent_octets (bs : list N) : jsstring :=
  flat_map percent_octet bs.

Definition URI_malformed : JsError := new_URIError (js "URI malformed").

Fixpoint encodeURIComponent (s : jsstring) : completion jsstring :=
  match s with
  | [] => Returned []
  | c :: rest =>
      if uri_unreserved c then
        r <- encodeURIComponent rest ;; Returned (c :: r)
      else if is_trailing_surrogate c then Threw URI_malformed
      else if is_leading_surrogate c then
        match rest with
        | d :: rest' =>
            if is_trailing_surrogate d then
              r <- encodeURIComponent rest' ;;
              Returned (percent_octets (utf8 (surrogate_pair c d)) ++ r)
            else Threw URI_malformed
        | [] => Threw URI_malformed
        end
      else
        r <- encodeURIComponent rest ;;
        Returned (percent_octets (utf8 c) ++ r)
  end.

(** ** Values and JSON

    The values the two files build, receive and display.  Numbers are the
    integers the program handles (redirect codes, HTTP statuses). *)

#[warnings="-register-all"]
Inductive value : Type :=
| Undefined
| Null
| Bool (b : bool)
| Number (n : Z)
| Str (s : jsstring)
| Array (items : list value)
| Object (props : list (jsstring * value)).

(** ToBoolean. *)
Definition truthy (v : value) : bool :=
  match v with
  | Undefined | Null => false
  | Bool b => b
  | Number n => negb (Z.eqb n 0)
  | Str s => truthy_string s
  | Array _ | Object _ => true
  end.

Definition is_null (v : value) : bool :=
  match v with
  | Null => true
  | _ => false
  end.

(** [string | undefined] as a value. *)
Definition of_optional_string (o : option jsstring) : value :=
  match o with
  | Some s => Str s
  | None => Undefined
  end.

(** [string | null] as a value. *)
Definition of_nullable_string (o : option jsstring) : value :=
  match o with
  | Some s => Str s
  | None => Null
  end.

(** The own property names of an object, in order. *)
Definition keys (v : value) : list jsstring :=
  match v with
  | Object props => map fst props
  | _ => []
  end.

Definition has_key (k : jsstring) (v : value) : bool :=
  existsb (jsstring_eqb k) (keys v).

(** [obj[k]]: the first property named [k]; [Undefined] if there is none. *)
Definition get_prop (k : jsstring) (v : value) : value :=
  match v with
  | Object props =>
      match find (fun p => jsstring_eqb k (fst p)) props with
      | Some p => snd p
      | None => Undefined
      end
  | _ => Undefined
  end.

(** [obj.k = x] on an object that has no property [k] yet: the property
    is appended; on one that has it, the value is replaced in place. *)
Fixpoint assign_prop (k : jsstring) (x : value) (props : list (jsstring * value))
  : list (jsstring * value) :=
  match props with
  | [] => [(k, x)]
  | (k', x') :: rest =>
      if jsstring_eqb k k' then (k, x) :: rest
      else (k', x') :: assign_prop k x rest
  end.

Definition set_prop (k : jsstring) (x : value) (v : value) : value :=
  match v with
  | Object props => Object (assign_prop k x props)
  | _ => v
  end.

(** SerializeJSONProperty, as the JSON document that is written: a
    property whose value is [undefined] is left out of an object, an
    [undefined] array element is written as [null], and [undefined]
    itself has no serialization. *)
Fixpoint SerializeJSONProperty (v : value) : option value :=
  match v with
  | Undefined => None
  | Null => Some Null
  | Bool b => Some (Bool b)
  | Number n => Some (Number n)
  | Str s => Some (Str s)
  | Array items =>
      Some (Array
        ((fix elements (l : list value) : list value :=
            match l with
            | [] => []
            | x :: l' =>
                match SerializeJSONProperty x with
                | Some d => d :: elements l'
                | None => Null :: elements l'
                end
            end) items))
  | Object props =>
      Some (Object
        ((fix members (l : list (jsstring * value)) : list (jsstring * value) :=
            match l with
            | [] => []
            | (k, x) :: l' =>
                match SerializeJSONProperty x with
                | Some d => (k, d) :: members l'
                | None => members l'
                end
            end) props))
  end.

(** Number::toString for an integer. *)
Definition Number_toString (n : Z) : jsstring :=
  js (NilZero.string_of_int (Z.to_int n)).

(** Lower-case hexadecimal digit, as used by the [\uXXXX] escapes. *)
Definition hex_digit_lower (n : N) : N :=
  (if n <? 10 then 48 + n else 87 + n)%N.

Definition unicode_escape (c : N) : jsstring :=
  [92; 117; hex_digit_lower ((c / 4096) mod 16); hex_digit_lower ((c / 256) mod 16);
   hex_digit_lower ((c / 16) mod 16); hex_digit_lower (c mod 16)]%N.

(** QuoteJSONString, without the surrounding quotes.  The two-character
    escapes are a backslash (92) followed by b, t, n, f or r for the code
    units 8, 9, 10, 12 and 13, and a backslash before the double quote
    (34) and before the backslash itself. *)
Fixpoint quote_json_chars (s : jsstring) : jsstring :=
  match s with
  | [] => []
  | c :: rest =>
      if N.eqb c 8 then [92; 98]%N ++ quote_json_chars rest
      else if N.eqb c 9 then [92; 116]%N ++ quote_json_chars rest
      else if N.eqb c 10 then [92; 110]%N ++ quote_json_chars rest
      else if N.eqb c 12 then [92; 102]%N ++ quote_json_chars rest
      else if N.eqb c 13 then [92; 114]%N ++ quote_json_chars rest
      else if N.eqb c 34 then [92; 34]%N ++ quote_json_chars rest
      else if N.eqb c 92 then [92; 92]%N ++ quote_json_chars rest
      else if (c <? 32)%N then unicode_escape c ++ quote_json_chars rest
      else if is_trailing_surrogate c then unicode_escape c ++ quote_json_chars rest
      else if is_leading_surrogate c then
        match rest with
        | d :: rest' =>
            if is_trailing_surrogate d then c :: d :: quote_json_chars rest'
            else unicode_escape c ++ quote_json_chars rest
        | [] => unicode_escape c
        end
      else c :: quote_json_chars rest
  end.

Definition QuoteJSONString (s : jsstring) : jsstring :=
  [34%N] ++ quote_json_chars s ++ [34%N].

(** The text of a JSON document (no indentation). *)
Fixpoint JSON_text (doc : value) : jsstring :=
  match doc with
  | Undefined | Null => js "null"
  | Bool true => js "true"
  | Bool false => js "false"
  | Number n => Number_toString n
  | Str s => QuoteJSONString s
  | Array items =>
      js "[" ++ join (js ",") (map JSON_text items) ++ js "]"
  | Object props =>
      js "{" ++
      join (js ",")
        ((fix members (l : list (jsstring * value)) : list jsstring :=
            match l with
            | [] => []
            | (k, x) :: l' => (QuoteJSONString k ++ js ":" ++ JSON_text x) :: members l'
            end) props) ++
      js "}"
  end.

(** [JSON.stringify(v)]: a string, or [undefined]. *)
Definition JSON_stringify (v : value) : option jsstring :=
  option_map JSON_text (SerializeJSONProperty v).

(** ** fetch

    A request is kept as the arguments [fetch] is called with: the URL
    string and the members of the init object.  [req_redirect] is
    [Follow] when the init object has no [redirect] member. *)

Inductive RedirectMode : Type := Follow | ErrorMode | Manual.

Definition headers : Type := list (jsstring * jsstring).

Record Request : Type := mkRequest {
  req_url : jsstring;
  req_method : jsstring;
  req_headers : headers;
  req_body : option jsstring;
  req_redirect : RedirectMode
}.

(** Headers.get(name): names compare ASCII case-insensitively, the values
    of all headers of that name are joined with a comma and a space, and the
    result is [null] when there is none. *)
Definition headers_get (name : jsstring) (h : headers) : option jsstring :=
  match filter (fun p => jsstring_eqb (lowercase name) (lowercase (fst p))) h with
  | [] => None
  | found => Some (join (js ", ") (map snd found))
  end.

(** Fetch Standard, Headers: when the request is built, the value of a
    header is normalized, that is, leading and trailing HTTP whitespace
    (tab, line feed, carriage return, space) is removed, and then
    validated: every code unit is a byte, and none is NUL, a line feed or
    a carriage return.  [None] stands for the TypeError of a value that
    is not valid. *)
Definition is_http_whitespace (c : N) : bool :=
  N.eqb c 9 || N.eqb c 10 || N.eqb c 13 || N.eqb c 32.

Fixpoint strip_leading_whitespace (s : jsstring) : jsstring :=
  match s with
  | [] => []
  | c :: rest => if is_http_whitespace c then strip_leading_whitespace rest else s
  end.

Fixpoint strip_trailing_whitespace (s : jsstring) : jsstring :=
  match s with
  | [] => []
  | c :: rest =>
      match strip_trailing_whitespace rest with
      | [] => if is_http_whitespace c then [] else [c]
      | r => c :: r
      end
  end.

Definition normalize_header_value (v : jsstring) : jsstring :=
  strip_trailing_whitespace (strip_leading_whitespace v).

Definition header_value_on_the_wire (v : jsstring) : option jsstring :=
  let n := normalize_header_value v in
  if forallb (fun c => (c <=? 255)%N && negb (N.eqb c 0 || N.eqb c 10 || N.eqb c 13)) n
  then Some n
  else None.

(** *** Header names and methods *)

(** RFC 9110: a token is a non-empty string of letters, digits and the
    marks below.  Header names and methods are tokens. *)
Definition is_token_char (c : N) : bool :=
  is_alnum c
  || existsb (N.eqb c) [33; 35; 36; 37; 38; 39; 42; 43; 45; 46; 94; 95; 96; 124; 126]%N.

Definition is_token (s : jsstring) : bool :=
  truthy_string s && forallb is_token_char s.

(** Byte-case-insensitive match of two names. *)
Definition same_name (a b : jsstring) : bool :=
  jsstring_eqb (lowercase a) (lowercase b).

(** Removing the code units that satisfy [p] from the start and from the
    end of a string. *)
Fixpoint trim_start (p : N -> bool) (s : jsstring) : jsstring :=
  match s with
  | [] => []
  | c :: rest => if p c then trim_start p rest else s
  end.

Fixpoint trim_end (p : N -> bool) (s : jsstring) : jsstring :=
  match s with
  | [] => []
  | c :: rest =>
      match trim_end p rest with
      | [] => if p c then [] else [c]
      | r => c :: r
      end
  end.

Definition trim (p : N -> bool) (s : jsstring) : jsstring :=
  trim_end p (trim_start p s).

Definition is_tab_or_space (c : N) : bool := N.eqb c 9 || N.eqb c 32.

(** Fetch Standard, methods: CONNECT, TRACE and TRACK are forbidden;
    DELETE, GET, HEAD, OPTIONS, POST and PUT are normalized to upper
    case, and any other method is left as it is written. *)
Definition is_forbidden_method (m : jsstring) : bool :=
  existsb (same_name m) [js "CONNECT"; js "TRACE"; js "TRACK"].

Definition normalize_method (m : jsstring) : jsstring :=
  match find (same_name m)
          [js "DELETE"; js "GET"; js "HEAD"; js "OPTIONS"; js "POST"; js "PUT"] with
  | Some upper => upper
  | None => m
  end.

(** Fetch Standard, getting, decoding and splitting a header value: the
    value is cut at the commas that are outside of quoted strings, and
    tabs and spaces around each part are removed.  [quoted] tells whether
    the scan is inside a quoted string, where a backslash (92) takes the
    next code unit with it; [part] is the part read so far. *)
Fixpoint split_values (s : jsstring) (quoted : bool) (part : jsstring) : list jsstring :=
  match s with
  | [] => [trim is_tab_or_space part]
  | c :: rest =>
      if quoted then
        if N.eqb c 92 then
          match rest with
          | [] => [trim is_tab_or_space (part ++ [c])]
          | d :: rest' => split_values rest' true (part ++ [c; d])
          end
        else if N.eqb c 34 then split_values rest false (part ++ [c])
        else split_values rest true (part ++ [c])
      else if N.eqb c 34 then split_values rest true (part ++ [c])
      else if N.eqb c 44 then trim is_tab_or_space part :: split_values rest false []
      else split_values rest false (part ++ [c])
  end.

Definition get_decode_split (value : jsstring) : list jsstring :=
  split_values value false [].

(** Fetch Standard, forbidden request-headers: a script cannot set
    them; the Headers object of a request leaves them out silently. *)
Definition is_forbidden_request_header (name value : jsstring) : bool :=
  existsb (same_name name)
    [js "Accept-Charset"; js "Accept-Encoding"; js "Access-Control-Request-Headers";
     js "Access-Control-Request-Method"; js "Connection"; js "Content-Length";
     js "Cookie"; js "Cookie2"; js "Date"; js "DNT"; js "Expect"; js "Host";
     js "Keep-Alive"; js "Origin"; js "Referer"; js "Set-Cookie"; js "TE";
     js "Trailer"; js "Transfer-Encoding"; js "Upgrade"; js "Via"]
  || starts_with (js "proxy-") (lowercase name)
  || starts_with (js "sec-") (lowercase name)
  || (existsb (same_name name)
        [js "X-HTTP-Method"; js "X-HTTP-Method-Override"; js "X-Method-Override"]
      && existsb is_forbidden_method (get_decode_split value)).

(** *** The Request constructor

    [fetch(url, init)] first makes a Request of its arguments; what is
    sent is that Request.  A failure is a TypeError, whose message
    depends on the engine and on the failure; the model keeps one. *)
Definition request_TypeError : JsError :=
  new_TypeError (js "Failed to execute 'fetch'").

(** Appending to a header list: a name that is in the list already is
    written the way its first header writes it. *)
Definition header_list_append (name value : jsstring) (list : headers) : headers :=
  match find (fun p => same_name name (fst p)) list with
  | Some p => list ++ [(fst p, value)]
  | None => list ++ [(name, value)]
  end.

(** Filling the Headers object of a request from the [headers] member:
    each value is normalized; a name that is not a token or a value that
    is not a header value throws; a forbidden request-header is left
    out; the header is appended otherwise. *)
Fixpoint fill_headers (init list : headers) : completion headers :=
  match init with
  | [] => Returned list
  | (name, value) :: rest =>
      match header_value_on_the_wire value with
      | None => Threw request_TypeError
      | Some normalized =>
          if negb (is_token name) then Threw request_TypeError
          else if is_forbidden_request_header name normalized then fill_headers rest list
          else fill_headers rest (header_list_append name normalized list)
      end
  end.

(** A string body is a USVString: a surrogate that stands alone is
    replaced by U+FFFD.  The body is sent in UTF-8. *)
Fixpoint to_usv_string (s : jsstring) : jsstring :=
  match s with
  | [] => []
  | c :: rest =>
      if is_trailing_surrogate c then 65533%N :: to_usv_string rest
      else if is_leading_surrogate c then
        match rest with
        | d :: rest' =>
            if is_trailing_surrogate d then c :: d :: to_usv_string rest'
            else 65533%N :: to_usv_string rest
        | [] => [65533%N]
        end
      else c :: to_usv_string rest
  end.

(** The Request constructor, without the parsing of the URL (for which
    see the URL parser below; the URL is kept as it is written).  The
    method is checked and normalized, the headers are filled, a GET or
    HEAD request must have no body, and a string body without a
    Content-Type header gets the one of plain text. *)
Definition new_Request (init : Request) : completion Request :=
  if negb (is_token (req_method init)) || is_forbidden_method (req_method init)
  then Threw request_TypeError
  else
    let method := normalize_method (req_method init) in
    list <- fill_headers (req_headers init) [] ;;
    match req_body init with
    | None =>
        Returned (mkRequest (req_url init) method list None (req_redirect init))
    | Some body =>
        if jsstring_eqb method (js "GET") || jsstring_eqb method (js "HEAD")
        then Threw request_TypeError
        else
          let list :=
            match headers_get (js "Content-Type") list with
            | Some _ => list
            | None => list ++ [(js "Content-Type", js "text/plain;charset=UTF-8")]
            end in
          Returned (mkRequest (req_url init) method list (Some (to_usv_string body))
                      (req_redirect init))
    end.

(** A Response object, as far as the program looks at it: [status],
    [headers], and what the promises of [text()] and [json()] settle to. *)
Record Response : Type := mkResponse {
  res_status : Z;
  res_headers : headers;
  res_text : completion jsstring;
  res_json : completion value
}.

(** Response.ok: the status is in the range 200 to 299. *)
Definition res_ok (r : Response) : bool :=
  ((200 <=? res_status r) && (res_status r <=? 299))%Z.

(** Fetch Standard: the redirect statuses. *)
Definition is_redirect_status (s : Z) : bool :=
  existsb (Z.eqb s) [301; 302; 303; 307; 308]%Z.

(** Fetch Standard: the opaque-redirect filtered response has status 0,
    an empty header list and a null body, whatever the response it
    wraps. *)
Definition opaque_redirect (actual : Response) : Response :=
  {| res_status := 0;
     res_headers := [];
     res_text := Returned [];
     res_json := Threw (new_SyntaxError (js "Unexpected end of JSON input")) |}.

Definition network_error : JsError := new_TypeError (js "Failed to fetch").

(** *** Cross-origin requests

    Fetch Standard, main fetch: a request made by [fetch] has the mode
    cors and the credentials mode same-origin.  When its URL has the
    origin of the page, the response tainting is basic; otherwise it is
    cors, and the answer is checked against the serialized origin of the
    page, [origin].  Which of the two holds is a matter of where the page
    is served from and of the URL, so it is given to [http_fetch]. *)
Inductive Tainting : Type :=
| Basic
| Cors (origin : jsstring).

(** The CORS check: the answer names the origin of the page, or any
    origin (the request carries no credentials), in
    Access-Control-Allow-Origin. *)
Definition cors_check (origin : jsstring) (res : Response) : bool :=
  match headers_get (js "Access-Control-Allow-Origin") (res_headers res) with
  | None => false
  | Some allowed => jsstring_eqb allowed (js "*") || jsstring_eqb allowed origin
  end.

Definition passes_cors_check (tainting : Tainting) (res : Response) : bool :=
  match tainting with
  | Basic => true
  | Cors origin => cors_check origin res
  end.

(** RFC 9110, a list of tokens: elements separated by commas, with
    optional tabs and spaces around them; empty elements are skipped.
    [None] when an element is not a token. *)
Fixpoint split_on_commas (s : jsstring) (element : jsstring) : list jsstring :=
  match s with
  | [] => [element]
  | c :: rest =>
      if N.eqb c 44 then element :: split_on_commas rest []
      else split_on_commas rest (element ++ [c])
  end.

Definition parse_token_list (value : jsstring) : option (list jsstring) :=
  let elements :=
    filter truthy_string (map (trim is_tab_or_space) (split_on_commas value [])) in
  if forallb is_token elements then Some elements else None.

(** Extracting header list values: no header of that name, a header that
    does not parse, or the elements of all headers of that name. *)
Inductive Extracted : Type :=
| NoHeader
| Failure
| Values (elements : list jsstring).

Fixpoint extract_values (found : headers) : option (list jsstring) :=
  match found with
  | [] => Some []
  | (_, value) :: rest =>
      match parse_token_list value, extract_values rest with
      | Some elements, Some more => Some (elements ++ more)
      | _, _ => None
      end
  end.

Definition extract_header_list_values (name : jsstring) (h : headers) : Extracted :=
  match filter (fun p => same_name name (fst p)) h with
  | [] => NoHeader
  | found =>
      match extract_values found with
      | Some elements => Values elements
      | None => Failure
      end
  end.

Definition extracted_list (x : Extracted) : list jsstring :=
  match x with
  | Values elements => elements
  | NoHeader | Failure => []
  end.

(** **** What the page may read of a response *)

Definition is_forbidden_response_header_name (name : jsstring) : bool :=
  existsb (same_name name) [js "Set-Cookie"; js "Set-Cookie2"].

(** The basic filtered response: all headers but the forbidden ones. *)
Definition basic_filtered (res : Response) : Response :=
  {| res_status := res_status res;
     res_headers :=
       filter (fun p => negb (is_forbidden_response_header_name (fst p))) (res_headers res);
     res_text := res_text res;
     res_json := res_json res |}.

(** The CORS-exposed header names of a response: the elements of
    Access-Control-Expose-Headers, or the names of all its headers when
    an element is the asterisk. *)
Definition cors_exposed_header_names (h : headers) : list jsstring :=
  match extract_header_list_values (js "Access-Control-Expose-Headers") h with
  | Values names =>
      if existsb (jsstring_eqb (js "*")) names then map fst h else names
  | NoHeader | Failure => []
  end.

Definition is_cors_safelisted_response_header_name (exposed : list jsstring)
  (name : jsstring) : bool :=
  existsb (same_name name)
    [js "Cache-Control"; js "Content-Language"; js "Content-Length"; js "Content-Type";
     js "Expires"; js "Last-Modified"; js "Pragma"]
  || (existsb (same_name name) exposed && negb (is_forbidden_response_header_name name)).

(** The CORS filtered response: the safelisted and the exposed headers
    only. *)
Definition cors_filtered (res : Response) : Response :=
  {| res_status := res_status res;
     res_headers :=
       filter (fun p =>
                 is_cors_safelisted_response_header_name
                   (cors_exposed_header_names (res_headers res)) (fst p))
         (res_headers res);
     res_text := res_text res;
     res_json := res_json res |}.

Definition filtered_response (tainting : Tainting) (res : Response) : Response :=
  match tainting with
  | Basic => basic_filtered res
  | Cors _ => cors_filtered res
  end.

(** **** Which requests need a preflight *)

Definition is_cors_safelisted_method (m : jsstring) : bool :=
  existsb (jsstring_eqb m) [js "GET"; js "HEAD"; js "POST"].

Definition is_cors_unsafe_request_header_byte (c : N) : bool :=
  ((c <? 32) && negb (N.eqb c 9))%N
  || existsb (N.eqb c) [34; 40; 41; 58; 60; 62; 63; 64; 91; 92; 93; 123; 125; 127]%N.

(** MIME Sniffing Standard, parsing a MIME type, as far as its essence
    (type, a slash, subtype, in lower case); [None] stands for failure.
    The parameters after the first semicolon never make the parsing
    fail. *)
Fixpoint split_at (sep : N) (s : jsstring) : jsstring * option jsstring :=
  match s with
  | [] => ([], None)
  | c :: rest =>
      if N.eqb c sep then ([], Some rest)
      else let (before, after) := split_at sep rest in (c :: before, after)
  end.

Definition mime_type_essence (value : jsstring) : option jsstring :=
  let input := trim is_http_whitespace value in
  match split_at 47 input with
  | (_, None) => None
  | (type, Some rest) =>
      if negb (is_token type) then None
      else
        let subtype := trim_end is_http_whitespace (fst (split_at 59 rest)) in
        if negb (is_token subtype) then None
        else Some (lowercase type ++ js "/" ++ lowercase subtype)
  end.

(** Fetch Standard, parsing a single range header value without
    whitespace, as far as the CORS safelist needs it: the value reads
    bytes=first-last, where first is there, last may be missing, and
    first is not above last. *)
Definition is_digit (c : N) : bool := ((48 <=? c) && (c <=? 57))%N.

Fixpoint decimal_value (digits : jsstring) (acc : N) : N :=
  match digits with
  | [] => acc
  | c :: rest => decimal_value rest (10 * acc + (c - 48))%N
  end.

Definition is_simple_range (value : jsstring) : bool :=
  if negb (starts_with (js "bytes=") value) then false
  else
    match split_at 45 (skipn 6 value) with
    | (_, None) => false
    | (first, Some last) =>
        truthy_string first && forallb is_digit first && forallb is_digit last
        && (negb (truthy_string last)
            || (decimal_value first 0 <=? decimal_value last 0)%N)
    end.

(** Fetch Standard, CORS-safelisted request-header. *)
Definition is_cors_safelisted_request_header (name value : jsstring) : bool :=
  if (128 <? List.length value)%nat then false
  else if same_name name (js "Accept") then
    negb (existsb is_cors_unsafe_request_header_byte value)
  else if same_name name (js "Accept-Language") || same_name name (js "Content-Language") then
    forallb (fun c => is_alnum c || existsb (N.eqb c) [32; 42; 44; 45; 46; 59; 61]%N) value
  else if same_name name (js "Content-Type") then
    negb (existsb is_cors_unsafe_request_header_byte value)
    && match mime_type_essence value with
       | Some essence =>
           existsb (jsstring_eqb essence)
             [js "application/x-www-form-urlencoded"; js "multipart/form-data";
              js "text/plain"]
       | None => false
       end
  else if same_name name (js "Range") then is_simple_range value
  else false.

(** Strings in byte order, and the sorted set of a list of lower-cased
    names. *)
Fixpoint jsstring_leb (a b : jsstring) : bool :=
  match a, b with
  | [], _ => true
  | _ :: _, [] => false
  | x :: a', y :: b' => (x <? y)%N || (N.eqb x y && jsstring_leb a' b')
  end.

Fixpoint insert_sorted (name : jsstring) (sorted : list jsstring) : list jsstring :=
  match sorted with
  | [] => [name]
  | first :: rest =>
      if jsstring_eqb name first then sorted
      else if jsstring_leb name first then name :: sorted
      else first :: insert_sorted name rest
  end.

Definition sorted_lowercase_set (names : list jsstring) : list jsstring :=
  fold_right (fun name sorted => insert_sorted (lowercase name) sorted) [] names.

(** Fetch Standard, CORS-unsafe request-header names: the headers that
    are not safelisted, and the safelisted ones too when their values
    are longer than 1024 bytes together. *)
Definition cors_unsafe_request_header_names (h : headers) : list jsstring :=
  let unsafe := filter (fun p => negb (is_cors_safelisted_request_header (fst p) (snd p))) h in
  let safe := filter (fun p => is_cors_safelisted_request_header (fst p) (snd p)) h in
  let size := fold_right (fun p n => (List.length (snd p) + n)%nat) 0%nat safe in
  sorted_lowercase_set
    (map fst unsafe ++ if (1024 <? size)%nat then map fst safe else []).

Definition needs_preflight (req : Request) : bool :=
  negb (is_cors_safelisted_method (req_method req))
  || match cors_unsafe_request_header_names (req_headers req) with
     | [] => false
     | _ :: _ => true
     end.

(** **** The preflight

    Before a request that needs it is sent, the server is asked with an
    OPTIONS request whether it takes the method and the headers.  The
    preflight cache is left out: every request is taken to be the first
    of its kind. *)
Definition preflight_request (req : Request) : Request :=
  {| req_url := req_url req;
     req_method := js "OPTIONS";
     req_headers :=
       [(js "Accept", js "*/*"); (js "Access-Control-Request-Method", req_method req)]
       ++ match cors_unsafe_request_header_names (req_headers req) with
          | [] => []
          | names => [(js "Access-Control-Request-Headers", join (js ",") names)]
          end;
     req_body := None;
     req_redirect := Follow |}.

Definition cors_preflight_fetch (origin : jsstring)
  (network : Request -> completion Response) (req : Request) : completion unit :=
  res <- network (preflight_request req) ;;
  if cors_check origin res && res_ok res then
    match extract_header_list_values (js "Access-Control-Allow-Methods") (res_headers res),
          extract_header_list_values (js "Access-Control-Allow-Headers") (res_headers res) with
    | Failure, _ | _, Failure => Threw network_error
    | allowed_methods, allowed_names =>
        let methods := extracted_list allowed_methods in
        let names := extracted_list allowed_names in
        if negb (existsb (jsstring_eqb (req_method req)) methods)
           && negb (is_cors_safelisted_method (req_method req))
           && negb (existsb (jsstring_eqb (js "*")) methods)
        then Threw network_error
        else if existsb (fun p => same_name (fst p) (js "Authorization")
                                  && negb (existsb (same_name (fst p)) names))
                  (req_headers req)
        then Threw network_error
        else if existsb (fun unsafe => negb (existsb (same_name unsafe) names))
                  (cors_unsafe_request_header_names (req_headers req))
                && negb (existsb (jsstring_eqb (js "*")) names)
        then Threw network_error
        else Returned tt
    end
  else Threw network_error.

(** *** fetch

    Fetch Standard, fetch, main fetch and HTTP fetch: what [fetch]
    resolves with, given what the server answers to a request
    ([network req]; a throw is a network error).  The Request is made,
    the preflight is run when one is needed, the request is sent, and a
    cross-origin answer has to pass the CORS check.  An answer with a
    redirect status is handed over according to the redirect mode of the
    request: [Manual] wraps it into the opaque-redirect filtered response,
    [ErrorMode] makes it a network error.  Under [Follow] the answer of
    [network] stands for the last response of the redirect chain.  The
    page gets the filtered response of its tainting. *)
Definition http_fetch (tainting : Tainting) (network : Request -> completion Response)
  (init : Request) : completion Response :=
  req <- new_Request init ;;
  _ <- match tainting with
       | Cors origin =>
           if needs_preflight req then cors_preflight_fetch origin network req
           else Returned tt
       | Basic => Returned tt
       end ;;
  actual <- network req ;;
  if negb (passes_cors_check tainting actual) then Threw network_error
  else if is_redirect_status (res_status actual) then
    match req_redirect req with
    | Manual => Returned (opaque_redirect actual)
    | ErrorMode => Threw network_error
    | Follow => Returned (filtered_response tainting actual)
    end
  else Returned (filtered_response tainting actual).

(** ** The URL parser, path state

    URL Standard, for a URL with a special scheme ([http], [https]): the
    part of the input after the authority is cut into path segments.  The
    parser works on code points; an unpaired surrogate is read as
    U+FFFD. *)

Fixpoint code_points (s : jsstring) : list N :=
  match s with
  | [] => []
  | c :: rest =>
      if is_trailing_surrogate c then 65533%N :: code_points rest
      else if is_leading_surrogate c then
        match rest with
        | d :: rest' =>
            if is_trailing_surrogate d then surrogate_pair c d :: code_points rest'
            else 65533%N :: code_points rest
        | [] => [65533%N]
        end
      else c :: code_points rest
  end.

(** Before the states run, trailing C0 controls and spaces are cut off
    the input (leading ones too, at the start of the whole URL), and
    ASCII tabs and newlines are removed from it. *)
Fixpoint strip_trailing (s : list N) : list N :=
  match s with
  | [] => []
  | c :: rest =>
      match strip_trailing rest with
      | [] => if (c <=? 32)%N then [] else [c]
      | r => c :: r
      end
  end.

Definition is_tab_or_newline (c : N) : bool :=
  N.eqb c 9 || N.eqb c 10 || N.eqb c 13.

(** The path percent-encode set: the C0 controls, everything above the
    tilde, and the space, the double quote, the number sign, the angle
    brackets, the question mark, the caret, the backquote and the braces. *)
Definition in_path_percent_encode_set (c : N) : bool :=
  ((c <=? 31) || (126 <? c))%N ||
  existsb (N.eqb c) [32; 34; 35; 60; 62; 63; 94; 96; 123; 125]%N.

Definition path_percent_encode (c : N) : jsstring :=
  if in_path_percent_encode_set c then percent_octets (utf8 c) else [c].

(** A single-dot segment is one dot, or its percent-encoded spelling
    %2e; a double-dot segment is two of these in a row; letters compare
    ASCII case-insensitively. *)
Definition is_single_dot (seg : jsstring) : bool :=
  existsb (jsstring_eqb (lowercase seg)) [js "."; js "%2e"].

Definition is_double_dot (seg : jsstring) : bool :=
  existsb (jsstring_eqb (lowercase seg)) [js ".."; js ".%2e"; js "%2e."; js "%2e%2e"].

(** What the path state does with the buffer when it meets the end of a
    segment; [slash] tells whether the segment ended at a [/] or a
    backslash (otherwise at the end of the input, [?] or [#]). *)
Definition end_segment (slash : bool) (buffer : jsstring) (path : list jsstring)
  : list jsstring :=
  if is_double_dot buffer then
    if slash then removelast path else removelast path ++ [[]]
  else if is_single_dot buffer then
    if slash then path else path ++ [[]]
  else path ++ [buffer].

Fixpoint path_state (input : list N) (buffer : jsstring) (path : list jsstring)
  : list jsstring * list N :=
  match input with
  | [] => (end_segment false buffer path, [])
  | c :: rest =>
      if N.eqb c 47 || N.eqb c 92 then
        path_state rest [] (end_segment true buffer path)
      else if N.eqb c 63 || N.eqb c 35 then
        (end_segment false buffer path, c :: rest)
      else path_state rest (buffer ++ path_percent_encode c) path
  end.

(** Path start state, then path state: the segments of the path, and what
    is left of the input (a query or a fragment, from its [?] or [#]
    on). *)
Definition url_path (s : jsstring) : list jsstring * list N :=
  let input :=
    filter (fun c => negb (is_tab_or_newline c)) (strip_trailing (code_points s)) in
  match input with
  | c :: rest =>
      if N.eqb c 47 || N.eqb c 92 then path_state rest [] []
      else path_state input [] []
  | [] => path_state [] [] []
  end.

(* ================================================================== *)
(** * Part II.  lib/api.ts                                             *)
(* ================================================================== *)

(** ** The declared types *)

(** [301 | 302 | 307 | 308] *)
Inductive RedirectCode : Type := C301 | C302 | C307 | C308.

Definition code_number (c : RedirectCode) : Z :=
  match c with
  | C301 => 301
  | C302 => 302
  | C307 => 307
  | C308 => 308
  end.

Definition of_optional_code (o : option RedirectCode) : value :=
  match o with
  | Some c => Number (code_number c)
  | None => Undefined
  end.

(** [type CreateLinkPayload]; the two optional members are [None] when
    they are absent or [undefined]. *)
Module CreateLinkPayload.
Record t : Type := mk {
  target_url : jsstring;
  link_id : option jsstring;
  redirect_code : option RedirectCode
}.
Definition to_value (p : t) : value :=
  Object [(js "target_url", Str (target_url p));
          (js "link_id", of_optional_string (link_id p));
          (js "redirect_code", of_optional_code (redirect_code p))].
End CreateLinkPayload.

(** [type CreateLinkResponse] *)
Module CreateLinkResponse.
Record t : Type := mk {
  link_id : jsstring;
  short_url : jsstring;
  edit_token : jsstring;
  redirect_code : Z;
  created_at : jsstring
}.
Definition to_value (r : t) : value :=
  Object [(js "link_id", Str (link_id r));
          (js "short_url", Str (short_url r));
          (js "edit_token", Str (edit_token r));
          (js "redirect_code", Number (redirect_code r));
          (js "created_at", Str (created_at r))].
End CreateLinkResponse.

(** [type LinkOut] *)
Module LinkOut.
Record t : Type := mk {
  link_id : jsstring;
  target_url : jsstring;
  redirect_code : Z;
  created_at : jsstring;
  updated_at : jsstring;
  active : bool;
  expires_at : option jsstring
}.
Definition to_value (l : t) : value :=
  Object [(js "link_id", Str (link_id l));
          (js "target_url", Str (target_url l));
          (js "redirect_code", Number (redirect_code l));
          (js "created_at", Str (created_at l));
          (js "updated_at", Str (updated_at l));
          (js "active", Bool (active l));
          (js "expires_at", of_nullable_string (expires_at l))].
End LinkOut.

(** The return type of [deleteLink]: [{ status: string; link_id: string }] *)
Module DeleteResponse.
Record t : Type := mk {
  status : jsstring;
  link_id : jsstring
}.
Definition to_value (d : t) : value :=
  Object [(js "status", Str (status d));
          (js "link_id", Str (link_id d))].
End DeleteResponse.

(** ** The three calls

    [VITE_API_BASE] is the build-time variable [import.meta.env.VITE_API_BASE]
    ([None] when it is not set); [fetch] is the platform's. *)

Section Api.

Variable VITE_API_BASE : option jsstring.
Variable fetch : Request -> completion Response.

Definition API_BASE : jsstring :=
  or_string VITE_API_BASE (js "http://localhost:8000").

(** The arguments of the [fetch] call of [createLink]. *)
Definition createLink_request (payload : CreateLinkPayload.t) : Request :=
  {| req_url := API_BASE ++ js "/api/links";
     req_method := js "POST";
     req_headers := [(js "Content-Type", js "application/json")];
     req_body := JSON_stringify (CreateLinkPayload.to_value payload);
     req_redirect := Follow |}.

Definition createLink (payload : CreateLinkPayload.t) : completion value :=
  res <- fetch (createLink_request payload) ;;
  if negb (res_ok res) then
    msg <- res_text res ;; Threw (new_Error msg)
  else res_json res.

(** The arguments of the [fetch] call of [updateLink]; evaluating the
    template literal throws when [encodeURIComponent] does. *)
Definition updateLink_request (linkId token : jsstring) (data : value)
  : completion Request :=
  id <- encodeURIComponent linkId ;;
  Returned
    {| req_url := API_BASE ++ js "/api/links/" ++ id;
       req_method := js "PATCH";
       req_headers := [(js "Content-Type", js "application/json");
                       (js "X-Edit-Token", token)];
       req_body := JSON_stringify data;
       req_redirect := Follow |}.

Definition updateLink (linkId token : jsstring) (data : value) : completion value :=
  req <- updateLink_request linkId token data ;;
  res <- fetch req ;;
  if negb (res_ok res) then
    msg <- res_text res ;; Threw (new_Error msg)
  else res_json res.

(** The arguments of the [fetch] call of [deleteLink]. *)
Definition deleteLink_request (linkId token : jsstring) : completion Request :=
  id <- encodeURIComponent linkId ;;
  Returned
    {| req_url := API_BASE ++ js "/api/links/" ++ id;
       req_method := js "DELETE";
       req_headers := [(js "X-Edit-Token", token)];
       req_body := None;
       req_redirect := Follow |}.

Definition deleteLink (linkId token : jsstring) : completion value :=
  req <- deleteLink_request linkId token ;;
  res <- fetch req ;;
  if negb (res_ok res) then
    msg <- res_text res ;; Threw (new_Error msg)
  else res_json res.

End Api.

(** A call of one of the three functions, with its arguments. *)
Inductive ApiCall : Type :=
| CallCreate (payload : CreateLinkPayload.t)
| CallUpdate (linkId token : jsstring) (data : value)
| CallDelete (linkId token : jsstring).

Definition request_of (base : option jsstring) (c : ApiCall) : completion Request :=
  match c with
  | CallCreate payload => Returned (createLink_request base payload)
  | CallUpdate linkId token data => updateLink_request base linkId token data
  | CallDelete linkId token => deleteLink_request base linkId token
  end.

Definition perform (base : option jsstring) (fetch : Request -> completion Response)
  (c : ApiCall) : completion value :=
  match c with
  | CallCreate payload => createLink base fetch payload
  | CallUpdate linkId token data => updateLink base fetch linkId token data
  | CallDelete linkId token => deleteLink base fetch linkId token
  end.

(** ** The service behind the calls

    The backend that answers the three calls is not among these sources;
    of its answers only the types are declared, in lib/api.ts.  What the
    statements about its answers need is modelled from the
    specification. *)

Module Link.
(** Modelled from the spec: the Link of section 3 (data model), under the
    member names of the example document of docs/REQUIREMENTS.md; the
    backend, which holds the links, is missing.  [target_url] may be
    nulled when the link is retired (section 4.5, delete). *)
Record t : Type := mk {
  id : jsstring;
  target_url : option jsstring;
  redirect_code : RedirectCode;
  created_at : jsstring;
  updated_at : jsstring;
  edit_token_hash : jsstring;
  active : bool;
  expires_at : option jsstring
}.
End Link.

(** Modelled from the spec: the persisted record layout of section 6,
    the JSON shape of a Link, member by member as in the example document
    of docs/REQUIREMENTS.md; the store of the backend is missing. *)
Definition stored_document (l : Link.t) : value :=
  Object [(js "link_id", Str (Link.id l));
          (js "target_url", of_nullable_string (Link.target_url l));
          (js "redirect_code", Number (code_number (Link.redirect_code l)));
          (js "created_at", Str (Link.created_at l));
          (js "updated_at", Str (Link.updated_at l));
          (js "edit_token_hash", Str (Link.edit_token_hash l));
          (js "active", Bool (Link.active l));
          (js "expires_at", of_nullable_string (Link.expires_at l))].

(** An object without its members named [k]. *)
Definition without_member (k : jsstring) (v : value) : value :=
  match v with
  | Object props => Object (filter (fun p => negb (jsstring_eqb k (fst p))) props)
  | _ => v
  end.

(** Modelled from the spec: section 6, the canonical external
    representation of a Link is the JSON shape of the record minus
    edit_token_hash, which is never serialized outward; the serializer
    of the backend is missing. *)
Definition external_representation (l : Link.t) : value :=
  without_member (js "edit_token_hash") (stored_document l).

(** Modelled from the spec: section 4.5, a successful create answers
    the Link together with the plaintext token (section 4.4: returned
    exactly once); the route of the backend is missing.  The members are
    those of [CreateLinkResponse]; the short URL is the base URL of the
    service followed by the id (docs/REQUIREMENTS.md, and BASE_URL in the
    README of the backend). *)
Definition create_representation (BASE_URL : jsstring) (l : Link.t)
  (plaintext_token : jsstring) : value :=
  CreateLinkResponse.to_value
    (CreateLinkResponse.mk (Link.id l) (BASE_URL ++ js "/" ++ Link.id l) plaintext_token
       (code_number (Link.redirect_code l)) (Link.created_at l)).

(** Modelled from the spec: section 4.5, a successful delete answers Ok;
    the route of the backend is missing.  The members are those of the
    return type of [deleteLink]; the text of [status] is not specified. *)
Definition delete_representation (status : jsstring) (l : Link.t) : value :=
  DeleteResponse.to_value (DeleteResponse.mk status (Link.id l)).

(** Modelled from the spec: section 6, the statuses of the error
    responses; the boundary layer of the backend is missing. *)
Definition error_statuses : list Z := [400; 401; 403; 404; 409; 410; 429; 500; 503]%Z.

(** Modelled from the spec: section 4.5 and section 6, an answer to an
    update is an ok response whose body is the external representation
    of a Link, or one of the error responses; the route of the backend
    is missing. *)
Definition is_update_answer (res : Response) : Prop :=
  (res_ok res = true /\ exists l, res_json res = Returned (external_representation l))
  \/ In (res_status res) error_statuses.

(** Modelled from the spec: section 4.5 and section 6, an answer to a
    delete is an ok response whose body has the status and the id of the
    link, or one of the error responses; the route of the backend is
    missing. *)
Definition is_delete_answer (res : Response) : Prop :=
  (res_ok res = true
   /\ exists status l, res_json res = Returned (delete_representation status l))
  \/ In (res_status res) error_statuses.

(* ================================================================== *)
(** * Part III.  App.svelte                                            *)
(* ================================================================== *)

(** ** The component's variables *)

(** [301 | 302 | 307 | 308 | ''], the type of [updCode]. *)
Inductive UpdCode : Type :=
| NoChange                    (* the empty string *)
| NewCode (c : RedirectCode).

Definition truthy_code (c : UpdCode) : bool :=
  match c with
  | NoChange => truthy_string []
  | NewCode c => truthy (Number (code_number c))
  end.

Definition UpdCode_value (c : UpdCode) : value :=
  match c with
  | NoChange => Str []
  | NewCode c => Number (code_number c)
  end.

Record RedirectTester : Type := mkTester {
  linkId : jsstring;
  status : jsstring;
  location : jsstring
}.

(** The [let] variables of the script block ([null] is [None] for a
    [string | null], and [Null] for a result). *)
Record App : Type := mkApp {
  createForm : CreateLinkPayload.t;
  createResult : value;
  createError : option jsstring;
  updLinkId : jsstring;
  updToken : jsstring;
  updTarget : jsstring;
  updCode : UpdCode;
  updNewAlias : jsstring;
  updError : option jsstring;
  updResult : value;
  delLinkId : jsstring;
  delToken : jsstring;
  delError : option jsstring;
  delResult : value;
  redirectTester : RedirectTester
}.

(** Assignment to one variable. *)
Definition set_createForm (x : CreateLinkPayload.t) (st : App) : App :=
  mkApp x (createResult st) (createError st) (updLinkId st) (updToken st)
    (updTarget st) (updCode st) (updNewAlias st) (updError st) (updResult st)
    (delLinkId st) (delToken st) (delError st) (delResult st)
    (redirectTester st).

Definition set_createResult (x : value) (st : App) : App :=
  mkApp (createForm st) x (createError st) (updLinkId st) (updToken st)
    (updTarget st) (updCode st) (updNewAlias st) (updError st) (updResult st)
    (delLinkId st) (delToken st) (delError st) (delResult st)
    (redirectTester st).

Definition set_createError (x : option jsstring) (st : App) : App :=
  mkApp (createForm st) (createResult st) x (updLinkId st) (updToken st)
    (updTarget st) (updCode st) (updNewAlias st) (updError st) (updResult st)
    (delLinkId st) (delToken st) (delError st) (delResult st)
    (redirectTester st).

Definition set_updLinkId (x : jsstring) (st : App) : App :=
  mkApp (createForm st) (createResult st) (createError st) x (updToken st)
    (updTarget st) (updCode st) (updNewAlias st) (updError st) (updResult st)
    (delLinkId st) (delToken st) (delError st) (delResult st)
    (redirectTester st).

Definition set_updToken (x : jsstring) (st : App) : App :=
  mkApp (createForm st) (createResult st) (createError st) (updLinkId st) x
    (updTarget st) (updCode st) (updNewAlias st) (updError st) (updResult st)
    (delLinkId st) (delToken st) (delError st) (delResult st)
    (redirectTester st).

Definition set_updTarget (x : jsstring) (st : App) : App :=
  mkApp (createForm st) (createResult st) (createError st) (updLinkId st)
    (updToken st) x (updCode st) (updNewAlias st) (updError st)
    (updResult st) (delLinkId st) (delToken st) (delError st) (delResult st)
    (redirectTester st).

Definition set_updCode (x : UpdCode) (st : App) : App :=
  mkApp (createForm st) (createResult st) (createError st) (updLinkId st)
    (updToken st) (updTarget st) x (updNewAlias st) (updError st)
    (updResult st) (delLinkId st) (delToken st) (delError st) (delResult st)
    (redirectTester st).

Definition set_updNewAlias (x : jsstring) (st : App) : App :=
  mkApp (createForm st) (createResult st) (createError st) (updLinkId st)
    (updToken st) (updTarget st) (updCode st) x (updError st) (updResult st)
    (delLinkId st) (delToken st) (delError st) (delResult st)
    (redirectTester st).

Definition set_updError (x : option jsstring) (st : App) : App :=
  mkApp (createForm st) (createResult st) (createError st) (updLinkId st)
    (updToken st) (updTarget st) (updCode st) (updNewAlias st) x
    (updResult st) (delLinkId st) (delToken st) (delError st) (delResult st)
    (redirectTester st).

Definition set_updResult (x : value) (st : App) : App :=
  mkApp (createForm st) (createResult st) (createError st) (updLinkId st)
    (updToken st) (updTarget st) (updCode st) (updNewAlias st) (updError st)
    x (delLinkId st) (delToken st) (delError st) (delResult st)
    (redirectTester st).

Definition set_delLinkId (x : jsstring) (st : App) : App :=
  mkApp (createForm st) (createResult st) (createError st) (updLinkId st)
    (updToken st) (updTarget st) (updCode st) (updNewAlias st) (updError st)
    (updResult st) x (delToken st) (delError st) (delResult st)
    (redirectTester st).

Definition set_delToken (x : jsstring) (st : App) : App :=
  mkApp (createForm st) (createResult st) (createError st) (updLinkId st)
    (updToken st) (updTarget st) (updCode st) (updNewAlias st) (updError st)
    (updResult st) (delLinkId st) x (delError st) (delResult st)
    (redirectTester st).

Definition set_delError (x : option jsstring) (st : App) : App :=
  mkApp (createForm st) (createResult st) (createError st) (updLinkId st)
    (updToken st) (updTarget st) (updCode st) (updNewAlias st) (updError st)
    (updResult st) (delLinkId st) (delToken st) x (delResult st)
    (redirectTester st).

Definition set_delResult (x : value) (st : App) : App :=
  mkApp (createForm st) (createResult st) (createError st) (updLinkId st)
    (updToken st) (updTarget st) (updCode st) (updNewAlias st) (updError st)
    (updResult st) (delLinkId st) (delToken st) (delError st) x
    (redirectTester st).

Definition set_redirectTester (x : RedirectTester) (st : App) : App :=
  mkApp (createForm st) (createResult st) (createError st) (updLinkId st)
    (updToken st) (updTarget st) (updCode st) (updNewAlias st) (updError st)
    (updResult st) (delLinkId st) (delToken st) (delError st) (delResult st)
    x.

(** The script block's initial assignments. *)
Definition initial : App :=
  {| createForm := CreateLinkPayload.mk [] (Some []) (Some C301);
     createResult := Null;
     createError := None;
     updLinkId := [];
     updToken := [];
     updTarget := [];
     updCode := NoChange;
     updNewAlias := [];
     updError := None;
     updResult := Null;
     delLinkId := [];
     delToken := [];
     delError := None;
     delResult := Null;
     redirectTester := mkTester [] [] [] |}.

(** The options of the two [select] elements, in document order. *)
Definition create_code_options : list RedirectCode := [C301; C302; C307; C308].

Definition upd_code_options : list UpdCode :=
  [NoChange; NewCode C301; NewCode C302; NewCode C307; NewCode C308].

(** ** The handlers

    Each handler is an async function with one [await] in a [try] block.
    Its body is given in two parts: what runs when the handler is called,
    up to the call whose promise is awaited ([_begin]), and what runs once
    that promise has settled ([_end]). *)

(** [e?.message || String(e)] *)
Definition error_text (e : JsError) : jsstring :=
  or_string (Some (err_message e)) (Error_toString e).

Definition onCreate_begin (st : App) : App :=
  let st := set_createError None st in
  let st := set_createResult Null st in
  st.

Definition onCreate_payload (st : App) : CreateLinkPayload.t :=
  {| CreateLinkPayload.target_url := CreateLinkPayload.target_url (createForm st);
     CreateLinkPayload.link_id := or_undefined (CreateLinkPayload.link_id (createForm st));
     CreateLinkPayload.redirect_code := CreateLinkPayload.redirect_code (createForm st) |}.

Definition onCreate_end (outcome : completion value) (st : App) : App :=
  match outcome with
  | Returned v => set_createResult v st
  | Threw e => set_createError (Some (error_text e)) st
  end.

Definition onUpdate_begin (st : App) : App :=
  let st := set_updError None st in
  let st := set_updResult Null st in
  st.

Definition onUpdate_data (st : App) : value :=
  let data := Object [] in
  let data := if truthy_string (updTarget st)
              then set_prop (js "target_url") (Str (updTarget st)) data else data in
  let data := if truthy_code (updCode st)
              then set_prop (js "redirect_code") (UpdCode_value (updCode st)) data else data in
  let data := if truthy_string (updNewAlias st)
              then set_prop (js "new_link_id") (Str (updNewAlias st)) data else data in
  data.

Definition onUpdate_end (outcome : completion value) (st : App) : App :=
  match outcome with
  | Returned v => set_updResult v st
  | Threw e => set_updError (Some (error_text e)) st
  end.

Definition onDelete_begin (st : App) : App :=
  let st := set_delError None st in
  let st := set_delResult Null st in
  st.

Definition onDelete_end (outcome : completion value) (st : App) : App :=
  match outcome with
  | Returned v => set_delResult v st
  | Threw e => set_delError (Some (error_text e)) st
  end.

Definition testRedirect_begin (st : App) : App :=
  let t := redirectTester st in
  let t := mkTester (linkId t) [] (location t) in
  let t := mkTester (linkId t) (status t) [] in
  set_redirectTester t st.

Definition testRedirect_end (outcome : completion Response) (st : App) : App :=
  let t := redirectTester st in
  match outcome with
  | Returned res =>
      let t := mkTester (linkId t) (Number_toString (res_status res)) (location t) in
      let t := mkTester (linkId t) (status t)
                 (or_string (headers_get (js "Location") (res_headers res)) []) in
      set_redirectTester t st
  | Threw e =>
      let t := mkTester (linkId t) (js "error") (location t) in
      let t := mkTester (linkId t) (status t) (error_text e) in
      set_redirectTester t st
  end.

Section Handlers.

Variable VITE_API_BASE : option jsstring.
Variable fetch : Request -> completion Response.

(** The arguments of the [fetch] call of [testRedirect]. *)
Definition testRedirect_request (testedId : jsstring) : completion Request :=
  id <- encodeURIComponent testedId ;;
  Returned
    {| req_url := or_string VITE_API_BASE (js "http://localhost:8000") ++ js "/" ++ id;
       req_method := js "GET";
       req_headers := [];
       req_body := None;
       req_redirect := Manual |}.

(** A handler run from its call to its end, nothing else running in
    between. *)
Definition onCreate (st : App) : App :=
  let st := onCreate_begin st in
  onCreate_end (createLink VITE_API_BASE fetch (onCreate_payload st)) st.

Definition onUpdate (st : App) : App :=
  let st := onUpdate_begin st in
  onUpdate_end
    (updateLink VITE_API_BASE fetch (updLinkId st) (updToken st) (onUpdate_data st)) st.

Definition onDelete (st : App) : App :=
  let st := onDelete_begin st in
  onDelete_end (deleteLink VITE_API_BASE fetch (delLinkId st) (delToken st)) st.

Definition testRedirect (st : App) : App :=
  let st := testRedirect_begin st in
  testRedirect_end
    (req <- testRedirect_request (linkId (redirectTester st)) ;; fetch req) st.

End Handlers.

(* ================================================================== *)
(** * Part IV.  The page at run time                                   *)
(* ================================================================== *)

(** The handlers are async: a call runs up to its [await] and returns;
    the rest runs when the awaited promise settles.  In between, the page
    goes on taking input, and the same button can be clicked again.  The
    page is therefore the component's variables together with the calls
    that are waiting for their answer, each with the arguments it was
    made with. *)

Inductive TextField : Type :=
| CreateTargetUrl | CreateAlias
| UpdLinkId | UpdToken | UpdTarget | UpdNewAlias
| DelLinkId | DelToken
| TesterLinkId.

Inductive Button : Type := BtnCreate | BtnUpdate | BtnDelete | BtnTest.

Inductive Invocation : Type :=
| RunCreate (payload : CreateLinkPayload.t)
| RunUpdate (linkId token : jsstring) (data : value)
| RunDelete (linkId token : jsstring)
| RunTest (testedId : jsstring).

Record Page : Type := mkPage {
  app : App;
  pending : list Invocation
}.

Inductive Event : Type :=
| Typed (f : TextField) (s : jsstring)         (* bind:value of an input *)
| ChooseCreateCode (i : nat)                   (* i-th option of the create select *)
| ChooseUpdCode (i : nat)                      (* i-th option of the update select *)
| Click (b : Button)
| Settle (i : nat) (answer : completion Response).
                                               (* the fetch of the i-th waiting call settles *)

Definition typed (f : TextField) (s : jsstring) (st : App) : App :=
  match f with
  | CreateTargetUrl =>
      set_createForm
        (CreateLinkPayload.mk s (CreateLinkPayload.link_id (createForm st))
           (CreateLinkPayload.redirect_code (createForm st))) st
  | CreateAlias =>
      set_createForm
        (CreateLinkPayload.mk (CreateLinkPayload.target_url (createForm st)) (Some s)
           (CreateLinkPayload.redirect_code (createForm st))) st
  | UpdLinkId => set_updLinkId s st
  | UpdToken => set_updToken s st
  | UpdTarget => set_updTarget s st
  | UpdNewAlias => set_updNewAlias s st
  | DelLinkId => set_delLinkId s st
  | DelToken => set_delToken s st
  | TesterLinkId =>
      set_redirectTester
        (mkTester s (status (redirectTester st)) (location (redirectTester st))) st
  end.

Definition choose_create_code (i : nat) (st : App) : App :=
  match nth_error create_code_options i with
  | Some c =>
      set_createForm
        (CreateLinkPayload.mk (CreateLinkPayload.target_url (createForm st))
           (CreateLinkPayload.link_id (createForm st)) (Some c)) st
  | None => st
  end.

Definition choose_upd_code (i : nat) (st : App) : App :=
  match nth_error upd_code_options i with
  | Some c => set_updCode c st
  | None => st
  end.

Fixpoint remove_nth {A : Type} (i : nat) (l : list A) : list A :=
  match l, i with
  | [], _ => []
  | _ :: l', O => l'
  | x :: l', S i' => x :: remove_nth i' l'
  end.

Section PageSteps.

Variable VITE_API_BASE : option jsstring.

Definition click (b : Button) (p : Page) : Page :=
  match b with
  | BtnCreate =>
      let st := onCreate_begin (app p) in
      mkPage st (pending p ++ [RunCreate (onCreate_payload st)])
  | BtnUpdate =>
      let st := onUpdate_begin (app p) in
      mkPage st (pending p ++ [RunUpdate (updLinkId st) (updToken st) (onUpdate_data st)])
  | BtnDelete =>
      let st := onDelete_begin (app p) in
      mkPage st (pending p ++ [RunDelete (delLinkId st) (delToken st)])
  | BtnTest =>
      let st := testRedirect_begin (app p) in
      mkPage st (pending p ++ [RunTest (linkId (redirectTester st))])
  end.

(** The rest of a waiting call, once its [fetch] has settled with
    [answer]. *)
Definition resume (inv : Invocation) (answer : completion Response) (st : App) : App :=
  match inv with
  | RunCreate payload =>
      onCreate_end (createLink VITE_API_BASE (fun _ => answer) payload) st
  | RunUpdate linkId token data =>
      onUpdate_end (updateLink VITE_API_BASE (fun _ => answer) linkId token data) st
  | RunDelete linkId token =>
      onDelete_end (deleteLink VITE_API_BASE (fun _ => answer) linkId token) st
  | RunTest testedId =>
      testRedirect_end (req <- testRedirect_request VITE_API_BASE testedId ;; answer) st
  end.

Definition step (p : Page) (ev : Event) : Page :=
  match ev with
  | Typed f s => mkPage (typed f s (app p)) (pending p)
  | ChooseCreateCode i => mkPage (choose_create_code i (app p)) (pending p)
  | ChooseUpdCode i => mkPage (choose_upd_code i (app p)) (pending p)
  | Click b => click b p
  | Settle i answer =>
      match nth_error (pending p) i with
      | Some inv => mkPage (resume inv answer (app p)) (remove_nth i (pending p))
      | None => p
      end
  end.

Definition run (p : Page) (evs : list Event) : Page := fold_left step evs p.

End PageSteps.

Definition start : Page := mkPage initial [].

(** [reachable base p]: the page can get to [p] from its start. *)
Definition reachable (base : option jsstring) (p : Page) : Prop :=
  exists evs, run base start evs = p.

(* ================================================================== *)
(** * Part V.  Vocabulary of the statements, and sample data           *)
(* ================================================================== *)

(** The header list without the headers named [name]. *)
Definition without_header (name : jsstring) (h : headers) : headers :=
  filter (fun p => negb (jsstring_eqb (lowercase name) (lowercase (fst p)))) h.

(** The edit token a call is made with, and the same call made with
    another token. *)
Definition call_token (c : ApiCall) : option jsstring :=
  match c with
  | CallCreate _ => None
  | CallUpdate _ token _ => Some token
  | CallDelete _ token => Some token
  end.

Definition with_token (token : jsstring) (c : ApiCall) : ApiCall :=
  match c with
  | CallCreate payload => CallCreate payload
  | CallUpdate linkId _ data => CallUpdate linkId token data
  | CallDelete linkId _ => CallDelete linkId token
  end.

(** The HTTP request of a call: the request the Request constructor
    makes of what the call hands to [fetch].  It is the request that is
    sent (the browser adds headers of its own, such as Origin and
    Content-Length, which no script can set). *)
Definition sent_request (base : option jsstring) (c : ApiCall) : completion Request :=
  req <- request_of base c ;; new_Request req.

(** The members of the stored document of a link, as the data model of
    docs/REQUIREMENTS.md lists them. *)
Definition stored_document_members : list jsstring :=
  [js "link_id"; js "target_url"; js "redirect_code"; js "created_at";
   js "updated_at"; js "edit_token_hash"; js "active"; js "expires_at"].

(** The same link with another token hash, and the [LinkOut] a link
    with a target is read as. *)
Definition with_edit_token_hash (h : jsstring) (l : Link.t) : Link.t :=
  Link.mk (Link.id l) (Link.target_url l) (Link.redirect_code l) (Link.created_at l)
    (Link.updated_at l) h (Link.active l) (Link.expires_at l).

Definition as_LinkOut (target : jsstring) (l : Link.t) : LinkOut.t :=
  LinkOut.mk (Link.id l) target (code_number (Link.redirect_code l)) (Link.created_at l)
    (Link.updated_at l) (Link.active l) (Link.expires_at l).

(** The example document of docs/REQUIREMENTS.md as a link. *)
Definition example_link : Link.t :=
  Link.mk (js "aZ8kL2") (Some (js "https://example.com/abc/xyz")) C302
    (js "2025-06-29T14:35:00Z") (js "2025-06-29T14:35:00Z")
    (js "sha256-hash-of-edit-token") true None.

(** The names of the members of the declared types. *)
Definition LinkOut_members : list jsstring :=
  [js "link_id"; js "target_url"; js "redirect_code"; js "created_at";
   js "updated_at"; js "active"; js "expires_at"].

Definition CreateLinkResponse_members : list jsstring :=
  [js "link_id"; js "short_url"; js "edit_token"; js "redirect_code"; js "created_at"].


Definition allowed_codes : list Z := [301; 302; 307; 308]%Z.

(** A create payload whose request carries one of the allowed redirect
    codes: the member redirect_code is set, and the body of the request
    built from the payload has it as a number of [allowed_codes]. *)
Definition carries_allowed_code (base : option jsstring) (payload : CreateLinkPayload.t)
  : Prop :=
  exists c doc,
    CreateLinkPayload.redirect_code payload = Some c
    /\ req_body (createLink_request base payload) = Some (JSON_text doc)
    /\ get_prop (js "redirect_code") doc = Number (code_number c)
    /\ In (code_number c) allowed_codes.

(** The create form holds a redirect code, and so does every create call
    that is waiting. *)
Definition code_is_set (payload : CreateLinkPayload.t) : Prop :=
  exists c, CreateLinkPayload.redirect_code payload = Some c.

Definition codes_are_set (p : Page) : Prop :=
  code_is_set (createForm (app p))
  /\ forall payload, In (RunCreate payload) (pending p) -> code_is_set payload.

(** *** Outcomes of the three calls *)

(** The reading of C5 on one call: the call throws exactly when the
    response is not ok, and on an ok response it returns a value. *)
Definition throws_exactly_when_not_ok (outcome : completion value) (res : Response)
  : Prop :=
  (is_returned outcome = false <-> res_ok res = false)
  /\ (res_ok res = true -> exists j, outcome = Returned j).

(** How the outcome of a call follows what its [fetch] settles with: a
    response that is not ok, with body text [msg], makes the call throw
    [Error(msg)]; an ok response whose body parses to [j] makes it return
    [j]; the call returns a value in that second case only; and what
    [fetch], [text()] or [json()] throw, the call throws. *)
Definition follows_response (outcome : completion value) (answer : completion Response)
  : Prop :=
  (forall res msg,
      answer = Returned res -> res_ok res = false -> res_text res = Returned msg ->
      outcome = Threw (new_Error msg))
  /\ (forall res j,
        answer = Returned res -> res_ok res = true -> res_json res = Returned j ->
        outcome = Returned j)
  /\ (forall j,
        outcome = Returned j ->
        exists res, answer = Returned res /\ res_ok res = true /\ res_json res = Returned j)
  /\ (forall e, answer = Threw e -> outcome = Threw e)
  /\ (forall res e,
        answer = Returned res -> res_ok res = false -> res_text res = Threw e ->
        outcome = Threw e)
  /\ (forall res e,
        answer = Returned res -> res_ok res = true -> res_json res = Threw e ->
        outcome = Threw e).

(** Sample answers of the server. *)

(** An answer whose body is the JSON document [doc]. *)
Definition json_response (code : Z) (doc : value) : Response :=
  {| res_status := code;
     res_headers := [(js "content-type", js "application/json")];
     res_text := Returned (JSON_text doc);
     res_json := Returned doc |}.

(** An answer with an empty body. *)
Definition empty_response (code : Z) (h : headers) : Response :=
  {| res_status := code;
     res_headers := h;
     res_text := Returned [];
     res_json := Threw (new_SyntaxError (js "Unexpected end of JSON input")) |}.

(** 201 to a create. *)
Definition created_201 : Response :=
  json_response 201
    (CreateLinkResponse.to_value
       (CreateLinkResponse.mk (js "promo") (js "http://localhost:8000/promo")
          (js "Zk3v9QmT1xLp7Rw2Yb5Nc8Hd") 301 (js "2025-06-29T14:35:00Z"))).

(** 409 to a create whose alias is taken. *)
Definition conflict_409 : Response :=
  json_response 409 (Object [(js "detail", Str (js "link_id already exists"))]).

(** 204 to a delete, with an empty body. *)
Definition no_content_204 : Response := empty_response 204 [].

(** The origin of the page when the dev server serves it (UI README:
    http://localhost:5173), and the headers the backend, which allows
    that origin by default, adds to its answers to a request from it. *)
Definition ui_origin : jsstring := js "http://localhost:5173".

Definition cors_headers : headers :=
  [(js "access-control-allow-origin", ui_origin); (js "vary", js "Origin")].

(** 301 to a GET of a live link. *)
Definition moved_301 : Response :=
  empty_response 301
    ([(js "location", js "https://a.example"); (js "cache-control", js "max-age=3600")]
     ++ cors_headers).

(** 410 to a GET of a retired link. *)
Definition gone_410 : Response := empty_response 410 cors_headers.

(** *** Results and errors on the page *)

(** At most one of a result and an error is set (is not [null]). *)
Definition at_most_one_set (result : value) (error : option jsstring) : Prop :=
  result = Null \/ error = None.

(** The handler a waiting call belongs to. *)
Definition handler_of (inv : Invocation) : Button :=
  match inv with
  | RunCreate _ => BtnCreate
  | RunUpdate _ _ _ => BtnUpdate
  | RunDelete _ _ => BtnDelete
  | RunTest _ => BtnTest
  end.

Definition Button_eqb (a b : Button) : bool :=
  match a, b with
  | BtnCreate, BtnCreate | BtnUpdate, BtnUpdate
  | BtnDelete, BtnDelete | BtnTest, BtnTest => true
  | _, _ => false
  end.

(** The number of waiting calls of the handler of button [b]. *)
Definition waiting (b : Button) (calls : list Invocation) : nat :=
  List.length (filter (fun inv => Button_eqb (handler_of inv) b) calls).

(** [no_overlap base p evs]: in the run of [evs] from [p], no button is
    clicked while a call of its handler is still waiting. *)
Fixpoint no_overlap (base : option jsstring) (p : Page) (evs : list Event) : bool :=
  match evs with
  | [] => true
  | ev :: rest =>
      match ev with
      | Click b => Nat.eqb (waiting b (pending p)) 0
      | _ => true
      end && no_overlap base (step base p ev) rest
  end.

(** The result and the error of the handler of a button ([testRedirect]
    has no such pair). *)
Definition result_of (b : Button) (st : App) : value :=
  match b with
  | BtnCreate => createResult st
  | BtnUpdate => updResult st
  | BtnDelete => delResult st
  | BtnTest => Null
  end.

Definition error_of (b : Button) (st : App) : option jsstring :=
  match b with
  | BtnCreate => createError st
  | BtnUpdate => updError st
  | BtnDelete => delError st
  | BtnTest => None
  end.

(** What the call of a waiting invocation comes to, once its [fetch] has
    settled with [answer]. *)
Definition outcome_of (base : option jsstring) (inv : Invocation)
  (answer : completion Response) : completion value :=
  match inv with
  | RunCreate payload => createLink base (fun _ => answer) payload
  | RunUpdate linkId token data => updateLink base (fun _ => answer) linkId token data
  | RunDelete linkId token => deleteLink base (fun _ => answer) linkId token
  | RunTest _ => Returned Null
  end.

(** Between two runs of a handler its pair is in order: with no call
    waiting at most one of the two is set, with one call waiting both are
    [null], and there is never more than one call waiting. *)
Definition pair_in_order (b : Button) (p : Page) : Prop :=
  (waiting b (pending p) <= 1)%nat
  /\ (waiting b (pending p) = 0%nat ->
      at_most_one_set (result_of b (app p)) (error_of b (app p)))
  /\ (waiting b (pending p) = 1%nat ->
      result_of b (app p) = Null /\ error_of b (app p) = None).

(** Create is clicked twice in a row; the first request is answered 201,
    the second one 409. *)
Definition double_click : list Event :=
  [Typed CreateTargetUrl (js "https://a.example");
   Typed CreateAlias (js "promo");
   Click BtnCreate;
   Click BtnCreate;
   Settle 0 (Returned created_201);
   Settle 0 (Returned conflict_409)].

(** *** The redirect tester *)

(** The page with [linkId] typed into the tester. *)
Definition tester_with (linkId : jsstring) : App :=
  typed TesterLinkId linkId initial.

(** A server that answers every request with [res]. *)
Definition answering (res : Response) : Request -> completion Response :=
  fun _ => Returned res.

(** What a page can read of the Location header of an answer: the
    header itself when page and API have one origin; for a page of
    another origin, the header when the answer exposes it, in
    Access-Control-Expose-Headers by name or by an asterisk, and nothing
    otherwise. *)
Definition exposes (name : jsstring) (res : Response) : bool :=
  existsb (same_name name) (cors_exposed_header_names (res_headers res)).

Definition readable_location (tainting : Tainting) (res : Response) : option jsstring :=
  match tainting with
  | Basic => headers_get (js "Location") (res_headers res)
  | Cors _ =>
      if exposes (js "Location") res
      then headers_get (js "Location") (res_headers res)
      else None
  end.

(** *** Link ids in request paths *)

(** The code units [encodeURIComponent] writes: the unreserved ones and
    the percent sign. *)
Definition uri_safe (c : N) : bool := uri_unreserved c || N.eqb c 37.

(** Code units above the space and below the surrogates: they pass the
    first stages of the URL parser unchanged. *)
Definition ordinary (c : N) : bool := ((33 <=? c) && (c <? 55296))%N.

(** The reading of C9 on one encoded id [e] put after [prefix]: the id
    is one segment of the path, the last one, after the segments [before];
    nothing of it is read as a query or a fragment. *)
Definition is_last_segment (prefix : jsstring) (before : list jsstring) (e : jsstring)
  : Prop :=
  url_path (prefix ++ e) = (before ++ [e], []).

(** *** Link ids and code units *)

(** String.prototype.isWellFormed: no surrogate stands alone. *)
Fixpoint is_well_formed (s : jsstring) : bool :=
  match s with
  | [] => true
  | c :: rest =>
      if is_trailing_surrogate c then false
      else if is_leading_surrogate c then
        match rest with
        | d :: rest' => is_trailing_surrogate d && is_well_formed rest'
        | [] => false
        end
      else is_well_formed rest
  end.

(** The strings whose elements are code units, that is, below 2^16. *)
Definition code_units (s : jsstring) : bool := forallb (fun c => (c <? 65536)%N) s.

(** The characters of a link id of the service (docs/REQUIREMENTS.md:
    letters, digits, the underscore and the hyphen). *)
Definition is_link_id_char (c : N) : bool :=
  is_alnum c || N.eqb c 95 || N.eqb c 45.

(** The link id a call puts into its URL. *)
Definition call_linkId (c : ApiCall) : option jsstring :=
  match c with
  | CallCreate _ => None
  | CallUpdate linkId _ _ => Some linkId
  | CallDelete linkId _ => Some linkId
  end.

(** *** The calls a click makes *)

(** The call that the handler of button [b] makes from the variables
    [st], with the arguments it passes. *)
Definition called (b : Button) (st : App) : Invocation :=
  match b with
  | BtnCreate => RunCreate (onCreate_payload st)
  | BtnUpdate => RunUpdate (updLinkId st) (updToken st) (onUpdate_data st)
  | BtnDelete => RunDelete (delLinkId st) (delToken st)
  | BtnTest => RunTest (linkId (redirectTester st))
  end.

(** The request a call hands to [fetch], if it gets that far. *)
Definition request_of_invocation (base : option jsstring) (inv : Invocation)
  : completion Request :=
  match inv with
  | RunCreate payload => Returned (createLink_request base payload)
  | RunUpdate linkId token data => updateLink_request base linkId token data
  | RunDelete linkId token => deleteLink_request base linkId token
  | RunTest testedId => testRedirect_request base testedId
  end.

(** The card of the page an input belongs to, named by its button. *)
Definition panel_of (f : TextField) : Button :=
  match f with
  | CreateTargetUrl | CreateAlias => BtnCreate
  | UpdLinkId | UpdToken | UpdTarget | UpdNewAlias => BtnUpdate
  | DelLinkId | DelToken => BtnDelete
  | TesterLinkId => BtnTest
  end.

(** What the user has entered: the variables bound to inputs and
    selects. *)
Record Inputs : Type := mkInputs {
  in_createForm : CreateLinkPayload.t;
  in_updLinkId : jsstring;
  in_updToken : jsstring;
  in_updTarget : jsstring;
  in_updCode : UpdCode;
  in_updNewAlias : jsstring;
  in_delLinkId : jsstring;
  in_delToken : jsstring;
  in_testerLinkId : jsstring
}.

Definition inputs (st : App) : Inputs :=
  {| in_createForm := createForm st;
     in_updLinkId := updLinkId st;
     in_updToken := updToken st;
     in_updTarget := updTarget st;
     in_updCode := updCode st;
     in_updNewAlias := updNewAlias st;
     in_delLinkId := delLinkId st;
     in_delToken := delToken st;
     in_testerLinkId := linkId (redirectTester st) |}.

(** What the handlers write: results, errors, and the two lines of the
    tester. *)
Record Outputs : Type := mkOutputs {
  out_createResult : value;
  out_createError : option jsstring;
  out_updResult : value;
  out_updError : option jsstring;
  out_delResult : value;
  out_delError : option jsstring;
  out_testerStatus : jsstring;
  out_testerLocation : jsstring
}.

Definition outputs (st : App) : Outputs :=
  {| out_createResult := createResult st;
     out_createError := createError st;
     out_updResult := updResult st;
     out_updError := updError st;
     out_delResult := delResult st;
     out_delError := delError st;
     out_testerStatus := status (redirectTester st);
     out_testerLocation := location (redirectTester st) |}.

(** *** The markup *)

(** The blocks [{#if createError}] and [{#if createResult}] of a card,
    and their likes in the update and delete cards: a block is rendered
    when its variable is truthy. *)
Definition shows_error (b : Button) (st : App) : bool :=
  match error_of b st with
  | Some s => truthy_string s
  | None => false
  end.

Definition shows_result (b : Button) (st : App) : bool :=
  truthy (result_of b st).

(** The paragraph of an error block. *)
Definition error_line (b : Button) (st : App) : option jsstring :=
  match error_of b st with
  | Some s => if truthy_string s then Some (js "Error: " ++ s) else None
  | None => None
  end.

(** The line of the tester, which is always rendered. *)
Definition tester_line (st : App) : jsstring :=
  js "Status: " ++ status (redirectTester st)
  ++ js " | Location: " ++ location (redirectTester st).

(** The events in which the user enters something, as opposed to the
    clicks and the answers, which run handler code. *)
Definition is_input_event (ev : Event) : bool :=
  match ev with
  | Typed _ _ | ChooseCreateCode _ | ChooseUpdCode _ => true
  | Click _ | Settle _ _ => false
  end.

(* ================================================================== *)
(** * Part VI.  Theorems                                               *)
(* ================================================================== *)

(** ** The platform on small inputs *)

Example encodeURIComponent_reserved :
  encodeURIComponent (js "a/b?c#d") = Returned (js "a%2Fb%3Fc%23d").
Proof. reflexivity. Qed.

Example encodeURIComponent_two_octets :
  encodeURIComponent [233%N] = Returned (js "%C3%A9").
Proof. reflexivity. Qed.

Example encodeURIComponent_surrogate_pair :
  encodeURIComponent [55357; 56832]%N = Returned (js "%F0%9F%98%80").
Proof. reflexivity. Qed.

Example encodeURIComponent_lone_surrogate :
  encodeURIComponent [55357%N] = Threw URI_malformed.
Proof. reflexivity. Qed.

Example JSON_stringify_drops_undefined :
  JSON_stringify (Object [(js "a", Number 301); (js "b", Undefined);
                          (js "c", Array [Undefined; Bool true])])
  = JSON_stringify (Object [(js "a", Number 301); (js "c", Array [Null; Bool true])]).
Proof. reflexivity. Qed.

Example JSON_stringify_empty_object : JSON_stringify (Object []) = Some (js "{}").
Proof. reflexivity. Qed.

Example JSON_stringify_escapes :
  JSON_stringify (Str [8; 9; 10; 12; 13; 34; 92; 1]%N)
  = Some ([34; 92; 98; 92; 116; 92; 110; 92; 102; 92; 114; 92; 34; 92; 92]%N
          ++ [92; 117; 48; 48; 48; 49; 34]%N).
Proof. reflexivity. Qed.

Example new_Request_normalizes :
  new_Request
    (mkRequest (js "http://localhost:8000/x") (js "post")
       [(js "X-A", [32; 49; 9]%N); (js "Cookie", js "c=1"); (js "x-a", js "2")]
       (Some (js "hello")) Follow)
  = Returned
      (mkRequest (js "http://localhost:8000/x") (js "POST")
         [(js "X-A", js "1"); (js "X-A", js "2");
          (js "Content-Type", js "text/plain;charset=UTF-8")]
         (Some (js "hello")) Follow).
Proof. reflexivity. Qed.

Example new_Request_refuses_a_body_on_GET :
  new_Request (mkRequest (js "http://localhost:8000/x") (js "GET") [] (Some (js "hello")) Follow)
  = Threw request_TypeError.
Proof. reflexivity. Qed.

Example cors_filtered_hides_location :
  map fst
    (res_headers
       (cors_filtered
          (mkResponse 404
             [(js "Location", js "/x"); (js "Content-Type", js "text/plain");
              (js "X-Request-Id", js "7");
              (js "Access-Control-Expose-Headers", js "x-request-id")]
             (Returned []) (Returned Null))))
  = [js "Content-Type"; js "X-Request-Id"].
Proof. reflexivity. Qed.

Example preflight_of_a_delete :
  preflight_request
    (mkRequest (js "http://localhost:8000/api/links/promo") (js "DELETE")
       [(js "X-Edit-Token", js "s3cret")] None Follow)
  = mkRequest (js "http://localhost:8000/api/links/promo") (js "OPTIONS")
      [(js "Accept", js "*/*"); (js "Access-Control-Request-Method", js "DELETE");
       (js "Access-Control-Request-Headers", js "x-edit-token")]
      None Follow.
Proof. reflexivity. Qed.

Example json_content_type_needs_a_preflight :
  needs_preflight
    (mkRequest (js "http://localhost:8000/api/links") (js "POST")
       [(js "Content-Type", js "application/json")] (Some (js "{}")) Follow)
  = true
  /\ needs_preflight
       (mkRequest (js "http://localhost:8000/promo") (js "GET") [] None Manual)
     = false.
Proof. split; reflexivity. Qed.

Example url_path_dot_segments :
  url_path (js "/api/./links/%2E%2e/x?y/z") = ([js "api"; js "x"], js "?y/z").
Proof. reflexivity. Qed.

Example headers_get_ignores_case :
  headers_get (js "Location") [(js "content-type", js "text/plain"); (js "location", js "/x")]
  = Some (js "/x").
Proof. reflexivity. Qed.

Example Error_toString_of_empty_message :
  error_text (new_Error []) = js "Error".
Proof. reflexivity. Qed.

(** ** Strings *)

Lemma jsstring_eqb_eq (a b : jsstring) : jsstring_eqb a b = true <-> a = b.
Proof.
  revert b; induction a as [|x a IH]; intros [|y b]; simpl;
    try (split; [discriminate | discriminate]); try tauto.
  rewrite andb_true_iff, N.eqb_eq, IH.
  split; [intros [-> ->]; reflexivity | intros H; injection H; auto].
Qed.



Lemma truthy_string_nonempty (s : jsstring) : truthy_string s = true <-> s <> [].
Proof. destruct s; simpl; split; congruence. Qed.

(** ** The requests of lib/api.ts *)

(** On the wire the value of a header is its normalized form.  For an
    edit token of the service, which is made of letters and digits, that
    is the token itself. *)
Lemma alphanumeric_token_on_the_wire (token : jsstring) :
  forallb is_alnum token = true ->
  header_value_on_the_wire token = Some token.
Proof.
  intros Hall.
  assert (Hrange : forall c, is_alnum c = true -> (48 <= c <= 122)%N).
  { intros c. unfold is_alnum.
    repeat rewrite orb_true_iff. repeat rewrite andb_true_iff.
    repeat rewrite N.leb_le. lia. }
  assert (Hws : forall c, is_alnum c = true -> is_http_whitespace c = false).
  { intros c Hc. apply Hrange in Hc. unfold is_http_whitespace.
    repeat rewrite orb_false_iff. repeat rewrite N.eqb_neq. lia. }
  assert (Hlead : strip_leading_whitespace token = token).
  { destruct token as [|c t]; simpl; [reflexivity|].
    simpl in Hall. apply andb_true_iff in Hall. rewrite (Hws c (proj1 Hall)).
    reflexivity. }
  assert (Htrail : strip_trailing_whitespace token = token).
  { clear Hlead. induction token as [|c t IH]; simpl; [reflexivity|].
    simpl in Hall. apply andb_true_iff in Hall. destruct Hall as [Hc Ht].
    rewrite (IH Ht). destruct t; [rewrite (Hws c Hc)|]; reflexivity. }
  unfold header_value_on_the_wire, normalize_header_value. rewrite Hlead, Htrail.
  assert (Hvalid : forallb
            (fun c => (c <=? 255)%N && negb (N.eqb c 0 || N.eqb c 10 || N.eqb c 13))
            token = true).
  { apply forallb_forall. intros c Hin.
    rewrite forallb_forall in Hall. pose proof (Hrange c (Hall c Hin)) as Hr.
    apply andb_true_iff. split; [apply N.leb_le; lia|].
    apply negb_true_iff. repeat rewrite orb_false_iff. repeat rewrite N.eqb_neq. lia. }
  rewrite Hvalid. reflexivity.
Qed.

(** ** The bodies built by App.svelte *)

Lemma keys_assign_prop_fresh (k : jsstring) (x : value) (props : list (jsstring * value)) :
  ~ In k (map fst props) -> assign_prop k x props = props ++ [(k, x)].
Proof.
  induction props as [|[k' x'] props IH]; simpl; intros Hnin; [reflexivity|].
  destruct (jsstring_eqb k k') eqn:E.
  - apply jsstring_eqb_eq in E. subst. tauto.
  - rewrite IH; tauto.
Qed.



(** C8.  The body of the create request has a member link_id exactly when
    the alias field of the form holds a non-empty string, and then the
    member is that string.  With the field empty the payload's link_id is
    [undefined], and the serialized body has no link_id member at all. *)
Theorem create_body_has_link_id_iff_alias_given (base : option jsstring) (st : App) :
  exists doc,
    SerializeJSONProperty (CreateLinkPayload.to_value (onCreate_payload st)) = Some doc
    /\ req_body (createLink_request base (onCreate_payload st)) = Some (JSON_text doc)
    /\ (CreateLinkPayload.link_id (createForm st) = Some [] ->
        CreateLinkPayload.link_id (onCreate_payload st) = None
        /\ has_key (js "link_id") doc = false)
    /\ (has_key (js "link_id") doc = true <->
        exists alias,
          CreateLinkPayload.link_id (createForm st) = Some alias /\ alias <> [])
    /\ (forall alias,
          CreateLinkPayload.link_id (createForm st) = Some alias -> alias <> [] ->
          get_prop (js "link_id") doc = Str alias)
    /\ get_prop (js "target_url") doc = Str (CreateLinkPayload.target_url (createForm st)).
Proof.
  unfold createLink_request, onCreate_payload, JSON_stringify; simpl req_body.
  destruct (createForm st) as [t [[|a0 a]|] [c|]]; cbn;
    (eexists; split; [reflexivity|]; split; [reflexivity|];
     repeat split; intros;
     try discriminate; try reflexivity; try congruence;
     try (match goal with
          | H : exists _, _ /\ _ |- _ => destruct H as [? [? ?]]; congruence
          | H : Some _ = Some _ |- _ => injection H as <-; reflexivity
          | |- exists _, _ => eexists; split; [reflexivity | discriminate]
          end)).
Qed.

(** ** Redirect codes of create requests *)

Lemma code_number_allowed (c : RedirectCode) : In (code_number c) allowed_codes.
Proof. destruct c; simpl; tauto. Qed.

Lemma create_code_options_numbers : map code_number create_code_options = allowed_codes.
Proof. reflexivity. Qed.

Lemma code_is_set_carries (base : option jsstring) (payload : CreateLinkPayload.t) :
  code_is_set payload -> carries_allowed_code base payload.
Proof.
  intros [c Hc]. destruct payload as [t l r]. simpl in Hc. subst r.
  unfold carries_allowed_code, createLink_request, JSON_stringify; simpl req_body.
  exists c. destruct l as [l|].
  - exists (Object [(js "target_url", Str t); (js "link_id", Str l);
                    (js "redirect_code", Number (code_number c))]).
    repeat split; try reflexivity. apply code_number_allowed.
  - exists (Object [(js "target_url", Str t);
                    (js "redirect_code", Number (code_number c))]).
    repeat split; try reflexivity. apply code_number_allowed.
Qed.

Lemma In_remove_nth {A : Type} (x : A) (i : nat) (l : list A) :
  In x (remove_nth i l) -> In x l.
Proof.
  revert i; induction l as [|y l IH]; intros [|i]; simpl; auto.
  intros [H|H]; [left; exact H | right; eapply IH; exact H].
Qed.

Lemma createForm_resume (base : option jsstring) (inv : Invocation)
  (answer : completion Response) (st : App) :
  createForm (resume base inv answer st) = createForm st.
Proof.
  destruct inv; simpl.
  - destruct (createLink _ _ _); reflexivity.
  - destruct (updateLink _ _ _ _ _); reflexivity.
  - destruct (deleteLink _ _ _ _); reflexivity.
  - unfold testRedirect_end. destruct (bind _ _); reflexivity.
Qed.

Lemma codes_are_set_step (base : option jsstring) (p : Page) (ev : Event) :
  codes_are_set p -> codes_are_set (step base p ev).
Proof.
  intros [Hform Hwait]. destruct ev as [f s | i | i | b | i answer]; simpl.
  - split; [|exact Hwait]. destruct Hform as [c Hc].
    destruct f; simpl; try (exists c; exact Hc).
  - split; [|exact Hwait]. unfold choose_create_code.
    destruct (nth_error create_code_options i) as [c|]; simpl;
      [exists c; reflexivity | exact Hform].
  - split; [|exact Hwait]. unfold choose_upd_code.
    destruct (nth_error upd_code_options i); exact Hform.
  - destruct b; simpl; (split; [exact Hform|]); intros payload Hin;
      apply in_app_or in Hin; destruct Hin as [Hin | [Heq | []]];
      try (apply Hwait; exact Hin); try discriminate.
    injection Heq as <-. destruct Hform as [c Hc]. exists c. exact Hc.
  - destruct (nth_error (pending p) i) as [inv|]; simpl; [|split; assumption].
    split.
    + unfold code_is_set. simpl app. rewrite createForm_resume. exact Hform.
    + intros payload Hin. apply Hwait. eapply In_remove_nth. exact Hin.
Qed.

Lemma codes_are_set_run (base : option jsstring) (evs : list Event) (p : Page) :
  codes_are_set p -> codes_are_set (run base p evs).
Proof.
  revert p; induction evs as [|ev evs IH]; intros p Hp; simpl; [exact Hp|].
  apply IH. apply codes_are_set_step. exact Hp.
Qed.

(** C6.  The create form starts with redirect code 301 and its select
    offers 301, 302, 307 and 308.  In every state the page can reach, the
    request that a click on Create sends, and the request of every create
    call that is still waiting, carry a redirect_code that is one of
    these four numbers. *)
Theorem create_requests_carry_an_allowed_code (base : option jsstring) (p : Page) :
  reachable base p ->
  CreateLinkPayload.redirect_code (createForm initial) = Some C301
  /\ map code_number create_code_options = allowed_codes
  /\ carries_allowed_code base (onCreate_payload (onCreate_begin (app p)))
  /\ forall payload, In (RunCreate payload) (pending p) ->
                     carries_allowed_code base payload.
Proof.
  intros [evs <-].
  assert (Hinv : codes_are_set (run base start evs)).
  { apply codes_are_set_run. split; [exists C301; reflexivity | intros ? []]. }
  destruct Hinv as [[c Hc] Hwait].
  split; [reflexivity | split; [reflexivity | split]].
  - apply code_is_set_carries. exists c. exact Hc.
  - intros payload Hin. apply code_is_set_carries. apply Hwait. exact Hin.
Qed.

Lemma create_requests_carry_an_allowed_code_witness :
  carries_allowed_code None
    (onCreate_payload (onCreate_begin
       (app (run None start [Typed CreateTargetUrl (js "https://a.example");
                             ChooseCreateCode 1])))).
Proof.
  destruct (@create_requests_carry_an_allowed_code None
              (run None start [Typed CreateTargetUrl (js "https://a.example");
                               ChooseCreateCode 1])
              (ex_intro _ [Typed CreateTargetUrl (js "https://a.example");
                           ChooseCreateCode 1] eq_refl))
    as [_ [_ [H _]]].
  exact H.
Defined.

(** ** Outcomes of the three calls *)

Lemma call_without_request_throws (base : option jsstring)
  (fetch : Request -> completion Response) (c : ApiCall) (e : JsError) :
  request_of base c = Threw e -> perform base fetch c = Threw e.
Proof.
  destruct c; simpl; intros H; [discriminate | |].
  - unfold updateLink. rewrite H. reflexivity.
  - unfold deleteLink. rewrite H. reflexivity.
Qed.

Lemma call_after_request (base : option jsstring)
  (fetch : Request -> completion Response) (c : ApiCall) (req : Request) :
  request_of base c = Returned req ->
  perform base fetch c =
  (res <- fetch req ;;
   if negb (res_ok res) then msg <- res_text res ;; Threw (new_Error msg)
   else res_json res).
Proof.
  destruct c; simpl; intros H.
  - injection H as <-. reflexivity.
  - unfold updateLink. rewrite H. reflexivity.
  - unfold deleteLink. rewrite H. reflexivity.
Qed.

(** C5, as amended.  For every call of [createLink], [updateLink] or
    [deleteLink] that hands a request to [fetch]: when [fetch] resolves
    with a response that is not ok, the call throws an Error whose
    message is the text of the response body; when it resolves with an ok
    response whose body parses as JSON, the call returns the parsed value
    and does not throw; and the call returns a value in that case only. *)
Theorem api_call_follows_response (base : option jsstring)
  (fetch : Request -> completion Response) (c : ApiCall) (req : Request) :
  request_of base c = Returned req ->
  follows_response (perform base fetch c) (fetch req).
Proof.
  intros Hreq. rewrite (call_after_request base fetch c Hreq).
  unfold follows_response. repeat split.
  - intros res msg -> Hok Htext. simpl. rewrite Hok, Htext. reflexivity.
  - intros res j -> Hok Hjson. simpl. rewrite Hok. exact Hjson.
  - intros j H. destruct (fetch req) as [res|e]; simpl in H; [|discriminate].
    exists res. destruct (res_ok res); simpl in H.
    + repeat split. exact H.
    + destruct (res_text res); discriminate.
  - intros e ->. reflexivity.
  - intros res e -> Hok Htext. simpl. rewrite Hok, Htext. reflexivity.
  - intros res e -> Hok Hjson. simpl. rewrite Hok. exact Hjson.
Qed.

Lemma api_call_follows_response_witness :
  follows_response
    (perform None (fun _ => Returned conflict_409)
       (CallUpdate (js "promo") (js "s3cret") (Object [])))
    (Returned conflict_409).
Proof.
  apply (@api_call_follows_response None (fun _ => Returned conflict_409)
           (CallUpdate (js "promo") (js "s3cret") (Object []))
           (mkRequest (js "http://localhost:8000/api/links/promo") (js "PATCH")
              [(js "Content-Type", js "application/json");
               (js "X-Edit-Token", js "s3cret")]
              (Some (js "{}")) Follow)).
  reflexivity.
Defined.

(** C5 as it is worded does not hold: a call throws on an ok response
    whose body is not JSON.  Here [deleteLink] is answered 204 with an
    empty body. *)
Lemma ok_response_without_json_makes_the_call_throw :
  ~ throws_exactly_when_not_ok
      (deleteLink None (fun _ => Returned no_content_204) (js "promo") (js "s3cret"))
      no_content_204.
Proof.
  intros [[Hthrow _] _].
  assert (H : res_ok no_content_204 = false) by (apply Hthrow; reflexivity).
  discriminate H.
Qed.

(** A call also throws when [fetch] itself rejects, with no response at
    all. *)
Lemma network_error_makes_the_call_throw (base : option jsstring) (c : ApiCall) :
  exists e, perform base (fun _ => Threw network_error) c = Threw e.
Proof.
  destruct (request_of base c) as [req|e] eqn:Hreq.
  - exists network_error. rewrite (call_after_request base _ c Hreq). reflexivity.
  - exists e. apply call_without_request_throws. exact Hreq.
Qed.

(** ** Results and errors on the page *)

Lemma Button_eqb_eq (a b : Button) : Button_eqb a b = true <-> a = b.
Proof. destruct a, b; simpl; split; congruence. Qed.

Lemma waiting_app (b : Button) (calls : list Invocation) (inv : Invocation) :
  waiting b (calls ++ [inv]) =
  (waiting b calls + if Button_eqb (handler_of inv) b then 1 else 0)%nat.
Proof.
  unfold waiting. rewrite filter_app, length_app. simpl.
  destruct (Button_eqb (handler_of inv) b); reflexivity.
Qed.

Lemma waiting_remove_nth (b : Button) (i : nat) (calls : list Invocation)
  (inv : Invocation) :
  nth_error calls i = Some inv ->
  waiting b calls =
  (waiting b (remove_nth i calls) + if Button_eqb (handler_of inv) b then 1 else 0)%nat.
Proof.
  revert i; induction calls as [|x calls IH]; intros [|i] H; simpl in H; try discriminate.
  - injection H as ->. unfold waiting. simpl.
    destruct (Button_eqb (handler_of inv) b); simpl; lia.
  - specialize (IH i H). unfold waiting in *. simpl.
    destruct (Button_eqb (handler_of x) b); simpl; lia.
Qed.

Lemma pair_typed (b : Button) (f : TextField) (s : jsstring) (st : App) :
  result_of b (typed f s st) = result_of b st
  /\ error_of b (typed f s st) = error_of b st.
Proof. destruct b, f; split; reflexivity. Qed.

Lemma pair_choose_create_code (b : Button) (i : nat) (st : App) :
  result_of b (choose_create_code i st) = result_of b st
  /\ error_of b (choose_create_code i st) = error_of b st.
Proof.
  unfold choose_create_code. destruct (nth_error create_code_options i);
    destruct b; split; reflexivity.
Qed.

Lemma pair_choose_upd_code (b : Button) (i : nat) (st : App) :
  result_of b (choose_upd_code i st) = result_of b st
  /\ error_of b (choose_upd_code i st) = error_of b st.
Proof.
  unfold choose_upd_code. destruct (nth_error upd_code_options i);
    destruct b; split; reflexivity.
Qed.

(** A click resets the pair of its own handler, and leaves the pairs of
    the other handlers and the waiting calls as they are. *)
Lemma click_resets_own_pair (base : option jsstring) (b : Button) (p : Page) :
  result_of b (app (click b p)) = Null /\ error_of b (app (click b p)) = None.
Proof. destruct b; split; reflexivity. Qed.

Lemma click_keeps_other_pairs (base : option jsstring) (b b0 : Button) (p : Page) :
  b <> b0 ->
  result_of b (app (click b0 p)) = result_of b (app p)
  /\ error_of b (app (click b0 p)) = error_of b (app p).
Proof. destruct b, b0; intros H; try congruence; split; reflexivity. Qed.

Lemma click_adds_one_call (b b0 : Button) (p : Page) :
  waiting b (pending (click b0 p)) =
  (waiting b (pending p) + if Button_eqb b0 b then 1 else 0)%nat.
Proof. destruct b0; simpl; rewrite waiting_app; reflexivity. Qed.

(** The rest of a call sets the pair of its own handler from the outcome
    of the call, and leaves the other pairs as they are. *)
Lemma resume_keeps_other_pairs (base : option jsstring) (b : Button)
  (inv : Invocation) (answer : completion Response) (st : App) :
  b <> handler_of inv ->
  result_of b (resume base inv answer st) = result_of b st
  /\ error_of b (resume base inv answer st) = error_of b st.
Proof.
  destruct inv; simpl; intros H.
  - destruct (createLink _ _ _); destruct b; try congruence; split; reflexivity.
  - destruct (updateLink _ _ _ _ _); destruct b; try congruence; split; reflexivity.
  - destruct (deleteLink _ _ _ _); destruct b; try congruence; split; reflexivity.
  - unfold testRedirect_end. destruct (bind _ _); destruct b; try congruence;
      split; reflexivity.
Qed.

Lemma resume_sets_own_pair (base : option jsstring)
  (inv : Invocation) (answer : completion Response) (st : App) :
  handler_of inv <> BtnTest ->
  match outcome_of base inv answer with
  | Returned v =>
      result_of (handler_of inv) (resume base inv answer st) = v
      /\ error_of (handler_of inv) (resume base inv answer st)
         = error_of (handler_of inv) st
  | Threw e =>
      result_of (handler_of inv) (resume base inv answer st)
      = result_of (handler_of inv) st
      /\ error_of (handler_of inv) (resume base inv answer st) = Some (error_text e)
  end.
Proof.
  destruct inv; simpl; intros H; try congruence.
  - destruct (createLink _ _ _); split; reflexivity.
  - destruct (updateLink _ _ _ _ _); split; reflexivity.
  - destruct (deleteLink _ _ _ _); split; reflexivity.
Qed.

Lemma pair_in_order_step (base : option jsstring) (p : Page) (ev : Event) :
  (forall b, pair_in_order b p) ->
  no_overlap base p [ev] = true ->
  forall b, pair_in_order b (step base p ev).
Proof.
  intros Hinv Hguard b. destruct (Hinv b) as [Hle [H0 H1]].
  destruct ev as [f s | i | i | b0 | i answer];
    unfold pair_in_order, step; cbn [app pending].
  - destruct (pair_typed b f s (app p)) as [-> ->]. repeat split; tauto.
  - destruct (pair_choose_create_code b i (app p)) as [-> ->]. repeat split; tauto.
  - destruct (pair_choose_upd_code b i (app p)) as [-> ->]. repeat split; tauto.
  - simpl in Hguard. rewrite andb_true_r in Hguard. apply Nat.eqb_eq in Hguard.
    rewrite click_adds_one_call.
    destruct (Button_eqb b0 b) eqn:E.
    + apply Button_eqb_eq in E. subst b0.
      destruct (click_resets_own_pair base b p) as [-> ->].
      repeat split; lia.
    + assert (Hne : b <> b0).
      { intros ->. destruct b0; discriminate. }
      destruct (click_keeps_other_pairs base p Hne) as [-> ->].
      rewrite Nat.add_0_r. repeat split; tauto.
  - destruct (nth_error (pending p) i) as [inv|] eqn:Hnth; [|repeat split; tauto].
    cbn [app pending].
    pose proof (waiting_remove_nth b i (pending p) Hnth) as Hcount.
    destruct (Button_eqb (handler_of inv) b) eqn:E.
    + apply Button_eqb_eq in E. subst b.
      assert (Hone : waiting (handler_of inv) (pending p) = 1%nat) by lia.
      assert (Hzero : waiting (handler_of inv) (remove_nth i (pending p)) = 0%nat) by lia.
      destruct (H1 Hone) as [Hres Herr].
      repeat split; try lia. intros _.
      destruct inv; simpl in *.
      * destruct (createLink _ _ _); simpl; [right | left]; assumption.
      * destruct (updateLink _ _ _ _ _); simpl; [right | left]; assumption.
      * destruct (deleteLink _ _ _ _); simpl; [right | left]; assumption.
      * left; reflexivity.
    + assert (Hne : b <> handler_of inv).
      { intros ->. destruct (handler_of inv); discriminate. }
      destruct (resume_keeps_other_pairs base inv answer (app p) Hne) as [-> ->].
      rewrite Nat.add_0_r in Hcount. rewrite <- Hcount. repeat split; tauto.
Qed.

Lemma pair_in_order_run (base : option jsstring) (evs : list Event) (p : Page) :
  (forall b, pair_in_order b p) ->
  no_overlap base p evs = true ->
  forall b, pair_in_order b (run base p evs).
Proof.
  revert p; induction evs as [|ev evs IH]; intros p Hinv Hguard; simpl; [exact Hinv|].
  simpl in Hguard. apply andb_true_iff in Hguard. destruct Hguard as [Hev Hrest].
  apply IH; [|exact Hrest].
  apply pair_in_order_step; [exact Hinv|]. simpl. rewrite Hev. reflexivity.
Qed.

Lemma pair_in_order_start (b : Button) : pair_in_order b start.
Proof.
  unfold pair_in_order. simpl. repeat split; auto.
  - left. destruct b; reflexivity.
  - destruct b; reflexivity.
  - destruct b; reflexivity.
Qed.

(** A handler run from its call to its end is a click followed at once by
    the settling of the call it made. *)
Lemma onCreate_is_click_then_settle (base : option jsstring)
  (fetch : Request -> completion Response) (p : Page) :
  let req := createLink_request base (onCreate_payload (onCreate_begin (app p))) in
  app (run base p [Click BtnCreate; Settle (List.length (pending p)) (fetch req)])
  = onCreate base fetch (app p).
Proof.
  simpl. rewrite nth_error_app2 by lia. rewrite Nat.sub_diag. reflexivity.
Qed.

Lemma onUpdate_is_click_then_settle (base : option jsstring)
  (fetch : Request -> completion Response) (p : Page) (req : Request) :
  let st := onUpdate_begin (app p) in
  updateLink_request base (updLinkId st) (updToken st) (onUpdate_data st) = Returned req ->
  app (run base p [Click BtnUpdate; Settle (List.length (pending p)) (fetch req)])
  = onUpdate base fetch (app p).
Proof.
  simpl. intros Hreq. rewrite nth_error_app2 by lia. rewrite Nat.sub_diag. simpl.
  unfold onUpdate, updateLink. simpl. rewrite Hreq. reflexivity.
Qed.

Lemma onDelete_is_click_then_settle (base : option jsstring)
  (fetch : Request -> completion Response) (p : Page) (req : Request) :
  let st := onDelete_begin (app p) in
  deleteLink_request base (delLinkId st) (delToken st) = Returned req ->
  app (run base p [Click BtnDelete; Settle (List.length (pending p)) (fetch req)])
  = onDelete base fetch (app p).
Proof.
  simpl. intros Hreq. rewrite nth_error_app2 by lia. rewrite Nat.sub_diag. simpl.
  unfold onDelete, deleteLink. simpl. rewrite Hreq. reflexivity.
Qed.

(** A handler run from its call to its end leaves its pair as the
    outcome of its call says. *)
Lemma onCreate_sets_result_or_error (base : option jsstring)
  (fetch : Request -> completion Response) (st : App) :
  let st' := onCreate base fetch st in
  match createLink base fetch (onCreate_payload st) with
  | Returned v => createResult st' = v /\ createError st' = None
  | Threw e => createResult st' = Null /\ createError st' = Some (error_text e)
  end.
Proof.
  unfold onCreate. simpl.
  change (onCreate_payload (onCreate_begin st)) with (onCreate_payload st).
  destruct (createLink base fetch (onCreate_payload st)); split; reflexivity.
Qed.

Lemma onUpdate_sets_result_or_error (base : option jsstring)
  (fetch : Request -> completion Response) (st : App) :
  let st' := onUpdate base fetch st in
  match updateLink base fetch (updLinkId st) (updToken st) (onUpdate_data st) with
  | Returned v => updResult st' = v /\ updError st' = None
  | Threw e => updResult st' = Null /\ updError st' = Some (error_text e)
  end.
Proof.
  unfold onUpdate. simpl.
  change (onUpdate_data (onUpdate_begin st)) with (onUpdate_data st).
  change (updLinkId (onUpdate_begin st)) with (updLinkId st).
  change (updToken (onUpdate_begin st)) with (updToken st).
  destruct (updateLink base fetch (updLinkId st) (updToken st) (onUpdate_data st));
    split; reflexivity.
Qed.

Lemma onDelete_sets_result_or_error (base : option jsstring)
  (fetch : Request -> completion Response) (st : App) :
  let st' := onDelete base fetch st in
  match deleteLink base fetch (delLinkId st) (delToken st) with
  | Returned v => delResult st' = v /\ delError st' = None
  | Threw e => delResult st' = Null /\ delError st' = Some (error_text e)
  end.
Proof.
  unfold onDelete. simpl.
  change (delLinkId (onDelete_begin st)) with (delLinkId st).
  change (delToken (onDelete_begin st)) with (delToken st).
  destruct (deleteLink base fetch (delLinkId st) (delToken st)); split; reflexivity.
Qed.

(** C10, as amended.  A click on Create, Update or Delete sets the error
    and the result of its handler to [null] before the request goes out,
    and when the call settles the rest of the handler sets exactly one of
    the two: the result to what the call returned, or the error to the
    text of what it threw, the other one staying [null].  So in every run
    of the page in which no button is clicked while a call of its handler
    is still waiting, at most one of result and error is set whenever no
    call of the handler is waiting, and a call that failed leaves the
    result [null]. *)
Theorem handlers_set_result_or_error (base : option jsstring) (evs : list Event) :
  no_overlap base start evs = true ->
  let p := run base start evs in
  (forall b, pair_in_order b p)
  /\ (forall b,
        result_of b (app (step base p (Click b))) = Null
        /\ error_of b (app (step base p (Click b))) = None)
  /\ (forall i answer inv,
        nth_error (pending p) i = Some inv ->
        handler_of inv <> BtnTest ->
        let st' := app (step base p (Settle i answer)) in
        match outcome_of base inv answer with
        | Returned v =>
            result_of (handler_of inv) st' = v /\ error_of (handler_of inv) st' = None
        | Threw e =>
            result_of (handler_of inv) st' = Null
            /\ error_of (handler_of inv) st' = Some (error_text e)
        end).
Proof.
  intros Hguard p.
  assert (Hinv : forall b, pair_in_order b p).
  { apply pair_in_order_run; [apply pair_in_order_start | exact Hguard]. }
  split; [exact Hinv | split].
  - intros b. apply (click_resets_own_pair base b p).
  - intros i answer inv Hnth Htest. simpl. rewrite Hnth. cbn [app].
    destruct (Hinv (handler_of inv)) as [Hle [_ H1]].
    pose proof (waiting_remove_nth (handler_of inv) i (pending p) Hnth) as Hcount.
    assert (E : Button_eqb (handler_of inv) (handler_of inv) = true)
      by (apply Button_eqb_eq; reflexivity).
    rewrite E in Hcount.
    assert (Hone : waiting (handler_of inv) (pending p) = 1%nat) by lia.
    destruct (H1 Hone) as [Hres Herr].
    pose proof (resume_sets_own_pair base inv answer (app p) Htest) as Hset.
    destruct (outcome_of base inv answer) as [v|e]; destruct Hset as [Hr He]; split;
      congruence.
Qed.

Lemma handlers_set_result_or_error_witness :
  pair_in_order BtnCreate
    (run None start
       [Typed CreateAlias (js "promo"); Click BtnCreate;
        Settle 0 (Returned created_201); Click BtnCreate;
        Settle 0 (Returned conflict_409)]).
Proof.
  exact (proj1 (@handlers_set_result_or_error None
                  [Typed CreateAlias (js "promo"); Click BtnCreate;
                   Settle 0 (Returned created_201); Click BtnCreate;
                   Settle 0 (Returned conflict_409)] eq_refl) BtnCreate).
Defined.

(** C10 as it is worded does not hold.  Create is clicked twice before
    the first answer is back; the first call succeeds, the second one
    fails.  Both handlers have completed, no call is waiting, and the
    result of the first call is on the page together with the error of
    the second. *)
Lemma double_click_leaves_result_and_error :
  let p := run None start double_click in
  pending p = []
  /\ ~ at_most_one_set (createResult (app p)) (createError (app p)).
Proof.
  split; [reflexivity|]. intros [H | H]; discriminate H.
Qed.

(** ** The redirect tester *)

Lemma or_string_empty (o : option jsstring) :
  or_string o [] = match o with Some v => v | None => [] end.
Proof. destruct o as [[|c v]|]; reflexivity. Qed.

(** The request of the tester: a GET of the encoded id under the base,
    with redirect mode manual, no headers and no body. *)
Lemma testRedirect_request_shape (base : option jsstring) (linkId : jsstring)
  (req : Request) :
  testRedirect_request base linkId = Returned req ->
  req_method req = js "GET"
  /\ req_redirect req = Manual
  /\ req_headers req = []
  /\ req_body req = None
  /\ exists id, encodeURIComponent linkId = Returned id
                /\ req_url req = or_string base (js "http://localhost:8000") ++ js "/" ++ id.
Proof.
  unfold testRedirect_request. destruct (encodeURIComponent linkId) as [id|e]; simpl;
    [|discriminate].
  intros H. injection H as <-. repeat split. exists id. split; reflexivity.
Qed.

(** What the tester shows is read off the Response object that [fetch]
    resolves with: its status in decimal, and its Location header, the
    empty string standing for a missing one. *)
Lemma testRedirect_shows_the_response (base : option jsstring)
  (fetch : Request -> completion Response) (st : App) (req : Request) (res : Response) :
  testRedirect_request base (linkId (redirectTester st)) = Returned req ->
  fetch req = Returned res ->
  let t := redirectTester (testRedirect base fetch st) in
  linkId t = linkId (redirectTester st)
  /\ status t = Number_toString (res_status res)
  /\ location t = match headers_get (js "Location") (res_headers res) with
                  | Some v => v
                  | None => []
                  end.
Proof.
  intros Hreq Hres. unfold testRedirect. simpl.
  change (linkId (redirectTester (testRedirect_begin st)))
    with (linkId (redirectTester st)).
  rewrite Hreq. simpl. rewrite Hres. simpl. rewrite or_string_empty.
  repeat split.
Qed.

(** When the request cannot be made or [fetch] rejects, the tester shows
    the word error and the text of the exception. *)
Lemma testRedirect_shows_the_failure (base : option jsstring)
  (fetch : Request -> completion Response) (st : App) (e : JsError) :
  (req <- testRedirect_request base (linkId (redirectTester st)) ;; fetch req) = Threw e ->
  let t := redirectTester (testRedirect base fetch st) in
  status t = js "error" /\ location t = error_text e.
Proof.
  intros H. unfold testRedirect. simpl.
  change (linkId (redirectTester (testRedirect_begin st)))
    with (linkId (redirectTester st)).
  rewrite H. split; reflexivity.
Qed.

(** The request of the tester goes out as it is written: the Request
    constructor changes nothing in it, and it needs no preflight. *)
Lemma tester_request_is_sent_as_written (base : option jsstring) (id : jsstring)
  (req : Request) :
  testRedirect_request base id = Returned req ->
  new_Request req = Returned req
  /\ needs_preflight req = false
  /\ req_redirect req = Manual.
Proof.
  unfold testRedirect_request. destruct (encodeURIComponent id) as [e|]; simpl;
    [|discriminate].
  intros H. injection H as <-. repeat split.
Qed.

(** What [fetch] makes of the answer to the request of the tester. *)
Lemma http_fetch_of_the_tester (base : option jsstring) (id : jsstring) (req : Request)
  (tainting : Tainting) (network : Request -> completion Response) :
  testRedirect_request base id = Returned req ->
  http_fetch tainting network req
  = (actual <- network req ;;
     if negb (passes_cors_check tainting actual) then Threw network_error
     else if is_redirect_status (res_status actual)
          then Returned (opaque_redirect actual)
          else Returned (filtered_response tainting actual)).
Proof.
  intros Hreq.
  destruct (tester_request_is_sent_as_written _ _ Hreq) as [Hnew [Hpre Hmode]].
  unfold http_fetch. rewrite Hnew. simpl. rewrite Hpre, Hmode.
  destruct tainting; reflexivity.
Qed.

(** C4 at a live link.  The tester sends a GET with redirect mode manual
    and the server answers 301 with a Location header.  [fetch] resolves
    with the opaque-redirect filtered response, and the tester shows
    status 0 and an empty Location: neither the status on the wire nor
    the Location header.  This is so when the page is served by the dev
    server, from another origin than the API, and when page and API have
    the same origin. *)
Theorem redirect_tester_shows_0_for_a_redirect :
  let st := tester_with (js "promo") in
  let shown tainting :=
    redirectTester (testRedirect None (http_fetch tainting (answering moved_301)) st) in
  testRedirect_request None (js "promo")
  = Returned (mkRequest (js "http://localhost:8000/promo") (js "GET") [] None Manual)
  /\ res_status moved_301 = 301%Z
  /\ headers_get (js "Location") (res_headers moved_301) = Some (js "https://a.example")
  /\ status (shown (Cors ui_origin)) = js "0"
  /\ location (shown (Cors ui_origin)) = []
  /\ status (shown Basic) = js "0"
  /\ location (shown Basic) = [].
Proof. repeat split. Qed.

(** For a retired link the answer is 410 without a Location, and the
    tester shows 410 and the empty string. *)
Lemma redirect_tester_shows_410 :
  let st := tester_with (js "promo") in
  let shown :=
    redirectTester
      (testRedirect None (http_fetch (Cors ui_origin) (answering gone_410)) st) in
  status shown = js "410" /\ location shown = [].
Proof. split; reflexivity. Qed.

(** ** Link ids in request paths *)

(** *** What encodeURIComponent writes *)

Lemma uri_safe_range (c : N) : uri_safe c = true -> (33 <= c <= 126)%N.
Proof.
  unfold uri_safe, uri_unreserved, is_alnum, uri_marks. simpl existsb.
  repeat rewrite orb_true_iff. repeat rewrite andb_true_iff.
  repeat rewrite N.leb_le. repeat rewrite N.eqb_eq. lia.
Qed.

Lemma uri_safe_differs (c k : N) : uri_safe k = false -> uri_safe c = true -> N.eqb c k = false.
Proof.
  intros Hk Hc. destruct (N.eqb_spec c k) as [->|]; [congruence | reflexivity].
Qed.

Lemma uri_unreserved_safe (c : N) : uri_unreserved c = true -> uri_safe c = true.
Proof. unfold uri_safe. intros ->. reflexivity. Qed.

Lemma hex_digit_alnum (n : N) : (n < 16)%N -> is_alnum (hex_digit n) = true.
Proof.
  intros Hn. unfold hex_digit, is_alnum.
  destruct (N.ltb_spec n 10);
    repeat rewrite orb_true_iff; repeat rewrite andb_true_iff; repeat rewrite N.leb_le; lia.
Qed.

Lemma hex_digit_safe (n : N) : uri_safe (hex_digit (n mod 16)) = true.
Proof.
  unfold uri_safe, uri_unreserved. rewrite hex_digit_alnum; [reflexivity|].
  apply N.mod_lt. discriminate.
Qed.

Lemma percent_octets_safe (bs : list N) :
  Forall (fun c => uri_safe c = true) (percent_octets bs).
Proof.
  induction bs as [|b bs IH]; simpl; [constructor|].
  repeat constructor; try apply hex_digit_safe. exact IH.
Qed.

(** Induction that follows [encodeURIComponent], which moves on by one
    code unit or by two. *)
Lemma jsstring_ind2 (P : jsstring -> Prop) :
  P [] ->
  (forall c rest,
      P rest -> (forall d rest', rest = d :: rest' -> P rest') -> P (c :: rest)) ->
  forall s, P s.
Proof.
  intros Hnil Hcons s.
  assert (H : P s /\ forall d rest', s = d :: rest' -> P rest').
  { induction s as [|c s [IH1 IH2]].
    - split; [exact Hnil | discriminate].
    - split; [apply Hcons; assumption|].
      intros d rest' Heq. injection Heq as _ <-. exact IH1. }
  exact (proj1 H).
Qed.

Lemma encodeURIComponent_safe (s e : jsstring) :
  encodeURIComponent s = Returned e -> Forall (fun c => uri_safe c = true) e.
Proof.
  revert e; induction s as [|c rest IH1 IH2] using jsstring_ind2; intros e; simpl.
  - intros H. injection H as <-. constructor.
  - destruct (uri_unreserved c) eqn:Hc.
    + destruct (encodeURIComponent rest) as [r|]; simpl; [|discriminate].
      intros H. injection H as <-. constructor;
        [apply uri_unreserved_safe; exact Hc | apply IH1; reflexivity].
    + destruct (is_trailing_surrogate c); [discriminate|].
      destruct (is_leading_surrogate c).
      * destruct rest as [|d rest']; [discriminate|].
        destruct (is_trailing_surrogate d); [|discriminate].
        destruct (encodeURIComponent rest') as [r|] eqn:Hr; simpl; [|discriminate].
        intros H. injection H as <-. apply Forall_app. split.
        -- apply percent_octets_safe.
        -- eapply IH2; [reflexivity | exact Hr].
      * destruct (encodeURIComponent rest) as [r|]; simpl; [|discriminate].
        intros H. injection H as <-. apply Forall_app. split.
        -- apply percent_octets_safe.
        -- apply IH1; reflexivity.
Qed.

Lemma below_256 (P : N -> bool) :
  forallb P (map N.of_nat (seq 0 256)) = true ->
  forall b, (b < 256)%N -> P b = true.
Proof.
  intros Hall b Hb. rewrite forallb_forall in Hall. apply Hall.
  apply in_map_iff. exists (N.to_nat b). split; [apply N2Nat.id|].
  apply in_seq. lia.
Qed.

(** The escape of an octet other than the dot never spells %2e or %2E. *)
Lemma percent_octet_is_not_2e (b : N) :
  (b < 256)%N -> b <> 46%N ->
  N.eqb (ascii_lower (hex_digit ((b / 16) mod 16))) 50 = false
  \/ N.eqb (ascii_lower (hex_digit (b mod 16))) 101 = false.
Proof.
  intros Hb Hne.
  pose proof (@below_256
    (fun b => N.eqb b 46
              || negb (N.eqb (ascii_lower (hex_digit ((b / 16) mod 16))) 50)
              || negb (N.eqb (ascii_lower (hex_digit (b mod 16))) 101))
    eq_refl b Hb) as H.
  simpl in H. apply orb_true_iff in H. destruct H as [H|H].
  - apply orb_true_iff in H. destruct H as [H|H].
    + apply N.eqb_eq in H. contradiction.
    + left. apply negb_true_iff. exact H.
  - right. apply negb_true_iff. exact H.
Qed.

(** The first octet of the UTF-8 form of a code point that is escaped: it
    is an octet, and it is not the dot. *)
Lemma utf8_head (cp : N) :
  uri_unreserved cp = false \/ (128 <= cp)%N ->
  exists b bs, utf8 cp = b :: bs /\ (b < 256)%N /\ b <> 46%N.
Proof.
  intros Hcp. unfold utf8.
  destruct (N.ltb_spec cp 128) as [H1|H1].
  - exists cp, []. repeat split; [lia|].
    intros ->. destruct Hcp as [Hcp|Hcp]; [discriminate Hcp | lia].
  - destruct (N.ltb_spec cp 2048) as [H2|H2].
    + eexists; eexists; split; [reflexivity|].
      assert (Hq : (cp / 64 < 32)%N) by (apply N.Div0.div_lt_upper_bound; lia).
      revert Hq. generalize (cp / 64)%N. intros q Hq. lia.
    + destruct (N.ltb_spec cp 65536) as [H3|H3].
      * eexists; eexists; split; [reflexivity|].
        assert (Hq : (cp / 4096 < 16)%N) by (apply N.Div0.div_lt_upper_bound; lia).
        revert Hq. generalize (cp / 4096)%N. intros q Hq. lia.
      * eexists; eexists; split; [reflexivity|].
        assert (Hq : ((cp / 262144) mod 8 < 8)%N) by (apply N.mod_lt; discriminate).
        revert Hq. generalize ((cp / 262144) mod 8)%N. intros q Hq. lia.
Qed.

(** The first step of [encodeURIComponent]: an unreserved code unit is
    copied, anything else that is encoded starts with the escape of an
    octet that is not the dot. *)
Lemma encodeURIComponent_cons (c : N) (rest e : jsstring) :
  encodeURIComponent (c :: rest) = Returned e ->
  (uri_unreserved c = true
   /\ exists r, encodeURIComponent rest = Returned r /\ e = c :: r)
  \/ (uri_unreserved c = false
      /\ exists b t, e = percent_octet b ++ t /\ (b < 256)%N /\ b <> 46%N).
Proof.
  simpl. destruct (uri_unreserved c) eqn:Hc.
  - destruct (encodeURIComponent rest) as [r|]; simpl; [|discriminate].
    intros H. injection H as <-. left. split; [reflexivity|]. exists r. split; reflexivity.
  - intros H. right. split; [reflexivity|].
    destruct (is_trailing_surrogate c); [discriminate|].
    destruct (is_leading_surrogate c).
    + destruct rest as [|d rest']; [discriminate|].
      destruct (is_trailing_surrogate d); [|discriminate].
      destruct (encodeURIComponent rest') as [r|]; simpl in H; [|discriminate].
      injection H as <-.
      destruct (@utf8_head (surrogate_pair c d)) as [b [bs [-> [Hb Hne]]]].
      { right. unfold surrogate_pair. lia. }
      exists b, (percent_octets bs ++ r). split; [|split; assumption].
      unfold percent_octets. simpl. reflexivity.
    + destruct (encodeURIComponent rest) as [r|]; simpl in H; [|discriminate].
      injection H as <-.
      destruct (@utf8_head c) as [b [bs [-> [Hb Hne]]]].
      { left. exact Hc. }
      exists b, (percent_octets bs ++ r). split; [|split; assumption].
      unfold percent_octets. simpl. reflexivity.
Qed.

(** *** What the URL parser makes of it *)

Lemma uri_safe_ordinary (c : N) : uri_safe c = true -> ordinary c = true.
Proof.
  intros H. apply uri_safe_range in H. unfold ordinary.
  apply andb_true_iff. rewrite N.leb_le, N.ltb_lt. lia.
Qed.

Lemma code_points_ordinary (s : jsstring) :
  forallb ordinary s = true -> code_points s = s.
Proof.
  induction s as [|c s IH]; simpl; [reflexivity|].
  intros H. apply andb_true_iff in H. destruct H as [Hc Hs].
  unfold ordinary in Hc. apply andb_true_iff in Hc.
  rewrite N.leb_le, N.ltb_lt in Hc.
  assert (Ht : is_trailing_surrogate c = false).
  { unfold is_trailing_surrogate. apply andb_false_iff. left. apply N.leb_gt. lia. }
  assert (Hl : is_leading_surrogate c = false).
  { unfold is_leading_surrogate. apply andb_false_iff. left. apply N.leb_gt. lia. }
  rewrite Ht, Hl, (IH Hs). reflexivity.
Qed.

Lemma no_tab_or_newline_ordinary (s : jsstring) :
  forallb ordinary s = true ->
  filter (fun c => negb (is_tab_or_newline c)) s = s.
Proof.
  induction s as [|c s IH]; simpl; [reflexivity|].
  intros H. apply andb_true_iff in H. destruct H as [Hc Hs].
  unfold ordinary in Hc. apply andb_true_iff in Hc.
  rewrite N.leb_le, N.ltb_lt in Hc.
  assert (Hn : is_tab_or_newline c = false).
  { unfold is_tab_or_newline. repeat rewrite orb_false_iff.
    repeat rewrite N.eqb_neq. lia. }
  rewrite Hn, (IH Hs). reflexivity.
Qed.

Lemma strip_trailing_ordinary (s : jsstring) :
  forallb ordinary s = true -> strip_trailing s = s.
Proof.
  induction s as [|c s IH]; simpl; [reflexivity|].
  intros H. apply andb_true_iff in H. destruct H as [Hc Hs].
  rewrite (IH Hs). destruct s as [|d s]; [|reflexivity].
  unfold ordinary in Hc. apply andb_true_iff in Hc.
  rewrite N.leb_le, N.ltb_lt in Hc.
  assert (E : (c <=? 32)%N = false) by (apply N.leb_gt; lia).
  rewrite E. reflexivity.
Qed.

Lemma forallb_safe_ordinary (e : jsstring) :
  Forall (fun c => uri_safe c = true) e -> forallb ordinary e = true.
Proof.
  intros H. apply forallb_forall. intros c Hin.
  rewrite Forall_forall in H. apply uri_safe_ordinary. apply H. exact Hin.
Qed.

(** The path state reads a run of safe code units into the buffer,
    unchanged, up to the end of the input. *)
Lemma path_state_safe (e buffer : jsstring) (path : list jsstring) :
  Forall (fun c => uri_safe c = true) e ->
  path_state e buffer path = (end_segment false (buffer ++ e) path, []).
Proof.
  intros He. revert buffer. induction He as [|c e Hc He IH]; intros buffer; simpl.
  - rewrite app_nil_r. reflexivity.
  - rewrite (@uri_safe_differs c 47 eq_refl Hc), (@uri_safe_differs c 92 eq_refl Hc),
      (@uri_safe_differs c 63 eq_refl Hc), (@uri_safe_differs c 35 eq_refl Hc).
    simpl.
    assert (Hp : path_percent_encode c = [c]).
    { unfold path_percent_encode, in_path_percent_encode_set.
      pose proof (uri_safe_range c Hc) as Hr.
      assert (E1 : (c <=? 31)%N = false) by (apply N.leb_gt; lia).
      assert (E2 : (126 <? c)%N = false) by (apply N.ltb_ge; lia).
      rewrite E1, E2. simpl.
      rewrite (@uri_safe_differs c 32 eq_refl Hc), (@uri_safe_differs c 34 eq_refl Hc),
        (@uri_safe_differs c 35 eq_refl Hc), (@uri_safe_differs c 60 eq_refl Hc),
        (@uri_safe_differs c 62 eq_refl Hc), (@uri_safe_differs c 63 eq_refl Hc),
        (@uri_safe_differs c 94 eq_refl Hc), (@uri_safe_differs c 96 eq_refl Hc),
        (@uri_safe_differs c 123 eq_refl Hc), (@uri_safe_differs c 125 eq_refl Hc).
      reflexivity. }
    rewrite Hp, IH, <- app_assoc. reflexivity.
Qed.

(** The path of a safe string put after a prefix ending in a slash. *)
Lemma url_path_of_safe (prefix e : jsstring) :
  forallb ordinary prefix = true ->
  Forall (fun c => uri_safe c = true) e ->
  url_path (prefix ++ e) =
  match prefix ++ e with
  | c :: rest =>
      if N.eqb c 47 || N.eqb c 92 then path_state rest [] []
      else path_state (prefix ++ e) [] []
  | [] => path_state [] [] []
  end.
Proof.
  intros Hp He. unfold url_path.
  assert (Hall : forallb ordinary (prefix ++ e) = true).
  { rewrite forallb_app, Hp, (forallb_safe_ordinary He). reflexivity. }
  rewrite (code_points_ordinary _ Hall), (strip_trailing_ordinary _ Hall),
    (no_tab_or_newline_ordinary _ Hall).
  reflexivity.
Qed.

(** *** Dot segments *)

Lemma ascii_lower_small (c k : N) :
  (k < 65)%N -> N.eqb (ascii_lower c) k = N.eqb c k.
Proof.
  intros Hk. unfold ascii_lower.
  destruct ((65 <=? c)%N && (c <=? 90)%N) eqn:E; [|reflexivity].
  apply andb_true_iff in E. rewrite !N.leb_le in E.
  transitivity false; [|symmetry]; apply N.eqb_neq; lia.
Qed.

Lemma uri_unreserved_differs (c k : N) :
  uri_unreserved k = false -> uri_unreserved c = true -> N.eqb c k = false.
Proof.
  intros Hk Hc. destruct (N.eqb_spec c k) as [->|]; [congruence | reflexivity].
Qed.

Lemma is_single_dot_cases (e : jsstring) :
  is_single_dot e =
  jsstring_eqb (lowercase e) [46%N] || jsstring_eqb (lowercase e) [37; 50; 101]%N.
Proof. unfold is_single_dot. simpl existsb. rewrite orb_false_r. reflexivity. Qed.

Lemma is_double_dot_cases (e : jsstring) :
  is_double_dot e =
  jsstring_eqb (lowercase e) [46; 46]%N
  || jsstring_eqb (lowercase e) [46; 37; 50; 101]%N
  || jsstring_eqb (lowercase e) [37; 50; 101; 46]%N
  || jsstring_eqb (lowercase e) [37; 50; 101; 37; 50; 101]%N.
Proof.
  unfold is_double_dot. simpl existsb. rewrite orb_false_r, !orb_assoc. reflexivity.
Qed.

Lemma jsstring_eqb_cons (x y : N) (a b : jsstring) :
  jsstring_eqb (x :: a) (y :: b) = N.eqb x y && jsstring_eqb a b.
Proof. reflexivity. Qed.

Lemma jsstring_eqb_cons_nil (x : N) (a : jsstring) : jsstring_eqb (x :: a) [] = false.
Proof. reflexivity. Qed.

Lemma percent_octet_app (b : N) (t : jsstring) :
  percent_octet b ++ t = 37%N :: hex_digit ((b / 16) mod 16) :: hex_digit (b mod 16) :: t.
Proof. reflexivity. Qed.

(** Bring the comparisons of a segment with the dot segments down to
    comparisons of single code units. *)
Ltac expose_chars :=
  unfold lowercase;
  rewrite ?percent_octet_app, ?map_cons, ?jsstring_eqb_cons, ?jsstring_eqb_cons_nil.

Ltac expose_segment :=
  rewrite is_single_dot_cases, is_double_dot_cases; expose_chars.

(** Case analysis on the comparisons that are left open; what remains is
    closed and computes. *)
Ltac settle_booleans :=
  repeat match goal with
         | |- context [jsstring_eqb (map ascii_lower ?a) ?b] =>
             destruct (jsstring_eqb (map ascii_lower a) b)
         | |- context [N.eqb (ascii_lower (hex_digit ?x)) ?k] =>
             destruct (N.eqb (ascii_lower (hex_digit x)) k)
         | |- context [N.eqb (ascii_lower ?x) ?k] =>
             is_var x; destruct (N.eqb (ascii_lower x) k)
         | |- context [N.eqb ?x ?k] =>
             is_var x; destruct (N.eqb x k)
         end;
  split; reflexivity.

(** A segment that is not a dot segment is added to the path. *)
Lemma end_segment_plain (slash : bool) (seg : jsstring) (path : list jsstring) :
  is_double_dot seg = false -> is_single_dot seg = false ->
  end_segment slash seg path = path ++ [seg].
Proof. intros Hdd Hsd. unfold end_segment. rewrite Hdd, Hsd. reflexivity. Qed.

(** The encoded form of an id is a dot segment only if the id is one or
    two dots: the dot is copied, and no escape spells %2e. *)
Lemma encoded_is_not_a_dot_segment (linkId e : jsstring) :
  encodeURIComponent linkId = Returned e ->
  linkId <> js "." -> linkId <> js ".." ->
  is_single_dot e = false /\ is_double_dot e = false.
Proof.
  intros He Hdot Hdotdot.
  destruct linkId as [|c rest].
  - simpl in He. injection He as <-. split; reflexivity.
  - destruct (encodeURIComponent_cons c rest He)
      as [[Hc [r [Hr ->]]] | [Hc [b [t [-> [Hb Hne]]]]]].
    + expose_segment.
      rewrite !(@ascii_lower_small c 46), !(@ascii_lower_small c 37) by lia.
      rewrite (@uri_unreserved_differs c 37 eq_refl Hc).
      destruct (N.eqb_spec c 46) as [->|Hc46]; [|settle_booleans].
      destruct rest as [|d rest2]; [exfalso; apply Hdot; reflexivity|].
      destruct (encodeURIComponent_cons d rest2 Hr)
        as [[Hd [r2 [Hr2 ->]]] | [Hd [b [t [-> [Hb Hne]]]]]].
      * expose_chars.
        rewrite !(@ascii_lower_small d 46), !(@ascii_lower_small d 37) by lia.
        rewrite (@uri_unreserved_differs d 37 eq_refl Hd).
        destruct (N.eqb_spec d 46) as [->|Hd46]; [|settle_booleans].
        destruct rest2 as [|x rest3]; [exfalso; apply Hdotdot; reflexivity|].
        destruct (encodeURIComponent_cons x rest3 Hr2)
          as [[_ [r3 [_ ->]]] | [_ [b [t [-> _]]]]];
          expose_chars; settle_booleans.
      * expose_chars.
        destruct (percent_octet_is_not_2e Hb Hne) as [E|E]; rewrite E;
          settle_booleans.
    + expose_segment.
      destruct (percent_octet_is_not_2e Hb Hne) as [E|E]; rewrite E;
        settle_booleans.
Qed.

(** C9, as amended.  [updateLink], [deleteLink] and the redirect tester
    put the link id into the URL through encodeURIComponent.  The encoded
    id is made of unreserved characters and percent signs only, so it has
    no slash, backslash, question mark or number sign.  For every id
    other than the two ids made of one dot and of two dots, the URL
    parser reads the encoded id as exactly one segment of the path, the
    last one, and nothing of it as a query or a fragment; this holds
    after a base that is an origin, and in the path state after any
    base. *)
Theorem encoded_id_is_one_path_segment (base : option jsstring) (linkId e : jsstring) :
  encodeURIComponent linkId = Returned e ->
  linkId <> js "." ->
  linkId <> js ".." ->
  Forall (fun c => uri_safe c = true) e
  /\ is_last_segment (js "/api/links/") [js "api"; js "links"] e
  /\ is_last_segment (js "/") [] e
  /\ (forall buffer path,
        path_state (js "/api/links/" ++ e) buffer path
        = (end_segment true buffer path ++ [js "api"; js "links"; e], [])
        /\ path_state (js "/" ++ e) buffer path
           = (end_segment true buffer path ++ [e], []))
  /\ (forall token data,
        exists req,
          updateLink_request base linkId token data = Returned req
          /\ req_url req = API_BASE base ++ js "/api/links/" ++ e)
  /\ (forall token,
        exists req,
          deleteLink_request base linkId token = Returned req
          /\ req_url req = API_BASE base ++ js "/api/links/" ++ e)
  /\ (exists req,
        testRedirect_request base linkId = Returned req
        /\ req_url req = or_string base (js "http://localhost:8000") ++ js "/" ++ e).
Proof.
  intros He Hdot Hdotdot.
  pose proof (encodeURIComponent_safe _ He) as Hsafe.
  destruct (encoded_is_not_a_dot_segment He Hdot Hdotdot) as [H1 H2].
  split; [exact Hsafe|]. split; [|split].
  - unfold is_last_segment.
    rewrite (url_path_of_safe (js "/api/links/") eq_refl Hsafe). simpl.
    rewrite (path_state_safe _ _ Hsafe). unfold end_segment at 1.
    change ([] ++ e) with e. rewrite H1, H2. reflexivity.
  - unfold is_last_segment.
    rewrite (url_path_of_safe (js "/") eq_refl Hsafe). simpl.
    rewrite (path_state_safe _ _ Hsafe). unfold end_segment at 1.
    change ([] ++ e) with e. rewrite H1, H2. reflexivity.
  - split; [|split; [|split]].
    + intros buffer path. split; simpl;
        rewrite (path_state_safe _ _ Hsafe); unfold end_segment at 1;
        change ([] ++ e) with e; rewrite H1, H2; [|reflexivity].
      rewrite (@end_segment_plain true (js "links") _ eq_refl eq_refl).
      rewrite (@end_segment_plain true (js "api") _ eq_refl eq_refl).
      rewrite <- !app_assoc. reflexivity.
    + intros token data. unfold updateLink_request. rewrite He. simpl.
      eexists. split; reflexivity.
    + intros token. unfold deleteLink_request. rewrite He. simpl.
      eexists. split; reflexivity.
    + unfold testRedirect_request. rewrite He. simpl.
      eexists. split; reflexivity.
Qed.

Lemma encoded_id_is_one_path_segment_witness :
  is_last_segment (js "/api/links/") [js "api"; js "links"] (js "..%2Fadmin%3Fx%23y").
Proof.
  refine (proj1 (proj2 (@encoded_id_is_one_path_segment None (js "../admin?x#y")
                          (js "..%2Fadmin%3Fx%23y") eq_refl _ _))).
  - discriminate.
  - discriminate.
Defined.

(** C9 as it is worded does not hold for the id made of two dots.
    encodeURIComponent leaves it as it is, and the URL parser reads two
    dots as a step up: the request of [deleteLink] goes to the path /api/
    and not to a path whose last segment is the id. *)
Lemma two_dots_are_not_a_segment :
  encodeURIComponent (js "..") = Returned (js "..")
  /\ deleteLink_request None (js "..") (js "s3cret")
     = Returned (mkRequest (js "http://localhost:8000/api/links/..") (js "DELETE")
                   [(js "X-Edit-Token", js "s3cret")] None Follow)
  /\ url_path (js "/api/links/..") = ([js "api"; []], [])
  /\ ~ is_last_segment (js "/api/links/") [js "api"; js "links"] (js "..").
Proof.
  split; [reflexivity | split; [reflexivity | split; [reflexivity|]]].
  unfold is_last_segment. intros H. discriminate H.
Qed.

(** The same for the id made of one dot: the request goes to the path
    /api/links/, as it does for the empty id. *)
Lemma one_dot_is_not_a_segment :
  encodeURIComponent (js ".") = Returned (js ".")
  /\ url_path (js "/api/links/.") = ([js "api"; js "links"; []], []).
Proof. split; reflexivity. Qed.

(** ** Link ids that can be encoded *)

Lemma uri_unreserved_not_surrogate (c : N) :
  uri_unreserved c = true ->
  is_trailing_surrogate c = false /\ is_leading_surrogate c = false.
Proof.
  intros H. apply uri_unreserved_safe, uri_safe_range in H.
  unfold is_trailing_surrogate, is_leading_surrogate.
  split; apply andb_false_iff; left; apply N.leb_gt; lia.
Qed.

(** [encodeURIComponent] returns on the well-formed strings and throws
    on the others. *)
Lemma encodeURIComponent_well_formed (s : jsstring) :
  if is_well_formed s
  then exists e, encodeURIComponent s = Returned e
  else encodeURIComponent s = Threw URI_malformed.
Proof.
  induction s as [|c rest IH1 IH2] using jsstring_ind2; simpl.
  - exists []. reflexivity.
  - destruct (uri_unreserved c) eqn:Hc.
    + destruct (uri_unreserved_not_surrogate c Hc) as [-> ->].
      destruct (is_well_formed rest).
      * destruct IH1 as [e ->]. simpl. eexists. reflexivity.
      * rewrite IH1. reflexivity.
    + destruct (is_trailing_surrogate c); [reflexivity|].
      destruct (is_leading_surrogate c).
      * destruct rest as [|d rest']; [reflexivity|].
        destruct (is_trailing_surrogate d); simpl; [|reflexivity].
        specialize (IH2 d rest' eq_refl).
        destruct (is_well_formed rest').
        -- destruct IH2 as [e ->]. simpl. eexists. reflexivity.
        -- rewrite IH2. reflexivity.
      * destruct (is_well_formed rest).
        -- destruct IH1 as [e ->]. simpl. eexists. reflexivity.
        -- rewrite IH1. reflexivity.
Qed.

(** ** The edit token in the request *)

(** One step of the filling of the Headers object, for a header that is
    kept. *)
Lemma fill_headers_keeps (name value v : jsstring) (rest list : headers) :
  header_value_on_the_wire value = Some v ->
  is_token name = true ->
  is_forbidden_request_header name v = false ->
  fill_headers ((name, value) :: rest) list
  = fill_headers rest (header_list_append name v list).
Proof. intros Hv Hn Hf. simpl. rewrite Hv, Hn, Hf. reflexivity. Qed.

Lemma fill_headers_throws (name value : jsstring) (rest list : headers) :
  header_value_on_the_wire value = None ->
  fill_headers ((name, value) :: rest) list = Threw request_TypeError.
Proof. intros Hv. simpl. rewrite Hv. reflexivity. Qed.

(** The Request that is made of the request of [updateLink]: the token
    is normalized, and nothing else changes but the body, which is sent
    as a USVString. *)
Lemma new_Request_of_update (url token v : jsstring) (body : option jsstring) :
  header_value_on_the_wire token = Some v ->
  new_Request
    (mkRequest url (js "PATCH")
       [(js "Content-Type", js "application/json"); (js "X-Edit-Token", token)]
       body Follow)
  = Returned
      (mkRequest url (js "PATCH")
         [(js "Content-Type", js "application/json"); (js "X-Edit-Token", v)]
         (option_map to_usv_string body) Follow).
Proof.
  intros Hv. unfold new_Request. cbn [req_method req_headers req_body req_url req_redirect].
  change (negb (is_token (js "PATCH")) || is_forbidden_method (js "PATCH")) with false.
  change (normalize_method (js "PATCH")) with (js "PATCH").
  rewrite (@fill_headers_keeps (js "Content-Type") (js "application/json")
             (js "application/json")); try reflexivity.
  rewrite (@fill_headers_keeps (js "X-Edit-Token") token v); try assumption;
    try reflexivity.
  destruct body; reflexivity.
Qed.

Lemma new_Request_of_delete (url token v : jsstring) :
  header_value_on_the_wire token = Some v ->
  new_Request (mkRequest url (js "DELETE") [(js "X-Edit-Token", token)] None Follow)
  = Returned (mkRequest url (js "DELETE") [(js "X-Edit-Token", v)] None Follow).
Proof.
  intros Hv. unfold new_Request. cbn [req_method req_headers req_body req_url req_redirect].
  change (negb (is_token (js "DELETE")) || is_forbidden_method (js "DELETE")) with false.
  change (normalize_method (js "DELETE")) with (js "DELETE").
  rewrite (@fill_headers_keeps (js "X-Edit-Token") token v); try assumption;
    reflexivity.
Qed.

(** What goes out for a call of [updateLink] or [deleteLink] whose link
    id can be encoded, for every token. *)
Lemma sent_request_of_a_call (base : option jsstring) (c : ApiCall)
  (linkId token : jsstring) :
  call_linkId c = Some linkId ->
  call_token c = Some token ->
  is_well_formed linkId = true ->
  exists url method before body,
    (forall token' v,
        header_value_on_the_wire token' = Some v ->
        sent_request base (with_token token' c)
        = Returned (mkRequest url method (before ++ [(js "X-Edit-Token", v)]) body Follow))
    /\ (forall token',
          header_value_on_the_wire token' = None ->
          sent_request base (with_token token' c) = Threw request_TypeError)
    /\ headers_get (js "X-Edit-Token") before = None
    /\ with_token token c = c.
Proof.
  intros Hid Htok Hwf.
  pose proof (encodeURIComponent_well_formed linkId) as He. rewrite Hwf in He.
  destruct He as [e He].
  destruct c as [payload | id tok data | id tok]; simpl in Hid, Htok; try discriminate;
    injection Hid as ->; injection Htok as ->.
  - exists (API_BASE base ++ js "/api/links/" ++ e), (js "PATCH"),
      [(js "Content-Type", js "application/json")],
      (option_map to_usv_string (JSON_stringify data)).
    split; [|split; [|split; reflexivity]].
    + intros token' v Hv. unfold sent_request. simpl. unfold updateLink_request.
      rewrite He. simpl. apply new_Request_of_update. exact Hv.
    + intros token' Hv. unfold sent_request. simpl. unfold updateLink_request.
      rewrite He. simpl. unfold new_Request.
      cbn [req_method req_headers req_body req_url req_redirect].
      change (negb (is_token (js "PATCH")) || is_forbidden_method (js "PATCH")) with false.
      rewrite (@fill_headers_keeps (js "Content-Type") (js "application/json")
                 (js "application/json")); try reflexivity.
      rewrite fill_headers_throws; [reflexivity | exact Hv].
  - exists (API_BASE base ++ js "/api/links/" ++ e), (js "DELETE"), [], None.
    split; [|split; [|split; reflexivity]].
    + intros token' v Hv. unfold sent_request. simpl. unfold deleteLink_request.
      rewrite He. simpl. apply new_Request_of_delete. exact Hv.
    + intros token' Hv. unfold sent_request. simpl. unfold deleteLink_request.
      rewrite He. simpl. unfold new_Request.
      cbn [req_method req_headers req_body req_url req_redirect].
      change (negb (is_token (js "DELETE")) || is_forbidden_method (js "DELETE")) with false.
      rewrite fill_headers_throws; [reflexivity | exact Hv].
Qed.

Lemma filter_last_only (A : Type) (P : A -> bool) (l : list A) (x : A) :
  filter P l = [] -> P x = true ->
  filter P (l ++ [x]) = [x] /\ filter (fun a => negb (P a)) (l ++ [x]) = l.
Proof.
  intros Hl Hx. rewrite !filter_app. simpl. rewrite Hl, Hx. simpl.
  split; [reflexivity|]. rewrite app_nil_r.
  induction l as [|a l IH]; [reflexivity|].
  simpl in Hl |- *. destruct (P a); [discriminate Hl|].
  simpl. f_equal. apply IH. exact Hl.
Qed.

Lemma headers_get_token_last (before : headers) (v : jsstring) :
  headers_get (js "X-Edit-Token") before = None ->
  headers_get (js "X-Edit-Token") (before ++ [(js "X-Edit-Token", v)]) = Some v
  /\ without_header (js "X-Edit-Token") (before ++ [(js "X-Edit-Token", v)]) = before.
Proof.
  unfold headers_get, without_header. intros Hb.
  set (P := fun p : jsstring * jsstring =>
              jsstring_eqb (lowercase (js "X-Edit-Token")) (lowercase (fst p))) in *.
  assert (Hnone : filter P before = []).
  { destruct (filter P before); [reflexivity | discriminate Hb]. }
  destruct (@filter_last_only _ P before (js "X-Edit-Token", v) Hnone eq_refl)
    as [Hlast Hrest].
  rewrite Hlast. split; [reflexivity | exact Hrest].
Qed.

(** C3, as amended.  For every call of [updateLink] or [deleteLink] with a
    link id that can be encoded and a token that is a header value as it
    stands (no whitespace around it, bytes only), a request is sent; it
    has the header X-Edit-Token, and its value is exactly the token.  The
    token goes nowhere else: the same call made with any other token that
    can be sent has the same URL, the same method, the same body and the
    same other headers, and its X-Edit-Token is that token normalized.
    With a token that cannot be sent no request is made. *)
Theorem edit_token_only_in_its_header
  (base : option jsstring) (c : ApiCall) (linkId token : jsstring) :
  call_linkId c = Some linkId ->
  call_token c = Some token ->
  is_well_formed linkId = true ->
  header_value_on_the_wire token = Some token ->
  exists sent,
    sent_request base c = Returned sent
    /\ headers_get (js "X-Edit-Token") (req_headers sent) = Some token
    /\ (forall token' v,
          header_value_on_the_wire token' = Some v ->
          exists sent',
            sent_request base (with_token token' c) = Returned sent'
            /\ headers_get (js "X-Edit-Token") (req_headers sent') = Some v
            /\ req_url sent' = req_url sent
            /\ req_method sent' = req_method sent
            /\ req_body sent' = req_body sent
            /\ without_header (js "X-Edit-Token") (req_headers sent')
               = without_header (js "X-Edit-Token") (req_headers sent))
    /\ (forall token',
          header_value_on_the_wire token' = None ->
          exists e, sent_request base (with_token token' c) = Threw e
                    /\ err_name e = js "TypeError").
Proof.
  intros Hid Htok Hwf Hv.
  destruct (sent_request_of_a_call base c Hid Htok Hwf)
    as [url [method [before [body [Hsent [Hthrow [Hnone Hsame]]]]]]].
  exists (mkRequest url method (before ++ [(js "X-Edit-Token", token)]) body Follow).
  destruct (headers_get_token_last before token Hnone) as [Hget Hwithout].
  split; [rewrite <- Hsame; apply Hsent; exact Hv|].
  split; [exact Hget|]. split.
  - intros token' v Hv'.
    exists (mkRequest url method (before ++ [(js "X-Edit-Token", v)]) body Follow).
    destruct (headers_get_token_last before v Hnone) as [Hget' Hwithout'].
    split; [apply Hsent; exact Hv'|].
    split; [exact Hget'|]. repeat split.
    simpl. rewrite Hwithout, Hwithout'. reflexivity.
  - intros token' Hv'. exists request_TypeError.
    split; [apply Hthrow; exact Hv' | reflexivity].
Qed.

Lemma edit_token_only_in_its_header_witness :
  (exists sent,
      sent_request None (CallUpdate (js "promo") (js "Zk3v9QmT1xLp7Rw2Yb5Nc8Hd")
                           (Object [(js "target_url", Str (js "https://b.example"))]))
      = Returned sent
      /\ headers_get (js "X-Edit-Token") (req_headers sent)
         = Some (js "Zk3v9QmT1xLp7Rw2Yb5Nc8Hd"))
  /\ (exists sent,
        sent_request None (CallDelete (js "promo") (js "Zk3v9QmT1xLp7Rw2Yb5Nc8Hd"))
        = Returned sent
        /\ headers_get (js "X-Edit-Token") (req_headers sent)
           = Some (js "Zk3v9QmT1xLp7Rw2Yb5Nc8Hd")).
Proof.
  split.
  - destruct (@edit_token_only_in_its_header None
                (CallUpdate (js "promo") (js "Zk3v9QmT1xLp7Rw2Yb5Nc8Hd")
                   (Object [(js "target_url", Str (js "https://b.example"))]))
                (js "promo") (js "Zk3v9QmT1xLp7Rw2Yb5Nc8Hd")
                eq_refl eq_refl eq_refl eq_refl) as [sent [Hsent [Hget _]]].
    exists sent. split; assumption.
  - destruct (@edit_token_only_in_its_header None
                (CallDelete (js "promo") (js "Zk3v9QmT1xLp7Rw2Yb5Nc8Hd"))
                (js "promo") (js "Zk3v9QmT1xLp7Rw2Yb5Nc8Hd")
                eq_refl eq_refl eq_refl eq_refl) as [sent [Hsent [Hget _]]].
    exists sent. split; assumption.
Defined.

(** C3 as it is written fails for a token with whitespace around it:
    [updateLink] called with a token that starts with a space and ends
    with a tab sends the header without them, so the header is not
    exactly the given token. *)
Lemma token_with_whitespace_is_sent_trimmed :
  let token := [32%N] ++ js "s3cret" ++ [9%N] in
  exists sent,
    sent_request None
      (CallUpdate (js "promo") token
         (Object [(js "target_url", Str (js "https://b.example"))]))
    = Returned sent
    /\ headers_get (js "X-Edit-Token") (req_headers sent) = Some (js "s3cret")
    /\ headers_get (js "X-Edit-Token") (req_headers sent) <> Some token.
Proof.
  eexists. split; [reflexivity|]. split; [reflexivity | discriminate].
Qed.

(** ** The answers of the service *)

(** What [updateLink] and [deleteLink] make of an answer, for a link id
    that can be encoded; [createLink] needs no id. *)
Lemma updateLink_after_answer (base : option jsstring) (linkId token : jsstring)
  (data : value) (res : Response) :
  is_well_formed linkId = true ->
  updateLink base (answering res) linkId token data
  = (if negb (res_ok res) then msg <- res_text res ;; Threw (new_Error msg)
     else res_json res).
Proof.
  intros Hwf. pose proof (encodeURIComponent_well_formed linkId) as He.
  rewrite Hwf in He. destruct He as [e He].
  unfold updateLink, updateLink_request. rewrite He. reflexivity.
Qed.

Lemma deleteLink_after_answer (base : option jsstring) (linkId token : jsstring)
  (res : Response) :
  is_well_formed linkId = true ->
  deleteLink base (answering res) linkId token
  = (if negb (res_ok res) then msg <- res_text res ;; Threw (new_Error msg)
     else res_json res).
Proof.
  intros Hwf. pose proof (encodeURIComponent_well_formed linkId) as He.
  rewrite Hwf in He. destruct He as [e He].
  unfold deleteLink, deleteLink_request. rewrite He. reflexivity.
Qed.

Lemma error_status_is_not_ok (res : Response) :
  In (res_status res) error_statuses -> res_ok res = false.
Proof.
  unfold res_ok, error_statuses. simpl.
  intros H; repeat (destruct H as [<- | H]; [reflexivity|]); contradiction.
Qed.

Lemma not_ok_call_returns_nothing (res : Response) (doc : value) :
  res_ok res = false ->
  (if negb (res_ok res) then msg <- res_text res ;; Threw (new_Error msg)
   else res_json res) <> Returned doc.
Proof.
  intros Hok. rewrite Hok. simpl. destruct (res_text res); discriminate.
Qed.

(** The value [updateLink] returns from an answer of the service is the
    external representation of a link. *)
Lemma updateLink_returns_a_representation (base : option jsstring)
  (linkId token : jsstring) (data : value) (res : Response) (doc : value) :
  is_well_formed linkId = true ->
  is_update_answer res ->
  updateLink base (answering res) linkId token data = Returned doc ->
  exists l, doc = external_representation l.
Proof.
  intros Hwf Hres Hdoc. rewrite updateLink_after_answer in Hdoc by exact Hwf.
  destruct Hres as [[Hok [l Hjson]] | Herr].
  - rewrite Hok, Hjson in Hdoc. simpl in Hdoc. injection Hdoc as <-.
    exists l. reflexivity.
  - exfalso. apply (@not_ok_call_returns_nothing res doc);
      [apply error_status_is_not_ok; exact Herr | exact Hdoc].
Qed.

Lemma representation_members (l : Link.t) :
  keys (external_representation l) = LinkOut_members
  /\ has_key (js "edit_token_hash") (external_representation l) = false
  /\ existsb (contains (js "token")) (keys (external_representation l)) = false
  /\ keys (stored_document l) = stored_document_members
  /\ (forall h, external_representation (with_edit_token_hash h l)
                = external_representation l)
  /\ (forall target, Link.target_url l = Some target ->
                     external_representation l = LinkOut.to_value (as_LinkOut target l))
  /\ exists written, SerializeJSONProperty (external_representation l) = Some written
                     /\ keys written = LinkOut_members.
Proof.
  repeat split.
  - intros target Ht. unfold external_representation, stored_document. rewrite Ht.
    reflexivity.
  - destruct l as [i [t|] c ca ua h a [e|]]; cbn; eexists; split; reflexivity.
Qed.

(** The client itself filters nothing: whatever document an ok answer
    carries, [updateLink] returns it as it is.  That an answer has no
    edit_token_hash is a matter of what the service sends. *)
Remark updateLink_hands_over_any_body (base : option jsstring)
  (linkId token : jsstring) (data : value) (res : Response) (doc : value) :
  is_well_formed linkId = true ->
  res_ok res = true ->
  res_json res = Returned doc ->
  updateLink base (answering res) linkId token data = Returned doc.
Proof.
  intros Hwf Hok Hjson. rewrite updateLink_after_answer by exact Hwf.
  rewrite Hok. exact Hjson.
Qed.

(** C1.  Whatever [updateLink] returns from an answer of the service is
    the external representation of a link: it has exactly the members
    link_id, target_url, redirect_code, created_at, updated_at, active
    and expires_at, which are the members of the stored document without
    edit_token_hash, and it is the same whatever the stored hash is.  A
    representation with a target is a value of the type [LinkOut], and
    the seven members are what is written when it is serialized.
    [updateLink] returns for every ok answer, and hands the parsed body
    over as it is. *)
Theorem update_answer_has_no_edit_token_hash (base : option jsstring)
  (linkId token : jsstring) (data : value) (res : Response) :
  is_well_formed linkId = true ->
  is_update_answer res ->
  (res_ok res = true ->
   exists doc, updateLink base (answering res) linkId token data = Returned doc)
  /\ forall doc,
       updateLink base (answering res) linkId token data = Returned doc ->
       res_json res = Returned doc
       /\ keys doc = LinkOut_members
       /\ has_key (js "edit_token_hash") doc = false
       /\ LinkOut_members
          = filter (fun k => negb (jsstring_eqb k (js "edit_token_hash")))
              stored_document_members
       /\ (exists l,
              doc = external_representation l
              /\ keys (stored_document l) = stored_document_members
              /\ (forall h, external_representation (with_edit_token_hash h l) = doc)
              /\ (forall target, Link.target_url l = Some target ->
                                 doc = LinkOut.to_value (as_LinkOut target l)))
       /\ exists written, SerializeJSONProperty doc = Some written
                          /\ keys written = LinkOut_members.
Proof.
  intros Hwf Hres. split.
  - intros Hok. rewrite updateLink_after_answer by exact Hwf. rewrite Hok. simpl.
    destruct Hres as [[_ [l Hjson]] | Herr].
    + rewrite Hjson. eexists. reflexivity.
    + apply error_status_is_not_ok in Herr. congruence.
  - intros doc Hdoc.
    destruct (@updateLink_returns_a_representation base linkId token data res doc Hwf Hres Hdoc) as [l ->].
    destruct (representation_members l) as [Hk [Hh [_ [Hs [Hi [Ht Hw]]]]]].
    split.
    { rewrite updateLink_after_answer in Hdoc by exact Hwf.
      destruct (res_ok res); simpl in Hdoc; [exact Hdoc|].
      destruct (res_text res); discriminate. }
    split; [exact Hk|]. split; [exact Hh|]. split; [reflexivity|].
    split; [|exact Hw].
    exists l. repeat split; assumption.
Qed.

Lemma update_answer_has_no_edit_token_hash_witness :
  exists doc,
    updateLink None (answering (json_response 200 (external_representation example_link)))
      (js "aZ8kL2") (js "Zk3v9QmT1xLp7Rw2Yb5Nc8Hd")
      (Object [(js "redirect_code", Number 302)])
    = Returned doc
    /\ keys doc = LinkOut_members
    /\ has_key (js "edit_token_hash") doc = false.
Proof.
  assert (Hres : is_update_answer
                   (json_response 200 (external_representation example_link))).
  { left. split; [reflexivity|]. exists example_link. reflexivity. }
  destruct (@update_answer_has_no_edit_token_hash None (js "aZ8kL2")
              (js "Zk3v9QmT1xLp7Rw2Yb5Nc8Hd") (Object [(js "redirect_code", Number 302)])
              (json_response 200 (external_representation example_link)) eq_refl Hres)
    as [Hreturns Hmembers].
  destruct (Hreturns eq_refl) as [doc Hdoc].
  exists doc. split; [exact Hdoc|].
  destruct (Hmembers doc Hdoc) as [_ [Hk [Hh _]]]. split; assumption.
Defined.

(** C2.  A successful create is answered with the data of the link and
    the plaintext token, and [createLink] returns that answer: its member
    edit_token is the token, and no other member is named after a token.
    What [updateLink] and [deleteLink] return from the answers of the
    service has no member named after a token: an update returns the
    external representation of a link, which does not depend on the
    stored hash either, and a delete returns a status and the id. *)
Theorem plaintext_token_only_in_create_response (base : option jsstring)
  (payload : CreateLinkPayload.t) (linkId token : jsstring) (data : value)
  (created updated deleted : Response)
  (BASE_URL : jsstring) (l : Link.t) (plaintext_token : jsstring) :
  is_well_formed linkId = true ->
  res_ok created = true ->
  res_json created = Returned (create_representation BASE_URL l plaintext_token) ->
  is_update_answer updated ->
  is_delete_answer deleted ->
  (exists doc,
      createLink base (answering created) payload = Returned doc
      /\ keys doc = CreateLinkResponse_members
      /\ get_prop (js "edit_token") doc = Str plaintext_token
      /\ filter (contains (js "token")) (keys doc) = [js "edit_token"]
      /\ get_prop (js "link_id") doc = Str (Link.id l)
      /\ get_prop (js "short_url") doc = Str (BASE_URL ++ js "/" ++ Link.id l)
      /\ get_prop (js "redirect_code") doc = Number (code_number (Link.redirect_code l))
      /\ get_prop (js "created_at") doc = Str (Link.created_at l))
  /\ (forall doc,
        updateLink base (answering updated) linkId token data = Returned doc ->
        existsb (contains (js "token")) (keys doc) = false
        /\ exists l', doc = external_representation l'
                      /\ forall h, external_representation (with_edit_token_hash h l') = doc)
  /\ (forall doc,
        deleteLink base (answering deleted) linkId token = Returned doc ->
        keys doc = [js "status"; js "link_id"]
        /\ existsb (contains (js "token")) (keys doc) = false).
Proof.
  intros Hwf Hok Hjson Hupd Hdel. split; [|split].
  - exists (create_representation BASE_URL l plaintext_token).
    split; [|repeat split].
    unfold createLink, answering. simpl. rewrite Hok, Hjson. reflexivity.
  - intros doc Hdoc.
    destruct (@updateLink_returns_a_representation base linkId token data updated doc Hwf Hupd Hdoc) as [l' ->].
    destruct (representation_members l') as [_ [_ [Hno [_ [Hi _]]]]].
    split; [exact Hno|]. exists l'. split; [reflexivity | exact Hi].
  - intros doc Hdoc. rewrite deleteLink_after_answer in Hdoc by exact Hwf.
    destruct Hdel as [[Hok' [status [l' Hjson']]] | Herr].
    + rewrite Hok', Hjson' in Hdoc. simpl in Hdoc. injection Hdoc as <-.
      split; reflexivity.
    + exfalso. apply (@not_ok_call_returns_nothing deleted doc);
        [apply error_status_is_not_ok; exact Herr | exact Hdoc].
Qed.

Lemma plaintext_token_only_in_create_response_witness :
  exists doc,
    createLink None
      (answering (json_response 201
                    (create_representation (js "http://localhost:8000") example_link
                       (js "Zk3v9QmT1xLp7Rw2Yb5Nc8Hd"))))
      (CreateLinkPayload.mk (js "https://example.com/abc/xyz") (Some (js "aZ8kL2"))
         (Some C302))
    = Returned doc
    /\ get_prop (js "edit_token") doc = Str (js "Zk3v9QmT1xLp7Rw2Yb5Nc8Hd")
    /\ filter (contains (js "token")) (keys doc) = [js "edit_token"].
Proof.
  assert (Hupd : is_update_answer
                   (json_response 200 (external_representation example_link))).
  { left. split; [reflexivity|]. exists example_link. reflexivity. }
  assert (Hdel : is_delete_answer
                   (json_response 200 (delete_representation (js "deleted") example_link))).
  { left. split; [reflexivity|]. exists (js "deleted"), example_link. reflexivity. }
  destruct (@plaintext_token_only_in_create_response None
              (CreateLinkPayload.mk (js "https://example.com/abc/xyz") (Some (js "aZ8kL2"))
                 (Some C302))
              (js "aZ8kL2") (js "Zk3v9QmT1xLp7Rw2Yb5Nc8Hd") (Object [])
              (json_response 201
                 (create_representation (js "http://localhost:8000") example_link
                    (js "Zk3v9QmT1xLp7Rw2Yb5Nc8Hd")))
              (json_response 200 (external_representation example_link))
              (json_response 200 (delete_representation (js "deleted") example_link))
              (js "http://localhost:8000") example_link (js "Zk3v9QmT1xLp7Rw2Yb5Nc8Hd")
              eq_refl eq_refl eq_refl Hupd Hdel)
    as [[doc [Hdoc [_ [Htoken [Honly _]]]]] _].
  exists doc. repeat split; assumption.
Defined.

(* ================================================================== *)
(** * Part VII.  Further properties of the two files                   *)
(* ================================================================== *)

(** ** Link ids that cannot be encoded *)

(** [updateLink] and [deleteLink] hand a request to [fetch] exactly when
    the link id is well formed; for an id with a surrogate that stands
    alone they throw the URIError of encodeURIComponent, whatever [fetch]
    would answer.  [createLink] always hands over a request. *)
Theorem calls_need_a_well_formed_id (base : option jsstring) (c : ApiCall) :
  (call_linkId c = None -> exists req, request_of base c = Returned req)
  /\ (forall linkId,
        call_linkId c = Some linkId -> is_well_formed linkId = true ->
        exists req, request_of base c = Returned req)
  /\ (forall linkId fetch,
        call_linkId c = Some linkId -> is_well_formed linkId = false ->
        request_of base c = Threw URI_malformed
        /\ perform base fetch c = Threw URI_malformed).
Proof.
  split; [|split].
  - destruct c; simpl; try discriminate. intros _. eexists. reflexivity.
  - intros linkId Hid Hwf.
    pose proof (encodeURIComponent_well_formed linkId) as H. rewrite Hwf in H.
    destruct H as [e He].
    destruct c; simpl in *; try discriminate; injection Hid as ->.
    + unfold updateLink_request. rewrite He. simpl. eexists. reflexivity.
    + unfold deleteLink_request. rewrite He. simpl. eexists. reflexivity.
  - intros linkId fetch Hid Hwf.
    pose proof (encodeURIComponent_well_formed linkId) as H. rewrite Hwf in H.
    assert (Hreq : request_of base c = Threw URI_malformed).
    { destruct c; simpl in *; try discriminate; injection Hid as ->.
      - unfold updateLink_request. rewrite H. reflexivity.
      - unfold deleteLink_request. rewrite H. reflexivity. }
    split; [exact Hreq|]. apply call_without_request_throws. exact Hreq.
Qed.

Lemma calls_need_a_well_formed_id_witness :
  perform None (answering created_201) (CallDelete [56320%N] (js "t0ken"))
  = Threw URI_malformed.
Proof.
  exact (proj2 (proj2 (proj2 (@calls_need_a_well_formed_id None
                                (CallDelete [56320%N] (js "t0ken"))))
                  [56320%N] (answering created_201) eq_refl eq_refl)).
Defined.

(** ** Link ids of the service *)

Lemma is_link_id_char_unreserved (c : N) :
  is_link_id_char c = true -> uri_unreserved c = true.
Proof.
  unfold is_link_id_char, uri_unreserved, uri_marks. simpl existsb.
  destruct (is_alnum c); [reflexivity|]. simpl.
  destruct (N.eqb c 95); [intros _; rewrite orb_true_r; reflexivity|].
  destruct (N.eqb c 45); [reflexivity | discriminate].
Qed.

Lemma encodeURIComponent_link_id (id : jsstring) :
  forallb is_link_id_char id = true -> encodeURIComponent id = Returned id.
Proof.
  induction id as [|c id IH]; simpl; [reflexivity|].
  intros H. apply andb_true_iff in H. destruct H as [Hc Hid].
  rewrite (is_link_id_char_unreserved c Hc), (IH Hid). reflexivity.
Qed.

(** A safe string that is not a dot segment is read as one segment. *)
Lemma safe_segment_is_last (e : jsstring) :
  Forall (fun c => uri_safe c = true) e ->
  is_single_dot e = false -> is_double_dot e = false ->
  is_last_segment (js "/api/links/") [js "api"; js "links"] e
  /\ is_last_segment (js "/") [] e.
Proof.
  intros Hsafe H1 H2. unfold is_last_segment. split.
  - rewrite (url_path_of_safe (js "/api/links/") eq_refl Hsafe). simpl.
    rewrite (path_state_safe _ _ Hsafe). unfold end_segment at 1.
    change ([] ++ e) with e. rewrite H1, H2. reflexivity.
  - rewrite (url_path_of_safe (js "/") eq_refl Hsafe). simpl.
    rewrite (path_state_safe _ _ Hsafe). unfold end_segment at 1.
    change ([] ++ e) with e. rewrite H1, H2. reflexivity.
Qed.

(** For a link id made of letters, digits, underscores and hyphens,
    encoding changes nothing: the requests of [updateLink], [deleteLink]
    and the tester go to the base followed by the path and the id as it
    is, and the URL parser reads the id as the last segment of that
    path. *)
Theorem service_ids_go_into_the_url_unchanged (base : option jsstring)
  (linkId : jsstring) :
  forallb is_link_id_char linkId = true ->
  (forall token data,
      exists req,
        updateLink_request base linkId token data = Returned req
        /\ req_url req = API_BASE base ++ js "/api/links/" ++ linkId)
  /\ (forall token,
        exists req,
          deleteLink_request base linkId token = Returned req
          /\ req_url req = API_BASE base ++ js "/api/links/" ++ linkId)
  /\ (exists req,
        testRedirect_request base linkId = Returned req
        /\ req_url req = API_BASE base ++ js "/" ++ linkId)
  /\ is_last_segment (js "/api/links/") [js "api"; js "links"] linkId
  /\ is_last_segment (js "/") [] linkId.
Proof.
  intros Hid. pose proof (encodeURIComponent_link_id linkId Hid) as He.
  split; [|split; [|split]].
  - intros token data. unfold updateLink_request. rewrite He. simpl.
    eexists. split; reflexivity.
  - intros token. unfold deleteLink_request. rewrite He. simpl.
    eexists. split; reflexivity.
  - unfold testRedirect_request. rewrite He. simpl. eexists. split; reflexivity.
  - apply safe_segment_is_last.
    + apply (encodeURIComponent_safe _ He).
    + apply (encoded_is_not_a_dot_segment He).
      * intros ->. discriminate Hid.
      * intros ->. discriminate Hid.
    + apply (encoded_is_not_a_dot_segment He).
      * intros ->. discriminate Hid.
      * intros ->. discriminate Hid.
Qed.

Lemma service_ids_go_into_the_url_unchanged_witness :
  is_last_segment (js "/api/links/") [js "api"; js "links"] (js "my-alias_01").
Proof.
  exact (proj1 (proj2 (proj2 (proj2
           (@service_ids_go_into_the_url_unchanged None (js "my-alias_01") eq_refl))))).
Defined.

(** ** Different ids, different URLs *)

(** From here on [lia] also decides goals with division by a constant. *)
Ltac Zify.zify_post_hook ::= Z.to_euclidean_division_equations.

Lemma hex_digit_inj (x y : N) :
  (x < 16)%N -> (y < 16)%N -> hex_digit x = hex_digit y -> x = y.
Proof.
  unfold hex_digit. intros Hx Hy.
  destruct (N.ltb_spec x 10), (N.ltb_spec y 10); lia.
Qed.

Lemma percent_octet_inj (b1 b2 : N) (t1 t2 : jsstring) :
  (b1 < 256)%N -> (b2 < 256)%N ->
  percent_octet b1 ++ t1 = percent_octet b2 ++ t2 -> b1 = b2 /\ t1 = t2.
Proof.
  intros H1 H2 H. rewrite !percent_octet_app in H.
  injection H. intros Ht Hlo Hhi.
  apply hex_digit_inj in Hhi; [|apply N.mod_lt; discriminate ..].
  apply hex_digit_inj in Hlo; [|apply N.mod_lt; discriminate ..].
  split; [lia | exact Ht].
Qed.

(** The four forms of the UTF-8 octets of a code point, with the bits
    each octet carries. *)
Lemma utf8_forms (cp : N) :
  (cp < 1114112)%N ->
  ((cp < 128)%N /\ utf8 cp = [cp])
  \/ (exists a b,
        utf8 cp = [192 + a; 128 + b]%N
        /\ (1 < a < 32 /\ b < 64 /\ cp = 64 * a + b)%N)
  \/ (exists a b c,
        utf8 cp = [224 + a; 128 + b; 128 + c]%N
        /\ (a < 16 /\ b < 64 /\ c < 64 /\ cp = 4096 * a + 64 * b + c
            /\ 2048 <= cp)%N)
  \/ (exists a b c d,
        utf8 cp = [240 + a; 128 + b; 128 + c; 128 + d]%N
        /\ (a < 8 /\ b < 64 /\ c < 64 /\ d < 64
            /\ cp = 262144 * a + 4096 * b + 64 * c + d /\ 65536 <= cp)%N).
Proof.
  intros B. unfold utf8.
  destruct (N.ltb_spec cp 128) as [H1|H1]; [left; split; [exact H1 | reflexivity]|].
  right. destruct (N.ltb_spec cp 2048) as [H2|H2].
  { left. eexists; eexists; split; [reflexivity|]. lia. }
  right. destruct (N.ltb_spec cp 65536) as [H3|H3].
  { left. eexists; eexists; eexists; split; [reflexivity|]. lia. }
  right. eexists; eexists; eexists; eexists; split; [reflexivity|]. lia.
Qed.

Lemma percent_octets_cons (b : N) (bs : list N) (r : jsstring) :
  percent_octets (b :: bs) ++ r = percent_octet b ++ (percent_octets bs ++ r).
Proof. unfold percent_octets. cbn [flat_map]. rewrite <- app_assoc. reflexivity. Qed.

Lemma percent_octets_nil (r : jsstring) : percent_octets [] ++ r = r.
Proof. reflexivity. Qed.

(** Peel the escapes off both sides of an equation between encoded
    strings, octet by octet. *)
Ltac peel_octets Heq :=
  rewrite ?percent_octets_cons, ?percent_octets_nil in Heq;
  repeat match type of Heq with
         | percent_octet _ ++ _ = percent_octet _ ++ _ =>
             let E := fresh "E" in
             apply percent_octet_inj in Heq; [destruct Heq as [E Heq] | lia | lia]
         end.

Lemma utf8_escape_inj (cp1 cp2 : N) (r1 r2 : jsstring) :
  (cp1 < 1114112)%N -> (cp2 < 1114112)%N ->
  percent_octets (utf8 cp1) ++ r1 = percent_octets (utf8 cp2) ++ r2 ->
  cp1 = cp2 /\ r1 = r2.
Proof.
  intros B1 B2 Heq.
  destruct (utf8_forms B1)
    as [[L1 F1] | [(a1 & b1 & F1 & R1) | [(a1 & b1 & c1 & F1 & R1)
        | (a1 & b1 & c1 & d1 & F1 & R1)]]];
    destruct (utf8_forms B2)
      as [[L2 F2] | [(a2 & b2 & F2 & R2) | [(a2 & b2 & c2 & F2 & R2)
          | (a2 & b2 & c2 & d2 & F2 & R2)]]];
    rewrite F1, F2 in Heq; clear F1 F2;
    rewrite !percent_octets_cons in Heq;
    (apply percent_octet_inj in Heq; [|lia|lia]);
    destruct Heq as [E0 Heq]; try lia;
    peel_octets Heq; (split; [lia | exact Heq]).
Qed.

(** The first step of [encodeURIComponent], case by case: a copied
    code unit, an escaped code unit, or an escaped surrogate pair. *)
Lemma encodeURIComponent_step (c : N) (rest e : jsstring) :
  encodeURIComponent (c :: rest) = Returned e ->
  (uri_unreserved c = true
   /\ exists r, encodeURIComponent rest = Returned r /\ e = c :: r)
  \/ (uri_unreserved c = false /\ is_leading_surrogate c = false
      /\ exists r, encodeURIComponent rest = Returned r
                   /\ e = percent_octets (utf8 c) ++ r)
  \/ (uri_unreserved c = false /\ is_leading_surrogate c = true
      /\ exists d rest' r,
           rest = d :: rest' /\ is_trailing_surrogate d = true
           /\ encodeURIComponent rest' = Returned r
           /\ e = percent_octets (utf8 (surrogate_pair c d)) ++ r).
Proof.
  simpl. destruct (uri_unreserved c) eqn:Hc.
  - destruct (encodeURIComponent rest) as [r|]; simpl; [|discriminate].
    intros H. injection H as <-. left. split; [reflexivity|].
    exists r. split; reflexivity.
  - destruct (is_trailing_surrogate c); [discriminate|].
    destruct (is_leading_surrogate c).
    + destruct rest as [|d rest']; [discriminate|].
      destruct (is_trailing_surrogate d) eqn:Hd; [|discriminate].
      destruct (encodeURIComponent rest') as [r|] eqn:Hr; simpl; [|discriminate].
      intros H. injection H as <-. right. right.
      split; [reflexivity|]. split; [reflexivity|].
      exists d, rest', r. split; [reflexivity|]. split; [exact Hd|].
      split; [exact Hr | reflexivity].
    + destruct (encodeURIComponent rest) as [r|]; simpl; [|discriminate].
      intros H. injection H as <-. right. left.
      split; [reflexivity|]. split; [reflexivity|].
      exists r. split; reflexivity.
Qed.

Lemma escape_starts_with_percent (cp : N) (r : jsstring) :
  exists t, percent_octets (utf8 cp) ++ r = 37%N :: t.
Proof.
  unfold utf8. destruct (cp <? 128)%N; [|destruct (cp <? 2048)%N;
    [|destruct (cp <? 65536)%N]]; eexists; reflexivity.
Qed.

Lemma surrogate_pair_bounds (c d : N) :
  is_leading_surrogate c = true -> is_trailing_surrogate d = true ->
  (65536 <= surrogate_pair c d < 1114112)%N.
Proof.
  unfold is_leading_surrogate, is_trailing_surrogate, surrogate_pair.
  rewrite !andb_true_iff, !N.leb_le. lia.
Qed.

Lemma surrogate_pair_inj (c1 d1 c2 d2 : N) :
  is_leading_surrogate c1 = true -> is_trailing_surrogate d1 = true ->
  is_leading_surrogate c2 = true -> is_trailing_surrogate d2 = true ->
  surrogate_pair c1 d1 = surrogate_pair c2 d2 -> c1 = c2 /\ d1 = d2.
Proof.
  unfold is_leading_surrogate, is_trailing_surrogate, surrogate_pair.
  rewrite !andb_true_iff, !N.leb_le. lia.
Qed.

Lemma encodeURIComponent_injective_upto (n : nat) :
  forall s1 s2 e,
    (List.length s1 <= n)%nat ->
    code_units s1 = true -> code_units s2 = true ->
    encodeURIComponent s1 = Returned e -> encodeURIComponent s2 = Returned e ->
    s1 = s2.
Proof.
  induction n as [|n IH]; intros s1 s2 e Hlen U1 U2 E1 E2.
  - destruct s1; [|simpl in Hlen; lia]. simpl in E1. injection E1 as <-.
    destruct s2 as [|c2 rest2]; [reflexivity|].
    destruct (encodeURIComponent_cons c2 rest2 E2)
      as [[_ [r [_ H]]] | [_ [b [t [H _]]]]]; discriminate H.
  - destruct s1 as [|c1 rest1].
    { simpl in E1. injection E1 as <-.
      destruct s2 as [|c2 rest2]; [reflexivity|].
      destruct (encodeURIComponent_cons c2 rest2 E2)
        as [[_ [r [_ H]]] | [_ [b [t [H _]]]]]; discriminate H. }
    destruct s2 as [|c2 rest2].
    { simpl in E2. injection E2 as <-.
      destruct (encodeURIComponent_cons c1 rest1 E1)
        as [[_ [r [_ H]]] | [_ [b [t [H _]]]]]; discriminate H. }
    simpl in Hlen. unfold code_units in U1, U2. simpl in U1, U2.
    apply andb_true_iff in U1. destruct U1 as [B1 U1].
    apply andb_true_iff in U2. destruct U2 as [B2 U2].
    apply N.ltb_lt in B1. apply N.ltb_lt in B2.
    destruct (encodeURIComponent_step c1 rest1 E1)
      as [[Hc1 (r1 & R1 & ->)]
         | [(Hc1 & Hl1 & r1 & R1 & ->)
           | (Hc1 & Hl1 & d1 & t1 & r1 & -> & Hd1 & R1 & ->)]];
      destruct (encodeURIComponent_step c2 rest2 E2)
        as [[Hc2 (r2 & R2 & He)]
           | [(Hc2 & Hl2 & r2 & R2 & He)
             | (Hc2 & Hl2 & d2 & t2 & r2 & -> & Hd2 & R2 & He)]].
    + injection He as <- <-. f_equal.
      apply (IH rest1 rest2 r1); try assumption. lia.
    + destruct (escape_starts_with_percent c2 r2) as [t Ht]. rewrite Ht in He.
      injection He as -> _. discriminate Hc1.
    + destruct (escape_starts_with_percent (surrogate_pair c2 d2) r2) as [t Ht].
      rewrite Ht in He. injection He as -> _. discriminate Hc1.
    + destruct (escape_starts_with_percent c1 r1) as [t Ht]. rewrite Ht in He.
      injection He as <- _. discriminate Hc2.
    + apply utf8_escape_inj in He; [|lia|lia]. destruct He as [<- <-]. f_equal.
      apply (IH rest1 rest2 r1); try assumption. lia.
    + pose proof (surrogate_pair_bounds c2 d2 Hl2 Hd2) as Hb.
      apply utf8_escape_inj in He; [|lia|lia]. lia.
    + destruct (escape_starts_with_percent (surrogate_pair c1 d1) r1) as [t Ht].
      rewrite Ht in He. injection He as <- _. discriminate Hc2.
    + pose proof (surrogate_pair_bounds c1 d1 Hl1 Hd1) as Hb.
      apply utf8_escape_inj in He; [|lia|lia]. lia.
    + pose proof (surrogate_pair_bounds c1 d1 Hl1 Hd1) as Hb1.
      pose proof (surrogate_pair_bounds c2 d2 Hl2 Hd2) as Hb2.
      apply utf8_escape_inj in He; [|lia|lia]. destruct He as [Hp <-].
      destruct (surrogate_pair_inj c1 d1 c2 d2 Hl1 Hd1 Hl2 Hd2 Hp) as [-> ->].
      f_equal. f_equal.
      simpl in U1, U2. apply andb_true_iff in U1. apply andb_true_iff in U2.
      apply (IH t1 t2 r1); try tauto. simpl in Hlen. lia.
Qed.

(** Two strings of code units with the same encoding are the same
    string. *)
Lemma encodeURIComponent_injective (s1 s2 e : jsstring) :
  code_units s1 = true -> code_units s2 = true ->
  encodeURIComponent s1 = Returned e -> encodeURIComponent s2 = Returned e ->
  s1 = s2.
Proof. intros. eapply encodeURIComponent_injective_upto; eauto. Qed.

(** The empty id and the id of one dot are read as the same path, which
    is why the dot ids are left out below. *)
Example empty_id_and_dot_share_a_path :
  url_path (js "/api/links/" ++ []) = url_path (js "/api/links/" ++ js ".").
Proof. reflexivity. Qed.

(** Two calls with different link ids never ask for the same path.  For
    two different ids, neither of them a dot id, the encoded ids differ,
    each of them is the last segment of the path that the URL parser
    reads, and so the paths differ; the URLs handed to [fetch] by
    [updateLink], [deleteLink] and the tester are the base followed by
    these paths. *)
Theorem different_ids_go_to_different_paths (base : option jsstring)
  (id1 id2 : jsstring) :
  code_units id1 = true -> code_units id2 = true ->
  is_well_formed id1 = true -> is_well_formed id2 = true ->
  id1 <> id2 ->
  id1 <> js "." -> id1 <> js ".." -> id2 <> js "." -> id2 <> js ".." ->
  exists e1 e2,
    encodeURIComponent id1 = Returned e1
    /\ encodeURIComponent id2 = Returned e2
    /\ e1 <> e2
    /\ url_path (js "/api/links/" ++ e1) = ([js "api"; js "links"; e1], [])
    /\ url_path (js "/api/links/" ++ e2) = ([js "api"; js "links"; e2], [])
    /\ url_path (js "/" ++ e1) = ([e1], [])
    /\ url_path (js "/" ++ e2) = ([e2], [])
    /\ (forall c1 c2,
          call_linkId c1 = Some id1 -> call_linkId c2 = Some id2 ->
          exists req1 req2,
            request_of base c1 = Returned req1
            /\ request_of base c2 = Returned req2
            /\ req_url req1 = API_BASE base ++ js "/api/links/" ++ e1
            /\ req_url req2 = API_BASE base ++ js "/api/links/" ++ e2)
    /\ exists req1 req2,
         testRedirect_request base id1 = Returned req1
         /\ testRedirect_request base id2 = Returned req2
         /\ req_url req1 = API_BASE base ++ js "/" ++ e1
         /\ req_url req2 = API_BASE base ++ js "/" ++ e2.
Proof.
  intros U1 U2 W1 W2 Hne D1 DD1 D2 DD2.
  pose proof (encodeURIComponent_well_formed id1) as E1. rewrite W1 in E1.
  pose proof (encodeURIComponent_well_formed id2) as E2. rewrite W2 in E2.
  destruct E1 as [e1 E1]. destruct E2 as [e2 E2].
  exists e1, e2. split; [exact E1|]. split; [exact E2|].
  split.
  { intros Heq. subst e2. apply Hne.
    eapply encodeURIComponent_injective; eauto. }
  destruct (encoded_is_not_a_dot_segment E1 D1 DD1) as [S1 SS1].
  destruct (encoded_is_not_a_dot_segment E2 D2 DD2) as [S2 SS2].
  destruct (safe_segment_is_last (encodeURIComponent_safe _ E1) S1 SS1) as [A1 T1].
  destruct (safe_segment_is_last (encodeURIComponent_safe _ E2) S2 SS2) as [A2 T2].
  split; [exact A1|]. split; [exact A2|]. split; [exact T1|]. split; [exact T2|].
  split.
  - intros c1 c2 H1 H2.
    assert (Hreq : forall c id e,
              call_linkId c = Some id -> encodeURIComponent id = Returned e ->
              exists req, request_of base c = Returned req
                          /\ req_url req = API_BASE base ++ js "/api/links/" ++ e).
    { intros c id e Hid He.
      destruct c; simpl in Hid |- *; try discriminate; injection Hid as ->.
      - unfold updateLink_request. rewrite He. simpl. eexists. split; reflexivity.
      - unfold deleteLink_request. rewrite He. simpl. eexists. split; reflexivity. }
    destruct (Hreq c1 id1 e1 H1 E1) as [req1 [R1 V1]].
    destruct (Hreq c2 id2 e2 H2 E2) as [req2 [R2 V2]].
    exists req1, req2. repeat split; assumption.
  - unfold testRedirect_request. rewrite E1, E2. simpl.
    eexists. eexists. repeat split.
Qed.

Lemma different_ids_go_to_different_paths_witness :
  exists e1 e2,
    encodeURIComponent (js "a/b") = Returned e1
    /\ encodeURIComponent (js "a%2Fb") = Returned e2
    /\ e1 <> e2
    /\ url_path (js "/api/links/" ++ e1) = ([js "api"; js "links"; e1], [])
    /\ url_path (js "/api/links/" ++ e2) = ([js "api"; js "links"; e2], []).
Proof.
  assert (Hne : js "a/b" <> js "a%2Fb") by discriminate.
  assert (D1 : js "a/b" <> js ".") by discriminate.
  assert (DD1 : js "a/b" <> js "..") by discriminate.
  assert (D2 : js "a%2Fb" <> js ".") by discriminate.
  assert (DD2 : js "a%2Fb" <> js "..") by discriminate.
  destruct (@different_ids_go_to_different_paths None (js "a/b") (js "a%2Fb")
              eq_refl eq_refl eq_refl eq_refl Hne D1 DD1 D2 DD2)
    as [e1 [e2 [E1 [E2 [He [A1 [A2 _]]]]]]].
  exists e1, e2. repeat split; assumption.
Defined.

(** ** What a call makes of an answer *)

(** The three calls look at an answer through [ok] and one body only:
    two answers that agree on [ok], and on the JSON body when they are ok
    or on the text when they are not, give the same outcome, whatever
    their statuses and headers are. *)
Theorem outcome_depends_on_ok_and_body (base : option jsstring) (c : ApiCall)
  (res1 res2 : Response) :
  res_ok res1 = res_ok res2 ->
  (res_ok res1 = true -> res_json res1 = res_json res2) ->
  (res_ok res1 = false -> res_text res1 = res_text res2) ->
  perform base (answering res1) c = perform base (answering res2) c.
Proof.
  intros Hok Hjson Htext.
  assert (Hrest :
            (if negb (res_ok res1)
             then msg <- res_text res1 ;; Threw (new_Error msg)
             else res_json res1)
            = (if negb (res_ok res2)
               then msg <- res_text res2 ;; Threw (new_Error msg)
               else res_json res2)).
  { rewrite <- Hok. destruct (res_ok res1); simpl.
    - apply Hjson. reflexivity.
    - rewrite Htext; reflexivity. }
  destruct c as [payload | linkId token data | linkId token]; simpl.
  - unfold createLink, answering. simpl. exact Hrest.
  - unfold updateLink, answering.
    destruct (updateLink_request base linkId token data); simpl; [exact Hrest | reflexivity].
  - unfold deleteLink, answering.
    destruct (deleteLink_request base linkId token); simpl; [exact Hrest | reflexivity].
Qed.

Lemma outcome_depends_on_ok_and_body_witness :
  perform None
    (answering (mkResponse 404 [] (Returned (js "Not found")) (Returned Null)))
    (CallDelete (js "promo") (js "t0ken"))
  = perform None
      (answering (mkResponse 500 [(js "retry-after", js "5")] (Returned (js "Not found"))
                    (Threw (new_SyntaxError (js "Unexpected token")))))
      (CallDelete (js "promo") (js "t0ken")).
Proof.
  apply outcome_depends_on_ok_and_body.
  - reflexivity.
  - simpl. discriminate.
  - reflexivity.
Defined.

(** ** What the page shows after a failure *)

Lemma error_text_empty (e : JsError) :
  error_text e = [] <-> err_name e = [] /\ err_message e = [].
Proof.
  unfold error_text, or_string, Error_toString.
  destruct e as [[|n name] [|m msg]]; simpl; split; try intros [H1 H2];
    try discriminate; intros; try split; try reflexivity; try discriminate.
Qed.

Lemma error_text_new_Error (msg : jsstring) :
  error_text (new_Error msg) = if truthy_string msg then msg else js "Error".
Proof. destruct msg; reflexivity. Qed.

Lemma resume_after_a_throw (base : option jsstring) (inv : Invocation)
  (answer : completion Response) (e : JsError) (st : App) :
  handler_of inv <> BtnTest ->
  outcome_of base inv answer = Threw e ->
  error_of (handler_of inv) (resume base inv answer st) = Some (error_text e)
  /\ result_of (handler_of inv) (resume base inv answer st)
     = result_of (handler_of inv) st.
Proof.
  intros Hb Hout. destruct inv; simpl in *; try congruence;
    rewrite Hout; split; reflexivity.
Qed.

Lemma shown_error (b : Button) (st : App) (s : jsstring) :
  error_of b st = Some s -> s <> [] ->
  shows_error b st = true /\ error_line b st = Some (js "Error: " ++ s).
Proof.
  intros He Hs. unfold shows_error, error_line. rewrite He.
  destruct s; [congruence|]. split; reflexivity.
Qed.

(** When the call of a handler throws, whatever the reason (the id
    cannot be encoded, [fetch] rejects, the answer is not ok, the body
    cannot be read), the error of the card is set to the message of the
    exception, or to its name when the message is empty, and the result
    is left as it was.  The error block is rendered unless the exception
    has neither a name nor a message. *)
Theorem failed_call_shows_an_error (base : option jsstring) (inv : Invocation)
  (answer : completion Response) (e : JsError) (st : App) :
  handler_of inv <> BtnTest ->
  outcome_of base inv answer = Threw e ->
  let b := handler_of inv in
  let st' := resume base inv answer st in
  error_of b st' = Some (error_text e)
  /\ result_of b st' = result_of b st
  /\ (err_message e <> [] -> error_text e = err_message e)
  /\ (err_message e = [] -> error_text e = err_name e)
  /\ (shows_error b st' = false <-> err_name e = [] /\ err_message e = [])
  /\ (shows_error b st' = true ->
      error_line b st' = Some (js "Error: " ++ error_text e)).
Proof.
  intros Hb Hout b st'.
  destruct (resume_after_a_throw base inv answer st Hb Hout) as [He Hr].
  fold b in He, Hr. fold st' in He, Hr.
  split; [exact He|]. split; [exact Hr|].
  split; [|split; [|split]].
  - unfold error_text, or_string. destruct (err_message e); [congruence | reflexivity].
  - intros Hm. unfold error_text, or_string, Error_toString. rewrite Hm. simpl.
    destruct (err_name e); reflexivity.
  - rewrite <- error_text_empty. unfold shows_error. rewrite He.
    destruct (error_text e); simpl; split; congruence.
  - unfold shows_error, error_line. rewrite He.
    destruct (error_text e); simpl; [discriminate | reflexivity].
Qed.

Lemma failed_call_shows_an_error_witness :
  let inv := RunUpdate (js "promo") (js "t0ken") (Object []) in
  let st' := resume None inv (Threw network_error) initial in
  error_of BtnUpdate st' = Some (js "Failed to fetch")
  /\ error_line BtnUpdate st' = Some (js "Error: Failed to fetch").
Proof.
  assert (Hb : handler_of (RunUpdate (js "promo") (js "t0ken") (Object [])) <> BtnTest)
    by discriminate.
  destruct (@failed_call_shows_an_error None
              (RunUpdate (js "promo") (js "t0ken") (Object []))
              (Threw network_error) network_error initial Hb eq_refl)
    as [He [_ [_ [_ [_ Hl]]]]].
  split; [exact He | exact (Hl eq_refl)].
Defined.

(** An answer that is not ok and whose body can be read always ends in
    a rendered error block: it shows the body, or the word Error when the
    body is empty.  The result of the card is left as it was. *)
Theorem not_ok_answer_is_shown (base : option jsstring) (inv : Invocation)
  (req : Request) (res : Response) (msg : jsstring) (st : App) :
  handler_of inv <> BtnTest ->
  request_of_invocation base inv = Returned req ->
  res_ok res = false ->
  res_text res = Returned msg ->
  let b := handler_of inv in
  let st' := resume base inv (Returned res) st in
  shows_error b st' = true
  /\ error_line b st'
     = Some (js "Error: " ++ (if truthy_string msg then msg else js "Error"))
  /\ shows_result b st' = shows_result b st.
Proof.
  intros Hb Hreq Hok Hmsg b st'.
  assert (Hout : outcome_of base inv (Returned res) = Threw (new_Error msg)).
  { destruct inv; simpl in *; try congruence.
    - unfold createLink. simpl. rewrite Hok, Hmsg. reflexivity.
    - unfold updateLink. rewrite Hreq. simpl. rewrite Hok, Hmsg. reflexivity.
    - unfold deleteLink. rewrite Hreq. simpl. rewrite Hok, Hmsg. reflexivity. }
  destruct (resume_after_a_throw base inv (Returned res) st Hb Hout) as [He Hr].
  fold b in He, Hr. fold st' in He, Hr.
  rewrite error_text_new_Error in He.
  assert (Hne : (if truthy_string msg then msg else js "Error") <> []).
  { destruct msg; discriminate. }
  destruct (shown_error b st' He Hne) as [Hs Hl].
  split; [exact Hs|]. split; [exact Hl|].
  unfold shows_result. rewrite Hr. reflexivity.
Qed.

Lemma not_ok_answer_is_shown_witness :
  let inv := RunDelete (js "promo") (js "wrong") in
  let st' := resume None inv (Returned (empty_response 403 [])) initial in
  shows_error BtnDelete st' = true
  /\ error_line BtnDelete st' = Some (js "Error: Error")
  /\ shows_result BtnDelete st' = shows_result BtnDelete initial.
Proof.
  assert (Hb : handler_of (RunDelete (js "promo") (js "wrong")) <> BtnTest) by discriminate.
  exact (@not_ok_answer_is_shown None (RunDelete (js "promo") (js "wrong")) _
           (empty_response 403 []) [] initial Hb eq_refl eq_refl eq_refl).
Defined.

(** ** An ok answer with a falsy body *)

Lemma nth_error_last (A : Type) (l : list A) (x : A) :
  nth_error (l ++ [x]) (List.length l) = Some x.
Proof. induction l; simpl; [reflexivity | exact IHl]. Qed.

Lemma remove_nth_last (A : Type) (l : list A) (x : A) :
  remove_nth (List.length l) (l ++ [x]) = l.
Proof. induction l; simpl; [reflexivity | rewrite IHl; reflexivity]. Qed.

Lemma click_calls (b : Button) (p : Page) :
  pending (click b p) = pending p ++ [called b (app p)].
Proof. destruct b; reflexivity. Qed.

(** A click followed by an ok answer whose JSON body is falsy ([null],
    [false], [0] or the empty string) leaves the card with neither a
    result block nor an error block, and nothing waiting: the page looks
    as if the request had never been answered. *)
Theorem falsy_answer_shows_nothing (base : option jsstring) (b : Button) (p : Page)
  (req : Request) (res : Response) (v : value) :
  b <> BtnTest ->
  request_of_invocation base (called b (app p)) = Returned req ->
  res_ok res = true ->
  res_json res = Returned v ->
  truthy v = false ->
  let p' := run base p [Click b; Settle (List.length (pending p)) (Returned res)] in
  shows_result b (app p') = false
  /\ shows_error b (app p') = false
  /\ pending p' = pending p.
Proof.
  intros Hb Hreq Hok Hjson Hv p'.
  unfold p', run. simpl fold_left.
  rewrite click_calls, nth_error_last, remove_nth_last.
  destruct b; try congruence; simpl in Hreq |- *.
  - unfold createLink. simpl. rewrite Hok, Hjson. simpl.
    unfold shows_result. simpl. rewrite Hv. repeat split.
  - unfold updateLink. rewrite Hreq. simpl. rewrite Hok, Hjson. simpl.
    unfold shows_result. simpl. rewrite Hv. repeat split.
  - unfold deleteLink. rewrite Hreq. simpl. rewrite Hok, Hjson. simpl.
    unfold shows_result. simpl. rewrite Hv. repeat split.
Qed.

Lemma falsy_answer_shows_nothing_witness :
  let p' := run None start [Click BtnCreate; Settle 0 (Returned (json_response 200 Null))] in
  shows_result BtnCreate (app p') = false
  /\ shows_error BtnCreate (app p') = false
  /\ pending p' = [].
Proof.
  assert (Hb : BtnCreate <> BtnTest) by discriminate.
  exact (@falsy_answer_shows_nothing None BtnCreate start _ (json_response 200 Null) Null
           Hb eq_refl eq_refl eq_refl eq_refl).
Defined.

(** ** Inputs and outputs *)

Lemma handler_step_keeps_inputs (base : option jsstring) (p : Page) (ev : Event) :
  is_input_event ev = false -> inputs (app (step base p ev)) = inputs (app p).
Proof.
  destruct ev as [f s | i | i | b | i answer]; simpl; try discriminate; intros _.
  - destruct b; reflexivity.
  - destruct (nth_error (pending p) i) as [inv|]; [|reflexivity].
    destruct inv as [payload | id token data | id token | id]; simpl.
    + destruct (createLink base (fun _ => answer) payload); reflexivity.
    + destruct (updateLink base (fun _ => answer) id token data); reflexivity.
    + destruct (deleteLink base (fun _ => answer) id token); reflexivity.
    + destruct (req <- testRedirect_request base id ;; answer); reflexivity.
Qed.

Lemma input_step_keeps_outputs (base : option jsstring) (p : Page) (ev : Event) :
  is_input_event ev = true ->
  outputs (app (step base p ev)) = outputs (app p)
  /\ pending (step base p ev) = pending p.
Proof.
  destruct ev as [f s | i | i | b | i answer]; simpl; try discriminate; intros _.
  - destruct f; split; reflexivity.
  - unfold choose_create_code. destruct (nth_error create_code_options i);
      split; reflexivity.
  - unfold choose_upd_code. destruct (nth_error upd_code_options i); split; reflexivity.
Qed.

(** The handlers never write to what the user has entered: after any
    number of clicks and answers, in any order and whatever the answers
    are, every input and select holds what it held before.  In particular
    no form is cleared after a success, and no edit token is wiped. *)
Theorem handlers_leave_the_inputs (base : option jsstring) (p : Page) (evs : list Event) :
  forallb (fun ev => negb (is_input_event ev)) evs = true ->
  inputs (app (run base p evs)) = inputs (app p).
Proof.
  revert p. induction evs as [|ev evs IH]; intros p Hevs; [reflexivity|].
  simpl in Hevs. apply andb_true_iff in Hevs. destruct Hevs as [Hev Hrest].
  apply negb_true_iff in Hev.
  unfold run in *. simpl. rewrite (IH _ Hrest).
  apply handler_step_keeps_inputs. exact Hev.
Qed.

Lemma handlers_leave_the_inputs_witness :
  inputs (app (run None (mkPage (typed UpdToken (js "t0ken") initial) [])
                 [Click BtnUpdate; Settle 0 (Returned no_content_204); Click BtnDelete]))
  = inputs (typed UpdToken (js "t0ken") initial).
Proof.
  exact (@handlers_leave_the_inputs None (mkPage (typed UpdToken (js "t0ken") initial) [])
           [Click BtnUpdate; Settle 0 (Returned no_content_204); Click BtnDelete] eq_refl).
Defined.

(** Typing and choosing never touch what the handlers have written or
    the calls that are waiting: a result or an error stays on the page
    until the button of its card is clicked again, whatever is edited in
    the meantime. *)
Theorem inputs_leave_the_outputs (base : option jsstring) (p : Page) (evs : list Event) :
  forallb is_input_event evs = true ->
  outputs (app (run base p evs)) = outputs (app p)
  /\ pending (run base p evs) = pending p.
Proof.
  revert p. induction evs as [|ev evs IH]; intros p Hevs; [split; reflexivity|].
  simpl in Hevs. apply andb_true_iff in Hevs. destruct Hevs as [Hev Hrest].
  unfold run in *. simpl.
  destruct (IH (step base p ev) Hrest) as [Ho Hp].
  destruct (input_step_keeps_outputs base p ev Hev) as [Ho' Hp'].
  rewrite Ho, Hp. split; assumption.
Qed.

Lemma inputs_leave_the_outputs_witness :
  let p := run None start [Click BtnCreate; Settle 0 (Returned conflict_409)] in
  let evs := [Typed CreateAlias (js "promo2"); ChooseCreateCode 1;
              Typed CreateTargetUrl (js "https://b.example")] in
  outputs (app (run None p evs)) = outputs (app p)
  /\ pending (run None p evs) = pending p.
Proof.
  exact (@inputs_leave_the_outputs None
           (run None start [Click BtnCreate; Settle 0 (Returned conflict_409)])
           [Typed CreateAlias (js "promo2"); ChooseCreateCode 1;
            Typed CreateTargetUrl (js "https://b.example")] eq_refl).
Defined.

(** ** The call of a click *)

(** The call a click makes is built from the inputs alone: two states of
    the page with the same inputs make the same call with the same
    arguments, whatever results and errors are on display. *)
Theorem calls_are_made_from_the_inputs (b : Button) (st st' : App) :
  inputs st = inputs st' -> called b st = called b st'.
Proof.
  unfold inputs. intros H.
  injection H. intros Htest HdelT HdelI Halias Hcode Htarget Htoken Hid Hform.
  destruct b; unfold called, onCreate_payload, onUpdate_data.
  - rewrite Hform. reflexivity.
  - rewrite Hid, Htoken, Htarget, Hcode, Halias. reflexivity.
  - rewrite HdelI, HdelT. reflexivity.
  - rewrite Htest. reflexivity.
Qed.

Lemma calls_are_made_from_the_inputs_witness :
  called BtnCreate (app (run None start [Click BtnCreate; Settle 0 (Returned created_201)]))
  = called BtnCreate initial.
Proof.
  apply calls_are_made_from_the_inputs. reflexivity.
Defined.

(** An input belongs to one card: what is typed into a field of one card
    changes nothing in the call of another card.  So the token typed into
    the update card is never sent by the delete button, and neither token
    is ever part of a create or a tester request. *)
Theorem typing_in_one_card_leaves_the_other_calls (f : TextField) (s : jsstring)
  (b : Button) (st : App) :
  panel_of f <> b -> called b (typed f s st) = called b st.
Proof.
  intros H. destruct f, b; simpl in H; try congruence; reflexivity.
Qed.

Lemma typing_in_one_card_leaves_the_other_calls_witness :
  called BtnDelete (typed UpdToken (js "t0ken") initial) = called BtnDelete initial.
Proof.
  apply typing_in_one_card_leaves_the_other_calls. discriminate.
Defined.

(** ** Answers in any order *)

Lemma create_update_ends_commute (c u : completion value) (st : App) :
  onCreate_end c (onUpdate_end u st) = onUpdate_end u (onCreate_end c st).
Proof. destruct c, u; reflexivity. Qed.

Lemma create_delete_ends_commute (c d : completion value) (st : App) :
  onCreate_end c (onDelete_end d st) = onDelete_end d (onCreate_end c st).
Proof. destruct c, d; reflexivity. Qed.

Lemma update_delete_ends_commute (u d : completion value) (st : App) :
  onUpdate_end u (onDelete_end d st) = onDelete_end d (onUpdate_end u st).
Proof. destruct u, d; reflexivity. Qed.

Lemma create_test_ends_commute (c : completion value) (t : completion Response)
  (st : App) :
  onCreate_end c (testRedirect_end t st) = testRedirect_end t (onCreate_end c st).
Proof. destruct c, t; reflexivity. Qed.

Lemma update_test_ends_commute (u : completion value) (t : completion Response)
  (st : App) :
  onUpdate_end u (testRedirect_end t st) = testRedirect_end t (onUpdate_end u st).
Proof. destruct u, t; reflexivity. Qed.

Lemma delete_test_ends_commute (d : completion value) (t : completion Response)
  (st : App) :
  onDelete_end d (testRedirect_end t st) = testRedirect_end t (onDelete_end d st).
Proof. destruct d, t; reflexivity. Qed.

Create HintDb ends_commute.

#[local] Hint Resolve create_update_ends_commute create_delete_ends_commute
  update_delete_ends_commute create_test_ends_commute update_test_ends_commute
  delete_test_ends_commute : ends_commute.

(** The answers to calls of two different handlers can arrive in either
    order: the variables of the page end up the same. *)
Theorem answers_of_different_handlers_commute (base : option jsstring)
  (inv1 inv2 : Invocation) (a1 a2 : completion Response) (st : App) :
  handler_of inv1 <> handler_of inv2 ->
  resume base inv1 a1 (resume base inv2 a2 st)
  = resume base inv2 a2 (resume base inv1 a1 st).
Proof.
  intros H.
  destruct inv1, inv2; simpl in H; try congruence; unfold resume;
    solve [ auto with ends_commute | symmetry; auto with ends_commute ].
Qed.

Lemma answers_of_different_handlers_commute_witness :
  resume None (RunCreate (onCreate_payload initial)) (Returned created_201)
    (resume None (RunDelete (js "old") (js "t0ken")) (Returned gone_410) initial)
  = resume None (RunDelete (js "old") (js "t0ken")) (Returned gone_410)
      (resume None (RunCreate (onCreate_payload initial)) (Returned created_201) initial).
Proof.
  apply answers_of_different_handlers_commute. discriminate.
Defined.

(** ** The requests of the page *)

Lemma API_BASE_not_empty (base : option jsstring) : API_BASE base <> [].
Proof.
  unfold API_BASE, or_string. destruct base as [[|c s]|]; simpl; discriminate.
Qed.

Lemma onUpdate_data_is_an_object (st : App) : exists props, onUpdate_data st = Object props.
Proof.
  unfold onUpdate_data.
  destruct (truthy_string (updTarget st)), (truthy_code (updCode st)),
    (truthy_string (updNewAlias st)); simpl; eexists; reflexivity.
Qed.

Lemma JSON_stringify_object (props : list (jsstring * value)) :
  JSON_stringify (Object props) <> None.
Proof. unfold JSON_stringify. simpl. discriminate. Qed.

Ltac request_shape Hbody :=
  repeat split; intros;
  try reflexivity; try (left; reflexivity); try (right; reflexivity);
  try exact Hbody;
  try (exfalso; apply Hbody; assumption);
  try match goal with
      | H : _ \/ _ |- _ => destruct H as [H | H]; discriminate H
      | H : _ = _ |- _ => discriminate H
      | H : ?x <> ?x |- _ => exfalso; apply H; reflexivity
      | H : headers_get _ _ = _ |- _ => vm_compute in H; discriminate H
      | H : headers_get _ _ <> None |- _ => exfalso; apply H; reflexivity
      | |- headers_get _ _ <> None => vm_compute; discriminate
      end.

(** Whatever is in the inputs, the request of a click has the shape its
    button stands for.  Its URL is under the one base address, which is
    never empty.  It has a body exactly for create and update, and then,
    and only then, the content type application/json.  It has the header
    X-Edit-Token exactly for update and delete.  Only the tester asks for
    redirect mode manual, and the method is fixed by the button. *)
Theorem page_requests_are_consistent (base : option jsstring) (b : Button) (st : App)
  (req : Request) :
  request_of_invocation base (called b st) = Returned req ->
  (exists path, req_url req = API_BASE base ++ js "/" ++ path)
  /\ API_BASE base <> []
  /\ (req_body req <> None <-> b = BtnCreate \/ b = BtnUpdate)
  /\ (headers_get (js "Content-Type") (req_headers req) = Some (js "application/json")
      <-> req_body req <> None)
  /\ (headers_get (js "Content-Type") (req_headers req) = None
      <-> req_body req = None)
  /\ (headers_get (js "X-Edit-Token") (req_headers req) <> None
      <-> b = BtnUpdate \/ b = BtnDelete)
  /\ (req_redirect req = Manual <-> b = BtnTest)
  /\ req_method req = match b with
                      | BtnCreate => js "POST"
                      | BtnUpdate => js "PATCH"
                      | BtnDelete => js "DELETE"
                      | BtnTest => js "GET"
                      end.
Proof.
  intros Hreq. split; [|split; [apply API_BASE_not_empty|]].
  - destruct b; simpl in Hreq.
    + injection Hreq as <-. exists (js "api/links"). reflexivity.
    + unfold updateLink_request in Hreq.
      destruct (encodeURIComponent (updLinkId st)) as [e|]; simpl in Hreq; [|discriminate].
      injection Hreq as <-. exists (js "api/links/" ++ e). reflexivity.
    + unfold deleteLink_request in Hreq.
      destruct (encodeURIComponent (delLinkId st)) as [e|]; simpl in Hreq; [|discriminate].
      injection Hreq as <-. exists (js "api/links/" ++ e). reflexivity.
    + unfold testRedirect_request in Hreq.
      destruct (encodeURIComponent (linkId (redirectTester st))) as [e|]; simpl in Hreq;
        [|discriminate].
      injection Hreq as <-. exists e. reflexivity.
  - destruct b; simpl in Hreq.
    + injection Hreq as <-.
      assert (Hb : JSON_stringify (CreateLinkPayload.to_value (onCreate_payload st)) <> None)
        by apply JSON_stringify_object.
      simpl. request_shape Hb.
    + unfold updateLink_request in Hreq.
      destruct (encodeURIComponent (updLinkId st)) as [e|]; simpl in Hreq; [|discriminate].
      injection Hreq as <-.
      destruct (onUpdate_data_is_an_object st) as [props Hprops].
      assert (Hb : JSON_stringify (onUpdate_data st) <> None)
        by (rewrite Hprops; apply JSON_stringify_object).
      simpl. request_shape Hb.
    + unfold deleteLink_request in Hreq.
      destruct (encodeURIComponent (delLinkId st)) as [e|]; simpl in Hreq; [|discriminate].
      injection Hreq as <-.
      assert (Hb : Some (delLinkId st) <> None) by discriminate.
      simpl. request_shape Hb.
    + unfold testRedirect_request in Hreq.
      destruct (encodeURIComponent (linkId (redirectTester st))) as [e|]; simpl in Hreq;
        [|discriminate].
      injection Hreq as <-.
      assert (Hb : Some e <> None) by discriminate.
      simpl. request_shape Hb.
Qed.

Lemma page_requests_are_consistent_witness :
  let st := typed DelToken (js "t0ken") (typed DelLinkId (js "promo") initial) in
  exists req, request_of_invocation None (called BtnDelete st) = Returned req
    /\ req_body req = None
    /\ headers_get (js "X-Edit-Token") (req_headers req) <> None
    /\ req_method req = js "DELETE".
Proof.
  set (st := typed DelToken (js "t0ken") (typed DelLinkId (js "promo") initial)).
  destruct (@page_requests_are_consistent None BtnDelete st _ eq_refl)
    as [_ [_ [_ [_ [Hbody [Htoken [_ Hmethod]]]]]]].
  eexists. split; [reflexivity|].
  split; [reflexivity|]. split; [|exact Hmethod].
  apply Htoken. right. reflexivity.
Defined.

(** ** The redirect tester *)

(** *** Headers behind the filters *)

Lemma filter_filter_keep (A : Type) (P Q : A -> bool) (l : list A) :
  (forall x, P x = true -> Q x = true) -> filter P (filter Q l) = filter P l.
Proof.
  intros H. induction l as [|x l IH]; [reflexivity|].
  simpl. destruct (Q x) eqn:HQ; simpl.
  - rewrite IH. reflexivity.
  - destruct (P x) eqn:HP; [|exact IH].
    rewrite (H x HP) in HQ. discriminate.
Qed.

Lemma filter_filter_drop (A : Type) (P Q : A -> bool) (l : list A) :
  (forall x, P x = true -> Q x = false) -> filter P (filter Q l) = [].
Proof.
  intros H. induction l as [|x l IH]; [reflexivity|].
  simpl. destruct (Q x) eqn:HQ; simpl; [|exact IH].
  destruct (P x) eqn:HP; [|exact IH].
  rewrite (H x HP) in HQ. discriminate.
Qed.

Lemma existsb_same_name (a b : jsstring) (l : list jsstring) :
  lowercase a = lowercase b -> existsb (same_name a) l = existsb (same_name b) l.
Proof.
  intros H. induction l as [|x l IH]; [reflexivity|].
  simpl. rewrite IH. unfold same_name. rewrite H. reflexivity.
Qed.

Lemma named_location (p : jsstring * jsstring) :
  jsstring_eqb (lowercase (js "Location")) (lowercase (fst p)) = true ->
  lowercase (fst p) = lowercase (js "Location").
Proof. intros H. apply jsstring_eqb_eq in H. symmetry. exact H. Qed.

(** The Location header of the response the page gets. *)
Lemma location_of_the_filtered_response (tainting : Tainting) (res : Response) :
  headers_get (js "Location") (res_headers (filtered_response tainting res))
  = readable_location tainting res.
Proof.
  destruct tainting as [|origin]; unfold readable_location, headers_get; simpl res_headers.
  - rewrite filter_filter_keep; [reflexivity|].
    intros p Hp. apply named_location in Hp.
    unfold is_forbidden_response_header_name.
    rewrite (@existsb_same_name (fst p) (js "Location") _ Hp). reflexivity.
  - unfold exposes.
    destruct (existsb (same_name (js "Location"))
                (cors_exposed_header_names (res_headers res))) eqn:Hex.
    + rewrite filter_filter_keep; [reflexivity|].
      intros p Hp. apply named_location in Hp.
      unfold is_cors_safelisted_response_header_name, is_forbidden_response_header_name.
      rewrite !(@existsb_same_name (fst p) (js "Location") _ Hp), Hex. reflexivity.
    + rewrite filter_filter_drop; [reflexivity|].
      intros p Hp. apply named_location in Hp.
      unfold is_cors_safelisted_response_header_name, is_forbidden_response_header_name.
      rewrite !(@existsb_same_name (fst p) (js "Location") _ Hp), Hex. reflexivity.
Qed.

(** An answer without Access-Control-Expose-Headers exposes nothing. *)
Lemma nothing_exposed (res : Response) :
  headers_get (js "Access-Control-Expose-Headers") (res_headers res) = None ->
  cors_exposed_header_names (res_headers res) = [].
Proof.
  unfold headers_get, cors_exposed_header_names, extract_header_list_values, same_name.
  destruct (filter
              (fun p => jsstring_eqb (lowercase (js "Access-Control-Expose-Headers"))
                          (lowercase (fst p)))
              (res_headers res)); [reflexivity | discriminate].
Qed.

(** What the tester shows of the answer of the server, for every answer
    and wherever the page is served from.  An answer that passes the
    CORS check (as every answer does when page and API have one origin)
    is shown like this: for each of the redirect statuses 301, 302, 303,
    307 and 308, the status 0 and an empty Location, whatever the answer
    carries; for any other status, the status in decimal, and the
    Location header if the page can read it, the empty string if not.  A
    page of another origin reads no Location from an answer without
    Access-Control-Expose-Headers.  An answer with another status that
    does not pass the CORS check is shown as an error.  The id in the
    input is kept. *)
Theorem tester_line_for_every_answer (base : option jsstring) (tainting : Tainting)
  (network : Request -> completion Response) (st : App) (req : Request)
  (actual : Response) :
  testRedirect_request base (linkId (redirectTester st)) = Returned req ->
  network req = Returned actual ->
  let t := redirectTester (testRedirect base (http_fetch tainting network) st) in
  linkId t = linkId (redirectTester st)
  /\ (passes_cors_check tainting actual = true ->
      if is_redirect_status (res_status actual)
      then status t = js "0" /\ location t = []
      else status t = Number_toString (res_status actual)
           /\ location t = match readable_location tainting actual with
                           | Some v => v
                           | None => []
                           end)
  /\ (forall origin,
        tainting = Cors origin ->
        passes_cors_check tainting actual = true ->
        headers_get (js "Access-Control-Expose-Headers") (res_headers actual) = None ->
        location t = [])
  /\ (passes_cors_check tainting actual = false ->
      is_redirect_status (res_status actual) = false ->
      status t = js "error" /\ location t = error_text network_error).
Proof.
  intros Hreq Hnet.
  pose proof (@http_fetch_of_the_tester base _ req tainting network Hreq) as Hf.
  rewrite Hnet in Hf. cbn [bind] in Hf.
  unfold testRedirect. cbv zeta.
  change (linkId (redirectTester (testRedirect_begin st)))
    with (linkId (redirectTester st)).
  rewrite Hreq. cbn [bind]. rewrite Hf. clear Hf.
  assert (Hshown : passes_cors_check tainting actual = true ->
            is_redirect_status (res_status actual) = false ->
            location
              (redirectTester
                 (testRedirect_end (Returned (filtered_response tainting actual))
                    (testRedirect_begin st)))
            = match readable_location tainting actual with
              | Some v => v
              | None => []
              end).
  { intros _ _. simpl. rewrite or_string_empty.
    rewrite location_of_the_filtered_response. reflexivity. }
  destruct (passes_cors_check tainting actual) eqn:Hpass; cbn [negb].
  - destruct (is_redirect_status (res_status actual)) eqn:Hred.
    + split; [reflexivity|]. split; [intros _; split; reflexivity|].
      split; [intros; reflexivity | discriminate].
    + split; [destruct tainting; reflexivity|].
      split.
      { intros _. split; [destruct tainting; reflexivity|].
        apply Hshown; reflexivity. }
      split; [|discriminate].
      intros origin -> _ Hnone. rewrite Hshown by reflexivity.
      unfold readable_location, exposes. rewrite (nothing_exposed _ Hnone). reflexivity.
  - split; [reflexivity|]. split; [discriminate|].
    split; [discriminate|]. intros _ _. split; reflexivity.
Qed.

Lemma tester_line_for_every_answer_witness :
  let not_found :=
    empty_response 404 ((js "Location", js "https://a.example") :: cors_headers) in
  let t := redirectTester
             (testRedirect None (http_fetch (Cors ui_origin) (answering not_found))
                (tester_with (js "promo"))) in
  linkId t = js "promo" /\ status t = js "404" /\ location t = [].
Proof.
  destruct (@tester_line_for_every_answer None (Cors ui_origin)
              (answering
                 (empty_response 404 ((js "Location", js "https://a.example") :: cors_headers)))
              (tester_with (js "promo")) _
              (empty_response 404 ((js "Location", js "https://a.example") :: cors_headers))
              eq_refl eq_refl) as [Hid [Hshown _]].
  split; [exact Hid|]. exact (Hshown eq_refl).
Defined.

(** When the tester cannot show an answer it shows the word error and a
    text that is never empty for the failures of the platform: URI
    malformed when the id has a lone surrogate (no request is made then,
    whatever [fetch] would do), and the message of the exception, or its
    name if the message is empty, when [fetch] rejects. *)
Theorem tester_shows_what_went_wrong (base : option jsstring)
  (fetch : Request -> completion Response) (st : App) :
  let t := redirectTester (testRedirect base fetch st) in
  (is_well_formed (linkId (redirectTester st)) = false ->
   status t = js "error" /\ location t = js "URI malformed")
  /\ (forall req e,
        testRedirect_request base (linkId (redirectTester st)) = Returned req ->
        fetch req = Threw e ->
        status t = js "error" /\ location t = error_text e).
Proof.
  unfold testRedirect. simpl.
  change (linkId (redirectTester (testRedirect_begin st)))
    with (linkId (redirectTester st)).
  split.
  - intros Hwf. unfold testRedirect_request.
    generalize (encodeURIComponent_well_formed (linkId (redirectTester st))).
    rewrite Hwf. intros ->. split; reflexivity.
  - intros req e Hreq Hfetch. rewrite Hreq. simpl. rewrite Hfetch. split; reflexivity.
Qed.

Lemma tester_shows_what_went_wrong_witness :
  let t := redirectTester
             (testRedirect None (answering gone_410) (tester_with [55357%N])) in
  status t = js "error" /\ location t = js "URI malformed".
Proof.
  exact (proj1 (@tester_shows_what_went_wrong None (answering gone_410)
                  (tester_with [55357%N])) eq_refl).
Defined.
